(** * Verification model of [unlock-bootloader.mjs]

    A shallow embedding of the brute-force engine ([class Bruteforce]) of the
    Huawei bootloader tools, together with the fragments of the JavaScript
    run time the engine relies on:

    - numbers are IEEE-754 binary64 values, represented with the Standard
      Library's [spec_float] and its arithmetic ([SFadd], [SFmul], [SFsqrt],
      [SFcompare]) at precision 53 and maximal exponent 1024;
    - strings are sequences of code units below 256 ([string]);
    - [Number(string)], [String(number)], [padStart], [trim], [toLowerCase],
      [includes] and [Math.round] follow ECMA-262;
    - the file system is a finite map from file names to file contents;
    - a promise that is rejected and never awaited ends the process where it
      next comes back to its event loop, as Node.js 15 and later do by
      default;
    - the device (the [adb] and [fastboot] commands run through
      [utils/_exec.mjs]) is an oracle passed as a parameter. *)

From Stdlib Require Import ZArith Bool List Ascii String Lia SpecFloat.
From stdpp Require Import base option gmap strings.

Import ListNotations.
Local Open Scope string_scope.
Local Open Scope Z_scope.

(** Text is taken apart by [simpl] as lists are. *)
#[local] Arguments String.append _ _ : simpl nomatch.

(* ===================================================================== *)
(** * 1. JavaScript numbers                                               *)
(* ===================================================================== *)

(** A JavaScript number is a binary64 floating-point datum. *)
Definition number : Type := spec_float.

Definition prec : Z := 53.
Definition emax : Z := 1024.

Definition NaN : number := S754_nan.
Definition Infinity : number := S754_infinity false.

(** [x + y], [x * y] and [Math.sqrt(x)]. *)
Definition num_add (x y : number) : number := SFadd prec emax x y.
Definition num_mul (x y : number) : number := SFmul prec emax x y.
Definition Math_sqrt (x : number) : number := SFsqrt prec emax x.

(** [x <= y] and [x >= y]; both are [false] as soon as one side is NaN. *)
Definition num_le (x y : number) : bool := SFleb x y.
Definition num_ge (x y : number) : bool := SFleb y x.
Definition num_lt (x y : number) : bool := SFltb x y.

(** Structural equality of two data (NaN equals NaN, [+0] differs from
    [-0]): this is [Object.is], used to compare results, not [===]. *)
Definition num_same (x y : number) : bool :=
  match x, y with
  | S754_nan, S754_nan => true
  | S754_zero s, S754_zero t => Bool.eqb s t
  | S754_infinity s, S754_infinity t => Bool.eqb s t
  | S754_finite s m e, S754_finite t n f =>
      Bool.eqb s t && Pos.eqb m n && Z.eqb e f
  | _, _ => false
  end.

Definition is_finite (x : number) : bool :=
  match x with
  | S754_zero _ | S754_finite _ _ _ => true
  | _ => false
  end.

(** ** Rounding a rational to the nearest binary64 datum

    [round_rat s a d] is the binary64 datum nearest to [(-1)^s * a / d],
    ties going to the even mantissa.  It gives the value of numeric
    literals and of numeric strings, whose mathematical value is a decimal
    fraction. *)

(** Quotient [n / d] rounded to the nearest integer, ties to even. *)
Definition rdiv_even (n d : Z) : Z :=
  let q := n / d in
  match 2 * (n mod d) ?= d with
  | Lt => q
  | Gt => q + 1
  | Eq => if Z.even q then q else q + 1
  end.

(** The value is counted in units of [2^-off].  The offset [off] gives the
    quotient [n / d] at least 54 bits, unless that takes more than the 1074
    binary places of the subnormal numbers.  The result is [m * 2^t] units:
    [t] is 52 below the leading bit of the quotient, so that [m] has 53
    bits, and 0 for a quotient below [2^52], which only happens among the
    subnormal numbers.  A mantissa that rounds up to [2^53] moves to the
    next exponent, and an exponent above 971 is an overflow. *)
Definition round_rat (s : bool) (a d : Z) : number :=
  if a <=? 0 then S754_zero s else
  let off := Z.min 1074 (Z.max 0 (54 + Z.log2 d - Z.log2 a)) in
  let n := a * 2 ^ off in
  let t := Z.max (Z.log2 (n / d) - 52) 0 in
  let m1 := rdiv_even n (d * 2 ^ t) in
  let m2 := if m1 =? 2 ^ 53 then 2 ^ 52 else m1 in
  let t2 := if m1 =? 2 ^ 53 then t + 1 else t in
  if m2 <=? 0 then S754_zero s
  else if 971 <? t2 - off then S754_infinity s
  else S754_finite s (Z.to_pos m2) (t2 - off).

(** The datum nearest to [(-1)^s * m * 10^q]. *)
Definition round_dec (s : bool) (m q : Z) : number :=
  if 0 <=? q then round_rat s (m * 10 ^ q) 1
  else round_rat s m (10 ^ (- q)).

(** An integer literal of the source, such as [1000000000000000]. *)
Definition num_of_Z (z : Z) : number :=
  if z <? 0 then round_dec true (- z) 0 else round_dec false z 0.

(** ** [Math.round]

    The integer nearest to [x], ties going towards [+Infinity]; the sign of
    a zero result is the sign of [x]. *)
Definition Math_round (x : number) : number :=
  match x with
  | S754_finite s m e =>
      if 0 <=? e then x
      else
        let v := if s then Z.neg m else Z.pos m in
        let n := (2 * v + 2 ^ (- e)) / 2 ^ (1 - e) in
        if n =? 0 then S754_zero s else num_of_Z n
  | _ => x
  end.

(* ===================================================================== *)
(** * 2. JavaScript strings                                               *)
(* ===================================================================== *)

Definition code_unit (c : ascii) : Z := Z.of_nat (nat_of_ascii c).

(** White space and line terminators among the code units below 256:
    TAB, LF, VT, FF, CR, SP and NBSP. *)
Definition is_ws (c : ascii) : bool :=
  let n := code_unit c in
  ((9 <=? n) && (n <=? 13)) || (n =? 32) || (n =? 160).

Fixpoint trim_start (s : string) : string :=
  match s with
  | String c s' => if is_ws c then trim_start s' else s
  | EmptyString => EmptyString
  end.

Fixpoint trim_end (s : string) : string :=
  match s with
  | EmptyString => EmptyString
  | String c s' =>
      match trim_end s' with
      | EmptyString => if is_ws c then EmptyString else String c EmptyString
      | t => String c t
      end
  end.

(** [s.trim()] *)
Definition trim (s : string) : string := trim_end (trim_start s).

(** [s.toLowerCase()]: the upper-case letters below 256 are [A-Z] and
    [U+00C0-U+00DE] without the multiplication sign [U+00D7]. *)
Definition lower_unit (c : ascii) : ascii :=
  let n := code_unit c in
  if ((65 <=? n) && (n <=? 90)) || ((192 <=? n) && (n <=? 222) && negb (n =? 215))
  then ascii_of_nat (Z.to_nat (n + 32)) else c.

Fixpoint toLowerCase (s : string) : string :=
  match s with
  | String c s' => String (lower_unit c) (toLowerCase s')
  | EmptyString => EmptyString
  end.

(** [s.startsWith(p)] and [s.includes(p)] *)
Fixpoint startsWith (p s : string) : bool :=
  match p, s with
  | EmptyString, _ => true
  | String a p', String b s' => Ascii.eqb a b && startsWith p' s'
  | String _ _, EmptyString => false
  end.

Fixpoint includes (p s : string) : bool :=
  startsWith p s ||
  match s with
  | String _ s' => includes p s'
  | EmptyString => false
  end.

(** [s.padStart(n, "0")] *)
Fixpoint zeros (n : nat) : string :=
  match n with
  | O => EmptyString
  | S n' => String "0" (zeros n')
  end.

Definition padStart0 (n : nat) (s : string) : string :=
  zeros (n - String.length s) ++ s.

(** ** Decimal digits *)

Definition is_digit (c : ascii) : bool :=
  let n := code_unit c in (48 <=? n) && (n <=? 57).

Definition digit_val (c : ascii) : Z := code_unit c - 48.

Definition digit_char (d : Z) : ascii := ascii_of_nat (Z.to_nat (48 + d)).

(** Reads the longest run of decimal digits at the head of [s], continuing
    the value [acc]; returns the value, the number of digits read and the
    rest of the string. *)
Fixpoint read_digits (s : string) (acc cnt : Z) : Z * Z * string :=
  match s with
  | String c s' =>
      if is_digit c then read_digits s' (10 * acc + digit_val c) (cnt + 1)
      else (acc, cnt, s)
  | EmptyString => (acc, cnt, s)
  end.

(** The decimal digits of a non-negative integer, without leading zeros. *)
Fixpoint dec_digits (fuel : nat) (n : Z) (acc : string) : string :=
  match fuel with
  | O => acc
  | S f =>
      let acc' := String (digit_char (n mod 10)) acc in
      if n <? 10 then acc' else dec_digits f (n / 10) acc'
  end.

Definition dec_string (n : Z) : string :=
  dec_digits (S (Z.to_nat (Z.log2 n))) n EmptyString.

(** ** [Number(s)]: the value of a string ([StringToNumber]) *)

(** [ExponentPart], which must end the literal. *)
Definition read_exponent (r : string) : option Z :=
  match r with
  | EmptyString => Some 0
  | String c r1 =>
      if Ascii.eqb c "e" || Ascii.eqb c "E" then
        let '(neg, r2) :=
          match r1 with
          | String "+" r2 => (false, r2)
          | String "-" r2 => (true, r2)
          | _ => (false, r1)
          end in
        let '(x, nx, r3) := read_digits r2 0 0 in
        match r3 with
        | EmptyString => if 0 <? nx then Some (if neg then - x else x) else None
        | _ => None
        end
      else None
  end.

(** [StrUnsignedDecimalLiteral] other than [Infinity]: mantissa and decimal
    exponent of the literal. *)
Definition parse_unsigned_decimal (s : string) : option (Z * Z) :=
  let '(i, ni, r1) := read_digits s 0 0 in
  match r1 with
  | String "." r2 =>
      let '(f, nf, r3) := read_digits r2 i 0 in
      if (ni =? 0) && (nf =? 0) then None
      else match read_exponent r3 with
           | Some x => Some (f, x - nf)
           | None => None
           end
  | _ =>
      if ni =? 0 then None
      else match read_exponent r1 with
           | Some x => Some (i, x)
           | None => None
           end
  end.

Definition StrDecimalLiteral (s : string) : number :=
  let '(neg, u) :=
    match s with
    | String "+" u => (false, u)
    | String "-" u => (true, u)
    | _ => (false, s)
    end in
  if String.eqb u "Infinity" then S754_infinity neg
  else match parse_unsigned_decimal u with
       | Some (m, q) => round_dec neg m q
       | None => NaN
       end.

(** Digits of [NonDecimalIntegerLiteral]. *)
Definition radix_digit (c : ascii) : option Z :=
  let n := code_unit c in
  if (48 <=? n) && (n <=? 57) then Some (n - 48)
  else if (97 <=? n) && (n <=? 102) then Some (n - 87)
  else if (65 <=? n) && (n <=? 70) then Some (n - 55)
  else None.

Fixpoint read_radix (radix : Z) (s : string) (acc : Z) : option Z :=
  match s with
  | EmptyString => Some acc
  | String c s' =>
      match radix_digit c with
      | Some d => if d <? radix then read_radix radix s' (radix * acc + d) else None
      | None => None
      end
  end.

Definition NonDecimalIntegerLiteral (s : string) : option number :=
  match s with
  | String "0" (String c (String d r as body)) =>
      let radix :=
        if Ascii.eqb c "x" || Ascii.eqb c "X" then Some 16
        else if Ascii.eqb c "o" || Ascii.eqb c "O" then Some 8
        else if Ascii.eqb c "b" || Ascii.eqb c "B" then Some 2
        else None in
      match radix with
      | Some b => Some match read_radix b body 0 with
                       | Some v => num_of_Z v
                       | None => NaN
                       end
      | None => None
      end
  | _ => None
  end.

(** [Number(s)], also the conversion applied to a string operand of [<=]. *)
Definition Number (s : string) : number :=
  let t := trim s in
  match t with
  | EmptyString => S754_zero false
  | _ => match NonDecimalIntegerLiteral t with
         | Some v => v
         | None => StrDecimalLiteral t
         end
  end.

(** ** [String(x)]: the text of a number ([Number::toString], radix 10)

    For a positive finite [x] the standard asks for integers [n], [k] and [s]
    with [10^(k-1) <= s < 10^k] such that [s * 10^(n-k)] converts back to
    [x], with [k] as small as possible and, among the candidates, [s] the
    nearest to [x].  A candidate is kept here as the pair [(s, q)] with
    [q = n - k], the value being [s * 10^q]. *)

(** Removes the trailing zeros of a mantissa. *)
Fixpoint strip10 (fuel : nat) (s q : Z) : Z * Z :=
  match fuel with
  | O => (s, q)
  | S f =>
      if (0 <? s) && (s mod 10 =? 0) then strip10 f (s / 10) (q + 1)
      else (s, q)
  end.

Definition normalise (s q : Z) : Z * Z :=
  strip10 (S (Z.to_nat (Z.log2 s))) s q.

(** The position of the leading digit: the [p] with
    [10^(p-1) <= num / den < 10^p]. *)
Fixpoint lead_below_one (fuel : nat) (num den : Z) (j : Z) : Z :=
  match fuel with
  | O => j
  | S f => if den <=? num * 10 then j else lead_below_one f (num * 10) den (j + 1)
  end.

Definition dec_exponent (num den : Z) : Z :=
  if den <=? num then Z.of_nat (String.length (dec_string (num / den)))
  else - lead_below_one (S (Z.to_nat (Z.log2 den))) num den 0.

(** Does the decimal [s * 10^q] convert back to [x]? *)
Definition converts_to (x : number) (c : Z * Z) : bool :=
  (0 <? fst c) && num_same (round_dec false (fst c) (snd c)) x.

(** The candidates with [k] digits for [num / den], whose leading digit is
    at position [p]: the two decimals around the exact value.  The nearer one
    wins, the even one on a tie. *)
Definition candidate (x : number) (num den p k : Z) : option (Z * Z) :=
  let q := p - k in
  let a := num * 10 ^ Z.max 0 (- q) in
  let b := den * 10 ^ Z.max 0 q in
  let lo := normalise (a / b) q in
  let hi := normalise (a / b + 1) q in
  let lo_first :=
    match 2 * (a mod b) ?= b with
    | Lt => true
    | Gt => false
    | Eq => Z.even (a / b)
    end in
  let '(c1, c2) := if lo_first then (lo, hi) else (hi, lo) in
  if converts_to x c1 then Some c1
  else if converts_to x c2 then Some c2
  else None.

(** Tries [k], [k+1], ... for [fuel] steps. *)
Fixpoint shortest (fuel : nat) (x : number) (num den p k : Z) : option (Z * Z) :=
  match fuel with
  | O => None
  | S f =>
      match candidate x num den p k with
      | Some c => Some c
      | None => shortest f x num den p (k + 1)
      end
  end.

(** The digits of the positive datum [m * 2^e].  Seventeen digits always
    identify a binary64 datum; the exact decimal expansion stands behind the
    search so that the function is total. *)
Definition digits_of (m : positive) (e : Z) : Z * Z :=
  let num := Z.pos m * 2 ^ Z.max 0 e in
  let den := 2 ^ Z.max 0 (- e) in
  match shortest 17 (S754_finite false m e) num den (dec_exponent num den) 1 with
  | Some c => c
  | None => normalise (Z.pos m * 2 ^ Z.max 0 e * 5 ^ Z.max 0 (- e)) (Z.min 0 e)
  end.

Fixpoint take (n : nat) (s : string) : string :=
  match n, s with
  | S n', String c s' => String c (take n' s')
  | _, _ => EmptyString
  end.

Fixpoint drop (n : nat) (s : string) : string :=
  match n, s with
  | S n', String _ s' => drop n' s'
  | _, _ => s
  end.

(** The layout of the digits [s] with [n = k + q]. *)
Definition layout (s q : Z) : string :=
  let ds := dec_string s in
  let k := Z.of_nat (String.length ds) in
  let n := k + q in
  if (-5 <=? n) && (n <=? 21) then
    if k <=? n then ds ++ zeros (Z.to_nat (n - k))
    else if 0 <? n then take (Z.to_nat n) ds ++ "." ++ drop (Z.to_nat n) ds
    else "0." ++ zeros (Z.to_nat (- n)) ++ ds
  else
    let x := n - 1 in
    let sign := if x <? 0 then "-" else "+" in
    let mant := if k =? 1 then ds else take 1 ds ++ "." ++ drop 1 ds in
    mant ++ "e" ++ sign ++ dec_string (Z.abs x).

Definition ToString (x : number) : string :=
  match x with
  | S754_nan => "NaN"
  | S754_zero _ => "0"
  | S754_infinity s => if s then "-Infinity" else "Infinity"
  | S754_finite s m e =>
      let '(d, q) := digits_of m e in
      (if s then "-" else "") ++ layout d q
  end.

(* ===================================================================== *)
(** * 3. The generator: [nextCode]                                        *)
(* ===================================================================== *)

(** [Math.round(Number(String(this.currentCode + Math.sqrt(imei) * 1024)
                          .padStart(16, "0")))] *)
Definition step (imei : number) : number :=
  num_mul (Math_sqrt imei) (num_of_Z 1024).

Definition nextCode (imei currentCode : number) : number :=
  Math_round (Number (padStart0 16 (ToString (num_add currentCode (step imei))))).

(** The generator as the specification words it: the step is truncated to
    an integer and zero-padded to the fixed width of sixteen digits before
    the numeric add, and the sum is rounded. *)
Definition trunc (x : number) : number :=
  match x with
  | S754_finite s m e =>
      if 0 <=? e then x
      else
        let n := Z.pos m / 2 ^ (- e) in
        if n =? 0 then S754_zero s else num_of_Z (if s then - n else n)
  | _ => x
  end.

Definition nextCode_spec (imei currentCode : number) : number :=
  Math_round
    (num_add currentCode (Number (padStart0 16 (ToString (trunc (step imei)))))).

Arguments nextCode : simpl never.
Arguments ToString : simpl never.
Arguments Number : simpl never.

(** The first code of a fresh search and the ceiling of the search space. *)
Definition default_code : number := num_of_Z 1000000000000000.
Definition ceiling : number := num_of_Z 10000000000000000.

(* ===================================================================== *)
(** * 4. Process state: files, device, configuration                      *)
(* ===================================================================== *)

(** The exceptions of [utils/_exceptions.mjs] and those of the platform. *)
Inductive exception : Type :=
| CodeNotFoundException (message : string)
| CommandInvalidException (message : string)
| UnknownOutputException
| ENOENT                      (* [readFileSync] on a missing file *)
| ERR_INVALID_ARG_TYPE        (* [writeFileSync] with data that is no string *)
| ExecError.                  (* a device command that failed *)

(** How a computation ends.  [Killed] is the end of the process by the
    default action of a signal; [OutOfFuel] is a recursion cut short by the
    model, not an outcome of the program. *)
Inductive completion (A : Type) : Type :=
| Return (a : A)
| Throw (e : exception)
| Killed
| OutOfFuel.
Arguments Return {A} a.
Arguments Throw {A} e.
Arguments Killed {A}.
Arguments OutOfFuel {A}.

(** A value handed to [writeFileSync] as data. *)
Inductive js_value : Type :=
| VString (s : string)
| VNumber (x : number).

(** [config.json] *)
Record config : Type := Config {
  imei : number;
  autorebootAfter : option Z;      (* [None]: the key is absent *)
  throwOnUnknownErrors : bool;
  saveStateAfter : option Z
}.

(** The message fragments of [utils/_const.mjs], a file that is not part of
    the sources at hand: they are parameters of the model. *)
Record adb_messages : Type := AdbMessages {
  commandInvalid : string;
  oemUnlockFail : string;
  oemUnlockSuccess : string
}.

(** The device behind [adb] and [fastboot]: an oracle with a state of its
    own.  [oem_unlock] is [execWithString(`adb oem unlock <code>`)], [None]
    when the command fails; [reboot_bootloader] is the pair of commands of
    [rebootDevice], [false] when one of them fails. *)
Record device (D : Type) : Type := Device {
  oem_unlock : D -> number -> option string * D;
  reboot_bootloader : D -> bool * D
}.
Arguments oem_unlock {D} _ _ _.
Arguments reboot_bootloader {D} _ _.

(** What the process does that can be observed from outside. *)
Inductive event : Type :=
| EvReboot
| EvAttempt (code : number)
| EvSaveBootloaderCode (code : number)
| EvSaveLastState (code : number)
| EvRegisterHandlers
| EvSignalHandler.

(** The fields of a [Bruteforce] object. *)
Record Bruteforce : Type := MkBruteforce {
  attempt : Z;
  currentCode : number;
  lastSavedAttempt : Z;
  lastRebootAttempt : Z
}.

(** [new Bruteforce()] *)
Definition new_Bruteforce : Bruteforce :=
  MkBruteforce 0 default_code 0 0.

(** The whole state of the process.  [interrupt = Some n] lets SIGINT or
    SIGTERM arrive while the device command number [n] (from 0) is awaited;
    [commands] counts the device commands that the process has waited for.
    [unhandled] holds the exception of the first promise that was rejected
    with nobody awaiting it. *)
Record machine (D : Type) : Type := Machine {
  this : Bruteforce;
  dev : D;
  files : gmap string string;
  log : list event;
  handlers : bool;
  interrupt : option nat;
  commands : nat;
  unhandled : option exception
}.
Arguments Machine {D} _ _ _ _ _ _ _ _.
Arguments this {D} _.
Arguments dev {D} _.
Arguments files {D} _.
Arguments log {D} _.
Arguments handlers {D} _.
Arguments interrupt {D} _.
Arguments commands {D} _.
Arguments unhandled {D} _.

(** ** The file system calls of Node.js *)

(** [readFileSync(path, "utf-8")] *)
Definition readFileSync (fs : gmap string string) (path : string) : completion string :=
  match fs !! path with
  | Some content => Return content
  | None => Throw ENOENT
  end.

(** [writeFileSync(path, data)].  The module uses top-level [await], so it
    runs on Node.js 14.8 or later; since Node.js 14.0 [writeFileSync] no
    longer converts its data to a string: data that is neither a string nor
    a buffer is refused with [ERR_INVALID_ARG_TYPE] before the file is
    opened. *)
Definition writeFileSync (fs : gmap string string) (path : string) (data : js_value)
  : completion unit * gmap string string :=
  match data with
  | VString s => (Return tt, <[path := s]> fs)
  | VNumber _ => (Throw ERR_INVALID_ARG_TYPE, fs)
  end.

Definition saved_state_file (imei : number) : string :=
  "saved_state_" ++ ToString imei ++ ".txt".

Definition code_file (imei : number) : string :=
  "code_" ++ ToString imei ++ ".txt".

(* ===================================================================== *)
(** * 5. The engine: [class Bruteforce]                                   *)
(* ===================================================================== *)

(** The classification of the text of one attempt, in the order of the
    tests of [attemptCode]. *)
Definition classify (msgs : adb_messages) (strict : bool) (adbOutput : string)
  : completion bool :=
  if includes (commandInvalid msgs) adbOutput then
    Throw (CommandInvalidException "adb does not recognize the unlock command.")
  else if includes (oemUnlockFail msgs) adbOutput then Return false
  else if includes (oemUnlockSuccess msgs) adbOutput then Return true
  else if strict then Throw UnknownOutputException
  else Return false.

(** A JSON number used as a condition: zero is falsy, and so is an absent
    key. *)
Definition truthy (v : option Z) : bool :=
  match v with
  | Some k => negb (k =? 0)
  | None => false
  end.

(** [x ?? d] *)
Definition nullish {A : Type} (x : option A) (d : A) : A :=
  match x with
  | Some a => a
  | None => d
  end.

(** An [async] function that nobody awaits: when it has thrown, its promise
    is rejected with nobody to handle it.  The first such exception is the
    one that the process reports. *)
Definition unawaited {A : Type} (r : completion A) (u : option exception)
  : option exception :=
  match u, r with
  | Some e, _ => Some e
  | None, Throw e => Some e
  | None, _ => None
  end.

Section Engine.
Context {D : Type}.
Variable phone : device D.
Variable cfg : config.
Variable msgs : adb_messages.

(** Computations of the process: a state and completion monad. *)
Definition M (A : Type) : Type := machine D -> completion A * machine D.

Definition ret {A : Type} (a : A) : M A := fun st => (Return a, st).

Definition throw {A : Type} (e : exception) : M A := fun st => (Throw e, st).

Definition bind {A B : Type} (c : M A) (k : A -> M B) : M B :=
  fun st =>
    match c st with
    | (Return a, st') => k a st'
    | (Throw e, st') => (Throw e, st')
    | (Killed, st') => (Killed, st')
    | (OutOfFuel, st') => (OutOfFuel, st')
    end.

Notation "x <- c ;; k" := (bind c (fun x => k))
  (at level 100, c at next level, right associativity).
Notation "c ;;; k" := (bind c (fun _ => k))
  (at level 100, right associativity).

Definition get_this : M Bruteforce := fun st => (Return (this st), st).

Definition set_this (f : Bruteforce -> Bruteforce) : M unit :=
  fun st =>
    (Return tt,
     Machine (f (this st)) (dev st) (files st) (log st) (handlers st)
             (interrupt st) (commands st) (unhandled st)).

Definition emit (e : event) : M unit :=
  fun st =>
    (Return tt,
     Machine (this st) (dev st) (files st) (log st ++ [e]) (handlers st)
             (interrupt st) (commands st) (unhandled st)).

Definition set_currentCode (c : number) (b : Bruteforce) : Bruteforce :=
  MkBruteforce (attempt b) c (lastSavedAttempt b) (lastRebootAttempt b).
Definition set_attempt (n : Z) (b : Bruteforce) : Bruteforce :=
  MkBruteforce n (currentCode b) (lastSavedAttempt b) (lastRebootAttempt b).
Definition set_lastSavedAttempt (n : Z) (b : Bruteforce) : Bruteforce :=
  MkBruteforce (attempt b) (currentCode b) n (lastRebootAttempt b).
Definition set_lastRebootAttempt (n : Z) (b : Bruteforce) : Bruteforce :=
  MkBruteforce (attempt b) (currentCode b) (lastSavedAttempt b) n.

(** [getLastSavedState()]: [null] is [None]. *)
Definition getLastSavedState (fs : gmap string string) : option number :=
  match readFileSync fs (saved_state_file (imei cfg)) with
  | Return content =>
      if String.eqb content "" || num_le (Number (trim content)) (num_of_Z 0)
      then None
      else Some (Number content)
  | _ => None
  end.

(** [saveLastState(code)].  The function is [async] and no caller awaits
    it: the caller goes on with the statements that follow, and an
    exception of [writeFileSync] rejects a promise that nobody handles.
    What becomes of the process then is decided where it next waits, in
    [await_device]. *)
Definition saveLastState (code : number) : M unit :=
  fun st =>
    let '(r, fs) := writeFileSync (files st) (saved_state_file (imei cfg)) (VNumber code) in
    (Return tt,
     Machine (this st) (dev st) fs (log st ++ [EvSaveLastState code])
             (handlers st) (interrupt st) (commands st) (unawaited r (unhandled st))).

(** [saveBootloaderCode(code)], not awaited either. *)
Definition saveBootloaderCode (code : number) : M unit :=
  fun st =>
    let text :=
      "The bootloader code for the device with IMEI " ++ ToString (imei cfg)
      ++ " is: " ++ ToString code in
    let '(r, fs) := writeFileSync (files st) (code_file (imei cfg)) (VString text) in
    (Return tt,
     Machine (this st) (dev st) fs (log st ++ [EvSaveBootloaderCode code])
             (handlers st) (interrupt st) (commands st) (unawaited r (unhandled st))).

(** The listener that [start] registers for SIGINT and SIGTERM. *)
Definition signal_handler : M unit :=
  emit EvSignalHandler ;;;
  b <- get_this ;;
  saveLastState (currentCode b).

(** Awaiting a device command.  The command is started, and the process is
    suspended until it is done.

    This is where the process comes back to its event loop, and so where an
    unhandled rejection takes effect: Node.js 15 and later (the default
    [--unhandled-rejections=throw]) raise it as an uncaught exception, which
    ends the process before it has waited for the command.  (Node.js 14
    only printed a warning; the model follows the later versions.)

    It is also where a signal is taken.  With a listener registered the
    listener runs and the process goes on; without one the default action
    of the signal ends the process. *)
Definition await_device {A : Type} (cmd : D -> A * D) : M A :=
  fun st =>
    let '(a, d) := cmd (dev st) in
    match unhandled st with
    | Some e =>
        (Throw e,
         Machine (this st) d (files st) (log st) (handlers st) (interrupt st)
                 (commands st) (unhandled st))
    | None =>
        let st1 :=
          Machine (this st) d (files st) (log st) (handlers st) (interrupt st)
                  (S (commands st)) None in
        if decide (interrupt st = Some (commands st)) then
          if handlers st then (signal_handler ;;; ret a) st1
          else (Killed, st1)
        else (Return a, st1)
    end.

(** [rebootDevice()] *)
Definition rebootDevice : M unit :=
  emit EvReboot ;;;
  ok <- await_device (reboot_bootloader phone) ;;
  if ok : bool then ret tt else throw ExecError.

(** [attemptCode(code)] *)
Definition attemptCode (code : number) : M bool :=
  emit (EvAttempt code) ;;;
  out <- await_device (fun d => oem_unlock phone d code) ;;
  match out with
  | None => throw ExecError
  | Some text =>
      let adbOutput := trim (toLowerCase text) in
      fun st => (classify msgs (throwOnUnknownErrors cfg) adbOutput, st)
  end.

(** [bruteforce()].  The recursion of the source has no bound; [fuel]
    bounds its depth here. *)
Fixpoint bruteforce (fuel : nat) : M number :=
  match fuel with
  | O => fun st => (OutOfFuel, st)
  | S fuel' =>
      b <- get_this ;;
      result <- attemptCode (currentCode b) ;;
      if result : bool then
        saveBootloaderCode (currentCode b) ;;;
        ret (currentCode b)
      else
        (if truthy (autorebootAfter cfg) then
           b1 <- get_this ;;
           if attempt b1 - lastRebootAttempt b1 >=? nullish (autorebootAfter cfg) 0 - 1
           then set_this (set_lastRebootAttempt (attempt b1)) ;;; rebootDevice
           else ret tt
         else ret tt) ;;;
        (if truthy (saveStateAfter cfg) then
           b2 <- get_this ;;
           if attempt b2 - lastSavedAttempt b2 >=? nullish (saveStateAfter cfg) 0 - 1
           then set_this (set_lastSavedAttempt (attempt b2)) ;;;
                saveLastState (currentCode b2)
           else ret tt
         else ret tt) ;;;
        set_this (fun b3 => set_currentCode (nextCode (imei cfg) (currentCode b3)) b3) ;;;
        b4 <- get_this ;;
        if num_ge (currentCode b4) ceiling
        then throw (CodeNotFoundException "No combination found")
        else bruteforce fuel'
  end.

Definition register_handlers : M unit :=
  fun st =>
    (Return tt,
     Machine (this st) (dev st) (files st) (log st ++ [EvRegisterHandlers]) true
             (interrupt st) (commands st) (unhandled st)).

(** [start()] *)
Definition start (fuel : nat) : M unit :=
  set_this (set_attempt 0) ;;;
  st0 <- (fun st => (Return st, st)) ;;
  set_this (set_currentCode (nullish (getLastSavedState (files st0)) default_code)) ;;;
  rebootDevice ;;;
  set_this (fun b => set_currentCode (nextCode (imei cfg) (currentCode b)) b) ;;;
  bruteforce fuel ;;;
  register_handlers.

(** The process as [run()] finds it: a fresh object, no listener, no
    rejected promise. *)
Definition boot (d : D) (fs : gmap string string) (sig : option nat) : machine D :=
  Machine new_Bruteforce d fs [] false sig 0%nat None.

(** The codes submitted to the device, in order. *)
Definition attempts (l : list event) : list number :=
  omap (fun e => match e with EvAttempt c => Some c | _ => None end) l.

(** The number of calls of [saveLastState]. *)
Definition saves (l : list event) : nat :=
  List.length (List.filter (fun e => match e with EvSaveLastState _ => true | _ => false end) l).

Definition reboots (l : list event) : nat :=
  List.length (List.filter (fun e => match e with EvReboot => true | _ => false end) l).
End Engine.

(* ===================================================================== *)
(** * 6. Notions used in the statements                                   *)
(* ===================================================================== *)

(** [p] occurs in [s]. *)
Definition occurs (p s : string) : Prop :=
  exists pre post : string, s = pre ++ p ++ post.

(** A well-formed binary64 datum: a normal or subnormal mantissa and an
    exponent in range. *)
Definition wf (x : number) : Prop := valid_binary prec emax x = true.

(** The same on the mantissa and the exponent. *)
Definition canonical (m : positive) (e : Z) : Prop :=
  Z.max (Z.log2 (Z.pos m) + e - 52) (-1074) = e /\ e <= 971.

(** The magnitude of a finite datum, in units of [2^-1074]. *)
Definition units (m : positive) (e : Z) : Z := Z.pos m * 2 ^ (e + 1074).

(** A number without fractional part. *)
Definition is_integer (x : number) : bool :=
  match x with
  | S754_zero _ => true
  | S754_finite _ m e => (0 <=? e) || (Z.pos m mod 2 ^ (- e) =? 0)
  | _ => false
  end.

(** The text of a non-negative integer: decimal digits, at least one. *)
Fixpoint all_digits (s : string) : bool :=
  match s with
  | EmptyString => true
  | String c s' => is_digit c && all_digits s'
  end.


(** The value of a run of digits that continues [acc]. *)
Fixpoint digits_val (s : string) (acc : Z) : Z :=
  match s with
  | EmptyString => acc
  | String c s' => digits_val s' (10 * acc + digit_val c)
  end.

(** A character of the text of a number. *)
Definition is_numchar (c : ascii) : bool :=
  is_digit c || Ascii.eqb c "." || Ascii.eqb c "e" || Ascii.eqb c "+" || Ascii.eqb c "-".

Fixpoint all_num (s : string) : bool :=
  match s with
  | EmptyString => true
  | String c s' => is_numchar c && all_num s'
  end.

(** The rest of the text does not go on with a digit. *)
Definition stops (s : string) : Prop :=
  match s with
  | EmptyString => True
  | String c _ => is_digit c = false
  end.

(** The text starts with a digit. *)
Definition head_digit (t : string) : bool :=
  match t with
  | String c _ => is_digit c
  | EmptyString => false
  end.

(** The result of rounding, from the rounded mantissa and the exponent. *)
Definition finish (s : bool) (m1 e : Z) : number :=
  if m1 =? 2 ^ 53 then
    if 971 <? e + 1 then S754_infinity s
    else S754_finite s (Z.to_pos (2 ^ 52)) (e + 1)
  else if m1 <=? 0 then S754_zero s
  else if 971 <? e then S754_infinity s
  else S754_finite s (Z.to_pos m1) e.

(** A datum that is not negative. *)
Definition nonneg_or_nan (x : number) : Prop :=
  match x with
  | S754_nan | S754_zero _ | S754_infinity false | S754_finite false _ _ => True
  | _ => False
  end.

(** A computation only appends to the log. *)
Definition log_grows {D A : Type} (c : M A) : Prop :=
  forall st : machine D, exists l, log (snd (c st)) = (log st ++ l)%list.

(** A computation keeps the invariant [I], in whatever way it ends. *)
Definition keeps {D A : Type} (I : machine D -> Prop) (c : M A) : Prop :=
  forall st : machine D, I st -> I (snd (c st)).

(** No listener is registered and none has run. *)
Definition no_listener {D : Type} (st : machine D) : Prop :=
  handlers st = false /\ ~ In EvSignalHandler (log st).

(** The bookkeeping of the periodic checkpoint: [saveLastState] has been
    called [n] times and the counters [attempt] and [lastSavedAttempt] hold
    [a] and agree. *)
Definition checkpoint_idle {D : Type} (n : nat) (a : Z) (st : machine D) : Prop :=
  handlers st = false
  /\ saves (log st) = n
  /\ attempt (this st) = a
  /\ lastSavedAttempt (this st) = a.

(** Sample message fragments and sample devices for the concrete runs. *)
Definition sample_messages : adb_messages :=
  AdbMessages "unknown command" "check password failed" "okay".

Definition rejecting_device : device unit :=
  Device unit
    (fun d _ => (Some "FAILED (remote: Check Password Failed)", d))
    (fun d => (true, d)).

(** A sample configuration: a fifteen-digit identifier, no periodic reboot,
    permissive classification, and the given checkpoint interval. *)
Definition sample_imei : number := num_of_Z 861234567890123.

Definition sample_config (interval : option Z) : config :=
  Config sample_imei None false interval.

(** A file system that holds a checkpoint for the sample identifier. *)
Definition checkpoint_of (content : string) : gmap string string :=
  {[ saved_state_file sample_imei := content ]}.

(** ** Notions for whole runs of the search *)

(** How a computation has ended, without the value it returned. *)
Definition outcome {A : Type} (r : completion A) : completion unit :=
  match r with
  | Return _ => Return tt
  | Throw e => Throw e
  | Killed => Killed
  | OutOfFuel => OutOfFuel
  end.

(** [wp c N E st]: run from [st], the computation [c] ends in a state with
    [N a] when it returns [a], and in a state with [E r] when it ends in
    the other way [r]. *)
Definition wp {D A : Type} (c : @M D A) (N : A -> machine D -> Prop)
    (E : completion unit -> machine D -> Prop) (st : machine D) : Prop :=
  match c st with
  | (Return a, st') => N a st'
  | (r, st') => E (outcome r) st'
  end.

(** The test of [bruteforce] that lets the search go on. *)
Definition below_ceiling (c : number) : Prop := num_ge c ceiling = false.

(** The test of a periodic action, [attempt - last >= k - 1] under the guard
    [if (k)], when the two counters agree. *)
Definition due (k : option Z) : bool := truthy k && (0 >=? nullish k 0 - 1).

Definition times (b : bool) (n : nat) : nat := if b then n else 0%nat.

(** The sentence that [saveBootloaderCode] writes. *)
Definition code_text (cfg : config) (code : number) : string :=
  "The bootloader code for the device with IMEI " ++ ToString (imei cfg)
  ++ " is: " ++ ToString code.

(** What holds at every point of a run of the search: the listener flag,
    the pending signal, the files, the three counters, and that every code
    submitted after the first one is below the ceiling. *)
Record search_at {D : Type} (sig : option nat) (reg : bool) (fs : gmap string string)
    (st : machine D) : Prop := SearchAt {
  a_handlers : handlers st = reg;
  a_interrupt : interrupt st = sig;
  a_files : files st = fs;
  a_attempt : attempt (this st) = 0;
  a_saved : lastSavedAttempt (this st) = 0;
  a_rebooted : lastRebootAttempt (this st) = 0;
  a_below : Forall below_ceiling (tail (attempts (log st)))
}.

(** The signal, if one is to come, has not come yet. *)
Definition in_time {D : Type} (sig : option nat) (st : machine D) : Prop :=
  forall n, sig = Some n -> (commands st <= n)%nat.

(** The periodic actions that the log shows after [na] rejected attempts. *)
Definition tally {D : Type} (cfg : config) (na : nat) (st : machine D) : Prop :=
  saves (log st) = times (due (saveStateAfter cfg)) na
  /\ reboots (log st) = S (times (due (autorebootAfter cfg)) na).

(** The rejected promise that [n] calls of [saveLastState] leave. *)
Definition rejection_after (n : nat) : option exception :=
  match n with
  | O => None
  | S _ => Some ERR_INVALID_ARG_TYPE
  end.

(** Where [bruteforce] is entered. *)
Definition search_head {D : Type} (cfg : config) (fs0 : gmap string string)
    (sig : option nat) (st : machine D) : Prop :=
  search_at sig false fs0 st
  /\ in_time sig st
  /\ tally cfg (List.length (attempts (log st))) st
  /\ (attempts (log st) <> [] -> below_ceiling (currentCode (this st)))
  /\ (saves (log st) <= 1)%nat
  /\ unhandled st = rejection_after (saves (log st)).

(** Where the search has found the code [c]. *)
Definition search_found {D : Type} (cfg : config) (fs0 : gmap string string)
    (sig : option nat) (reg : bool) (c : number) (st : machine D) : Prop :=
  search_at sig reg (<[code_file (imei cfg) := code_text cfg c]> fs0) st
  /\ in_time sig st
  /\ tally cfg (List.length (attempts (log st)) - 1) st
  /\ currentCode (this st) = c
  /\ last (attempts (log st)) = Some c
  /\ saves (log st) = 0%nat
  /\ unhandled st = None.

(** Where the search has ended in any other way. *)
Definition search_ended {D : Type} (cfg : config) (fs0 : gmap string string)
    (sig : option nat) (r : completion unit) (st : machine D) : Prop :=
  search_at sig false fs0 st
  /\ (r = Killed \/ in_time sig st)
  /\ (times (due (saveStateAfter cfg)) (List.length (attempts (log st)) - 1)
      <= saves (log st)
      <= times (due (saveStateAfter cfg)) (List.length (attempts (log st))))%nat
  /\ (S (times (due (autorebootAfter cfg)) (List.length (attempts (log st)) - 1))
      <= reboots (log st)
      <= S (times (due (autorebootAfter cfg)) (List.length (attempts (log st)))))%nat
  /\ (forall m, r = Throw (CodeNotFoundException m) ->
        m = "No combination found"
        /\ num_ge (currentCode (this st)) ceiling = true
        /\ tally cfg (List.length (attempts (log st))) st)
  /\ ((r = Throw ERR_INVALID_ARG_TYPE
       /\ saves (log st) = 1%nat /\ List.length (attempts (log st)) = 2%nat)
      \/ (r <> Throw ERR_INVALID_ARG_TYPE
          /\ (saves (log st) <= 1)%nat
          /\ (due (saveStateAfter cfg) = true ->
              (List.length (attempts (log st)) <= 1)%nat))).

(** A device that accepts the third code it is given. *)
Definition patient_device : device nat :=
  Device nat
    (fun d _ => (Some (if (d <? 2)%nat then "FAILED (remote: Check Password Failed)"
                       else "OKAY [  0.010s]"), S d))
    (fun d => (true, d)).

(** The sample configuration with a periodic reboot instead of a periodic
    checkpoint. *)
Definition reboot_config (interval : option Z) : config :=
  Config sample_imei interval false None.

(** The code units that [toLowerCase] changes. *)
Definition is_upper (c : ascii) : bool :=
  let n := code_unit c in
  ((65 <=? n) && (n <=? 90)) || ((192 <=? n) && (n <=? 222) && negb (n =? 215)).

Fixpoint has_upper (s : string) : bool :=
  match s with
  | EmptyString => false
  | String c s' => is_upper c || has_upper s'
  end.

(** Text that is white space only. *)
Fixpoint all_ws (s : string) : bool :=
  match s with
  | EmptyString => true
  | String c s' => is_ws c && all_ws s'
  end.

(** A device whose answer to every code is classified as a rejection, and
    one whose reboot commands always succeed. *)
Definition rejects_all {D : Type} (phone : device D) (cfg : config) (msgs : adb_messages)
  : Prop :=
  forall (d : D) (c : number),
    exists text,
      fst (oem_unlock phone d c) = Some text
      /\ classify msgs (throwOnUnknownErrors cfg) (trim (toLowerCase text)) = Return false.

Definition reboots_well {D : Type} (phone : device D) : Prop :=
  forall d : D, fst (reboot_bootloader phone d) = true.

(* ===================================================================== *)
(** * 7. The response classifier                                          *)
(* ===================================================================== *)

Lemma startsWith_spec (p s : string) :
  startsWith p s = true <-> exists post, s = p ++ post.
Proof.
  revert s; induction p as [|a p IH]; intros s; simpl.
  - split; [intros _; exists s; reflexivity | reflexivity].
  - destruct s as [|b s]; simpl.
    + split; [discriminate | intros [post H]; discriminate].
    + rewrite andb_true_iff, Ascii.eqb_eq, IH. split.
      * intros [-> [post ->]]. exists post. reflexivity.
      * intros [post H]. injection H as -> ->. split; [reflexivity | eauto].
Qed.

Lemma includes_spec (p s : string) :
  includes p s = true <-> occurs p s.
Proof.
  unfold occurs. induction s as [|c s IH].
  - simpl. rewrite orb_false_r, startsWith_spec. split.
    + intros [post H]. exists "", post. exact H.
    + intros [pre [post H]]. destruct pre; simpl in H.
      * exists post. exact H.
      * discriminate.
  - simpl. rewrite orb_true_iff, startsWith_spec, IH. split.
    + intros [[post H] | [pre [post H]]].
      * exists "", post. exact H.
      * exists (String c pre), post. simpl. rewrite H. reflexivity.
    + intros [pre [post H]]. destruct pre as [|c' pre]; simpl in H.
      * left. exists post. exact H.
      * right. injection H as _ H. exists pre, post. exact H.
Qed.



(** [attemptCode] classifies the lower-cased, trimmed text that the device
    command printed, when no signal comes and no rejected promise is
    pending. *)
Lemma attemptCode_classifies {D : Type} (phone : device D) (cfg : config)
    (msgs : adb_messages) (code : number) (st : machine D) (text : string) (d : D) :
  oem_unlock phone (dev st) code = (Some text, d) ->
  interrupt st = None -> unhandled st = None ->
  fst (attemptCode phone cfg msgs code st)
  = classify msgs (throwOnUnknownErrors cfg) (trim (toLowerCase text)).
Proof.
  intros Hdev Hsig Hun. unfold attemptCode, bind, emit, await_device. simpl.
  rewrite Hdev, Hsig, Hun. simpl. reflexivity.
Qed.

(* ===================================================================== *)
(** * 8. The engine                                                       *)
(* ===================================================================== *)

Section EngineFacts.
Local Open Scope list_scope.
Context {D : Type}.
Variable phone : device D.
Variable cfg : config.
Variable msgs : adb_messages.


(** ** Invariants through [bind] *)

Lemma keeps_bind {A B : Type} (I : machine D -> Prop) (c : @M D A) (k : A -> @M D B) :
  keeps I c -> (forall a, keeps I (k a)) -> keeps I (bind c k).
Proof.
  intros Hc Hk st HI. unfold bind. specialize (Hc st HI).
  destruct (c st) as [[a| | |] st']; simpl in *; try assumption.
  apply Hk. assumption.
Qed.

Lemma keeps_ret {A : Type} (I : machine D -> Prop) (a : A) : keeps I (ret a).
Proof. intros st HI. exact HI. Qed.

Lemma keeps_throw {A : Type} (I : machine D -> Prop) (e : exception) :
  keeps I (throw (A := A) e).
Proof. intros st HI. exact HI. Qed.

Lemma keeps_if {A : Type} (I : machine D -> Prop) (b : bool) (c1 c2 : @M D A) :
  keeps I c1 -> keeps I c2 -> keeps I (if b then c1 else c2).
Proof. destruct b; auto. Qed.

(** ** The log only grows *)

















Lemma bruteforce_S (fuel : nat) :
  bruteforce phone cfg msgs (S fuel)
  = bind get_this (fun b =>
    bind (attemptCode phone cfg msgs (currentCode b)) (fun result =>
    if result : bool then
      bind (saveBootloaderCode cfg (currentCode b)) (fun _ => ret (currentCode b))
    else
      bind (if truthy (autorebootAfter cfg) then
              bind get_this (fun b1 =>
              if attempt b1 - lastRebootAttempt b1 >=? nullish (autorebootAfter cfg) 0 - 1
              then bind (set_this (set_lastRebootAttempt (attempt b1)))
                        (fun _ => rebootDevice phone cfg)
              else ret tt)
            else ret tt) (fun _ =>
      bind (if truthy (saveStateAfter cfg) then
              bind get_this (fun b2 =>
              if attempt b2 - lastSavedAttempt b2 >=? nullish (saveStateAfter cfg) 0 - 1
              then bind (set_this (set_lastSavedAttempt (attempt b2)))
                        (fun _ => saveLastState cfg (currentCode b2))
              else ret tt)
            else ret tt) (fun _ =>
      bind (set_this (fun b3 => set_currentCode (nextCode (imei cfg) (currentCode b3)) b3))
           (fun _ =>
      bind get_this (fun b4 =>
      if num_ge (currentCode b4) ceiling
      then throw (CodeNotFoundException "No combination found")
      else bruteforce phone cfg msgs fuel)))))).
Proof. reflexivity. Qed.


Lemma grows_register_handlers : log_grows (register_handlers (D := D)).
Proof. intros st. exists [EvRegisterHandlers]. reflexivity. Qed.


(** ** The codes submitted to the device *)

Lemma attempts_app (l1 l2 : list event) :
  attempts (l1 ++ l2) = attempts l1 ++ attempts l2.
Proof. unfold attempts. apply omap_app. Qed.

Lemma saves_app (l1 l2 : list event) : saves (l1 ++ l2) = (saves l1 + saves l2)%nat.
Proof. unfold saves. rewrite List.filter_app, length_app. reflexivity. Qed.


(** ** The checkpoint writer *)

(** C9.  [saveLastState] hands the number itself to [writeFileSync], which
    refuses it: the checkpoint file keeps whatever it held, for every
    identity and every code. *)
Theorem saveLastState_leaves_file (code : number) (st : machine D) :
  writeFileSync (files st) (saved_state_file (imei cfg)) (VNumber code)
  = (Throw ERR_INVALID_ARG_TYPE, files st)
  /\ files (snd (saveLastState cfg code st)) = files st.
Proof. split; reflexivity. Qed.

(** The sibling [saveBootloaderCode] passes a string and its file is
    written. *)
Lemma saveBootloaderCode_writes (code : number) (st : machine D) :
  files (snd (saveBootloaderCode cfg code st)) !! code_file (imei cfg)
  = Some ("The bootloader code for the device with IMEI " ++ ToString (imei cfg)
          ++ " is: " ++ ToString code)%string.
Proof. unfold saveBootloaderCode. simpl. apply lookup_insert_eq. Qed.

(** ** Invariants of the search *)

Lemma keeps_get_this {A : Type} (I : machine D -> Prop) (k : Bruteforce -> @M D A) :
  (forall st, I st -> I (snd (k (this st) st))) -> keeps I (bind get_this k).
Proof. intros H st HI. unfold bind, get_this. apply H. exact HI. Qed.

Lemma keeps_await_no_listener {A : Type} (I : machine D -> Prop) (cmd : D -> A * D) :
  (forall st, I st -> handlers st = false) ->
  (forall st d n, I st ->
     I (Machine (this st) d (files st) (log st) (handlers st) (interrupt st) n
                (unhandled st))) ->
  keeps I (await_device cfg cmd).
Proof.
  intros Hh Hd st HI. unfold await_device. destruct (cmd (dev st)) as [a d].
  destruct (unhandled st) as [e|] eqn:Hu; simpl.
  - specialize (Hd st d (commands st) HI). rewrite Hu in Hd. exact Hd.
  - rewrite (Hh st HI). specialize (Hd st d (S (commands st)) HI).
    rewrite (Hh st HI), Hu in Hd. destruct (decide _); exact Hd.
Qed.

(** Throughout the search no listener for SIGINT or SIGTERM is registered,
    so none can run. *)
Lemma no_listener_emit (e : event) :
  e <> EvSignalHandler -> keeps no_listener (emit (D := D) e).
Proof.
  intros He st [Hh Hl]. split; [exact Hh|]. simpl. rewrite in_app_iff.
  intros [H | [H | []]]; [apply Hl; exact H | apply He; exact H].
Qed.

Lemma no_listener_await {A : Type} (cmd : D -> A * D) :
  keeps no_listener (await_device cfg cmd).
Proof.
  apply keeps_await_no_listener.
  - intros st [Hh _]. exact Hh.
  - intros st d n [Hh Hl]. split; assumption.
Qed.

Lemma no_listener_set_this (f : Bruteforce -> Bruteforce) :
  keeps no_listener (set_this (D := D) f).
Proof. intros st H. exact H. Qed.

Lemma no_listener_rebootDevice : keeps no_listener (rebootDevice phone cfg).
Proof.
  unfold rebootDevice.
  apply keeps_bind; [apply no_listener_emit; discriminate | intros _].
  apply keeps_bind; [apply no_listener_await | intros ok].
  destruct ok; [apply keeps_ret | apply keeps_throw].
Qed.

Lemma no_listener_attemptCode (code : number) :
  keeps no_listener (attemptCode phone cfg msgs code).
Proof.
  unfold attemptCode.
  apply keeps_bind; [apply no_listener_emit; discriminate | intros _].
  apply keeps_bind; [apply no_listener_await | intros out].
  destruct out; [intros st H; exact H | apply keeps_throw].
Qed.

Lemma no_listener_saveLastState (code : number) :
  keeps no_listener (saveLastState (D := D) cfg code).
Proof.
  intros st [Hh Hl]. unfold saveLastState, no_listener.
  cbn [writeFileSync snd handlers log]. split; [exact Hh|].
  rewrite in_app_iff. intros [H | [H | []]]; [apply Hl; exact H | discriminate].
Qed.

Lemma no_listener_saveBootloaderCode (code : number) :
  keeps no_listener (saveBootloaderCode (D := D) cfg code).
Proof.
  intros st [Hh Hl]. unfold saveBootloaderCode, no_listener.
  cbn [writeFileSync snd handlers log]. split; [exact Hh|].
  rewrite in_app_iff. intros [H | [H | []]]; [apply Hl; exact H | discriminate].
Qed.

Lemma no_listener_bruteforce (fuel : nat) :
  keeps no_listener (bruteforce phone cfg msgs fuel).
Proof.
  induction fuel as [|fuel IH]; [intros st H; exact H | rewrite bruteforce_S].
  apply keeps_bind; [intros st H; exact H | intros b].
  apply keeps_bind; [apply no_listener_attemptCode | intros result].
  destruct result.
  - apply keeps_bind; [apply no_listener_saveBootloaderCode | intros _; apply keeps_ret].
  - apply keeps_bind.
    { apply keeps_if; [|apply keeps_ret].
      apply keeps_bind; [intros st H; exact H | intros b1].
      apply keeps_if; [|apply keeps_ret].
      apply keeps_bind; [apply no_listener_set_this | intros _].
      apply no_listener_rebootDevice. }
    intros _. apply keeps_bind.
    { apply keeps_if; [|apply keeps_ret].
      apply keeps_bind; [intros st H; exact H | intros b2].
      apply keeps_if; [|apply keeps_ret].
      apply keeps_bind; [apply no_listener_set_this | intros _].
      apply no_listener_saveLastState. }
    intros _. apply keeps_bind; [apply no_listener_set_this | intros _].
    apply keeps_bind; [intros st H; exact H | intros b4].
    apply keeps_if; [apply keeps_throw | apply IH].
Qed.

(** The listener never runs in a run of [start], whenever the signal
    comes. *)
Lemma quiet_bind {A B : Type} (c : @M D A) (k : A -> @M D B) :
  keeps no_listener c ->
  (forall a st, no_listener st -> ~ In EvSignalHandler (log (snd (k a st)))) ->
  forall st, no_listener st -> ~ In EvSignalHandler (log (snd (bind c k st))).
Proof.
  intros Hc Hk st Hst. unfold bind. specialize (Hc st Hst).
  destruct (c st) as [[a| | |] st']; simpl in *;
    try (destruct Hc as [_ Hc]; exact Hc).
  apply Hk. exact Hc.
Qed.

(** The listener never runs in a run of [start], whenever the signal
    comes. *)
Lemma start_never_runs_listener (fuel : nat) (d : D) (fs : gmap string string)
    (sig : option nat) :
  ~ In EvSignalHandler (log (snd (start phone cfg msgs fuel (boot d fs sig)))).
Proof.
  assert (H : forall st : machine D, no_listener st ->
              ~ In EvSignalHandler (log (snd (start phone cfg msgs fuel st)))).
  { unfold start.
    apply quiet_bind; [apply no_listener_set_this | intros _].
    apply quiet_bind; [intros s Hs; exact Hs | intros st0].
    apply quiet_bind; [apply no_listener_set_this | intros _].
    apply quiet_bind; [apply no_listener_rebootDevice | intros _].
    apply quiet_bind; [apply no_listener_set_this | intros _].
    apply quiet_bind; [apply no_listener_bruteforce | intros _ st' [Hh Hl]].
    unfold register_handlers. simpl. rewrite in_app_iff.
    intros [H | [H | []]]; [apply Hl; exact H | discriminate]. }
  apply H. split; [reflexivity | intros []].
Qed.

(** ** The periodic checkpoint *)

Lemma idle_emit (n : nat) (a : Z) (e : event) :
  (forall c, e <> EvSaveLastState c) -> keeps (checkpoint_idle n a) (emit (D := D) e).
Proof.
  intros He st (Hh & Hs & Ha & Hl). repeat split; try assumption.
  simpl. rewrite saves_app, Hs. destruct e; try (cbn; lia).
  exfalso. eapply He. reflexivity.
Qed.

Lemma idle_await {A : Type} (n : nat) (a : Z) (cmd : D -> A * D) :
  keeps (checkpoint_idle n a) (await_device cfg cmd).
Proof.
  apply keeps_await_no_listener.
  - intros st (Hh & _). exact Hh.
  - intros st d c H. exact H.
Qed.

Lemma idle_set_this (n : nat) (a : Z) (f : Bruteforce -> Bruteforce) :
  (forall b, attempt (f b) = attempt b) ->
  (forall b, lastSavedAttempt (f b) = lastSavedAttempt b) ->
  keeps (checkpoint_idle n a) (set_this (D := D) f).
Proof.
  intros H1 H2 st (Hh & Hs & Ha & Hl). repeat split; try assumption; simpl.
  - rewrite H1. exact Ha.
  - rewrite H2. exact Hl.
Qed.

Lemma idle_rebootDevice (n : nat) (a : Z) :
  keeps (checkpoint_idle n a) (rebootDevice phone cfg).
Proof.
  unfold rebootDevice.
  apply keeps_bind; [apply idle_emit; discriminate | intros _].
  apply keeps_bind; [apply idle_await | intros ok].
  destruct ok; [apply keeps_ret | apply keeps_throw].
Qed.

Lemma idle_attemptCode (n : nat) (a : Z) (code : number) :
  keeps (checkpoint_idle n a) (attemptCode phone cfg msgs code).
Proof.
  unfold attemptCode.
  apply keeps_bind; [apply idle_emit; discriminate | intros _].
  apply keeps_bind; [apply idle_await | intros out].
  destruct out; [intros st H; exact H | apply keeps_throw].
Qed.

Lemma idle_saveBootloaderCode (n : nat) (a : Z) (code : number) :
  keeps (checkpoint_idle n a) (saveBootloaderCode (D := D) cfg code).
Proof.
  intros st (Hh & Hs & Ha & Hl). unfold saveBootloaderCode, checkpoint_idle.
  cbn [writeFileSync snd handlers log this]. repeat split; try assumption.
  rewrite saves_app, Hs. cbn. lia.
Qed.

(** The counter [attempt] is never incremented.  With an interval of two
    or more the test [attempt - lastSavedAttempt >= saveStateAfter - 1]
    therefore never holds: whatever the device answers and however long
    the search runs, [saveLastState] is not called and [attempt] keeps its
    value. *)
Lemma checkpoint_never_due (k : Z) (n : nat) (a : Z) (fuel : nat) :
  saveStateAfter cfg = Some k ->
  2 <= k ->
  keeps (checkpoint_idle n a) (bruteforce phone cfg msgs fuel).
Proof.
  intros Hk Hk2.
  induction fuel as [|fuel IH]; [intros st H; exact H | rewrite bruteforce_S].
  apply keeps_bind; [intros st H; exact H | intros b].
  apply keeps_bind; [apply idle_attemptCode | intros result].
  destruct result.
  - apply keeps_bind; [apply idle_saveBootloaderCode | intros _; apply keeps_ret].
  - apply keeps_bind.
    { apply keeps_if; [|apply keeps_ret].
      apply keeps_bind; [intros st H; exact H | intros b1].
      apply keeps_if; [|apply keeps_ret].
      apply keeps_bind; [apply idle_set_this; reflexivity | intros _].
      apply idle_rebootDevice. }
    intros _. apply keeps_bind.
    { apply keeps_if; [|apply keeps_ret].
      apply keeps_get_this. intros st (Hh & Hs & Ha & Hl).
      rewrite Hk, Ha, Hl. cbn [nullish].
      replace (a - a >=? k - 1) with false by lia.
      repeat split; assumption. }
    intros _. apply keeps_bind; [apply idle_set_this; reflexivity | intros _].
    apply keeps_bind; [intros st H; exact H | intros b4].
    apply keeps_if; [apply keeps_throw | apply IH].
Qed.
End EngineFacts.

(** ** Runs of the engine on concrete inputs *)

(** C1.  SIGINT arrives while the second attempt is awaited (device command
    number 2, after the reboot and the first attempt).  No listener is
    registered at that time, since [start] registers it only after
    [bruteforce] has returned: the process is killed, the listener does not
    run, [saveLastState] is not called, and the checkpoint file still holds
    the old code instead of the current candidate 9999960102242828. *)
Theorem signal_during_search_is_not_handled :
  let r := start rejecting_device (sample_config None) sample_messages 20
                 (boot tt (checkpoint_of "9999900000000000") (Some 2%nat)) in
  fst r = Killed
  /\ handlers (snd r) = false
  /\ log (snd r) = [EvReboot; EvAttempt (num_of_Z 9999930051121414);
                    EvAttempt (num_of_Z 9999960102242828)]
  /\ currentCode (this (snd r)) = num_of_Z 9999960102242828
  /\ files (snd r) !! saved_state_file sample_imei = Some "9999900000000000".
Proof. vm_compute. repeat split. Qed.

(** C2.  Checkpoint interval 2, a device that rejects every code: four
    attempts are rejected before the space is exhausted, yet [saveLastState]
    is never called and the counter [attempt] is still 0. *)
Theorem interval_two_never_checkpoints :
  let r := start rejecting_device (sample_config (Some 2)) sample_messages 20
                 (boot tt (checkpoint_of "9999870000000000") None) in
  fst r = Throw (CodeNotFoundException "No combination found")
  /\ List.length (attempts (log (snd r))) = 4%nat
  /\ saves (log (snd r)) = 0%nat
  /\ attempt (this (snd r)) = 0.
Proof. vm_compute. repeat split. Qed.

(** With interval 1 the test holds at the first rejected attempt:
    [saveLastState] is called, its promise is rejected, and the process
    ends with the uncaught exception while the second attempt is awaited. *)
Lemma interval_one_ends_at_second_attempt :
  let r := start rejecting_device (sample_config (Some 1)) sample_messages 20
                 (boot tt (checkpoint_of "9999870000000000") None) in
  fst r = Throw ERR_INVALID_ARG_TYPE
  /\ List.length (attempts (log (snd r))) = 2%nat /\ saves (log (snd r)) = 1%nat.
Proof. vm_compute. repeat split. Qed.

(** C3.  The checkpoint holds 9999999999999000 and the identifier is 1, so
    the step is 1024.  The first candidate, 10000000000000024, is above the
    ceiling; [start] does not compare it with the ceiling and it is
    submitted to the device.  Only the candidate generated after it, inside
    [bruteforce], raises [CodeNotFoundException]. *)
Theorem start_submits_code_above_ceiling :
  let cfg := Config (num_of_Z 1) None false None in
  let fs : gmap string string := {[ saved_state_file (num_of_Z 1) := "9999999999999000" ]} in
  let r := start rejecting_device cfg sample_messages 20 (boot tt fs None) in
  attempts (log (snd r)) = [num_of_Z 10000000000000024]
  /\ num_ge (num_of_Z 10000000000000024) ceiling = true
  /\ fst r = Throw (CodeNotFoundException "No combination found").
Proof. vm_compute. repeat split. Qed.

(* ===================================================================== *)
(** * 9. Rounding to binary64                                             *)
(* ===================================================================== *)

Lemma rdiv_even_ge (n d k : Z) : 0 < d -> k * d <= n -> k <= rdiv_even n d.
Proof.
  intros Hd H. unfold rdiv_even.
  assert (k <= n / d) by (apply Z.div_le_lower_bound; lia).
  destruct (2 * (n mod d) ?= d); [destruct (Z.even (n / d))| |]; lia.
Qed.

Lemma rdiv_even_le (n d k : Z) : 0 < d -> n <= k * d -> rdiv_even n d <= k.
Proof.
  intros Hd H. unfold rdiv_even.
  pose proof (Z.div_mod n d ltac:(lia)) as E.
  pose proof (Z.mod_pos_bound n d Hd) as B.
  assert (Hq : n / d <= k) by (apply Z.div_le_upper_bound; lia).
  destruct (Z.eq_dec (n mod d) 0) as [R|R].
  - rewrite R. replace (2 * 0 ?= d) with Lt by (symmetry; apply Z.compare_lt_iff; lia). exact Hq.
  - assert (n / d < k) by nia.
    destruct (2 * (n mod d) ?= d); [destruct (Z.even (n / d))| |]; lia.
Qed.

Lemma rdiv_even_exact (k d : Z) : 0 < d -> rdiv_even (k * d) d = k.
Proof.
  intros Hd. apply Z.le_antisymm.
  - apply rdiv_even_le; lia.
  - apply rdiv_even_ge; lia.
Qed.

Lemma digits2_log2 (m : positive) : Z.pos (digits2_pos m) = Z.log2 (Z.pos m) + 1.
Proof.
  induction m as [m IH|m IH|]; simpl; try reflexivity.
  - rewrite Pos2Z.inj_succ, IH. destruct m; simpl; try reflexivity; lia.
  - rewrite Pos2Z.inj_succ, IH. destruct m; simpl; try reflexivity; lia.
Qed.

Lemma wf_finite (s : bool) (m : positive) (e : Z) :
  wf (S754_finite s m e) <-> canonical m e.
Proof.
  unfold wf, canonical, valid_binary, bounded, canonical_mantissa, fexp, SpecFloat.emin.
  rewrite digits2_log2. unfold prec, emax.
  rewrite andb_true_iff, Z.eqb_eq, Z.leb_le.
  replace (Z.log2 (Z.pos m) + 1 + e - 53) with (Z.log2 (Z.pos m) + e - 52) by lia.
  replace (3 - 1024 - 53) with (-1074) by lia. reflexivity.
Qed.

Lemma pow2_pos (k : Z) : 0 <= k -> 0 < 2 ^ k.
Proof. intros. apply Z.pow_pos_nonneg; lia. Qed.

(** The shape of [round_rat]. *)
Lemma round_rat_shape (s : bool) (a d : Z) :
  0 < a -> 0 < d ->
  exists off t m1,
    0 <= off <= 1074 /\ 0 <= t
    /\ m1 = rdiv_even (a * 2 ^ off) (d * 2 ^ t)
    /\ ((2 ^ (52 + t) * d <= a * 2 ^ off < 2 ^ (53 + t) * d /\ 2 ^ 52 <= m1 <= 2 ^ 53)
        \/ (off = 1074 /\ t = 0 /\ a * 2 ^ off < 2 ^ 52 * d /\ 0 <= m1 <= 2 ^ 52))
    /\ round_rat s a d
       = if m1 =? 2 ^ 53 then
           if 971 <? t + 1 - off then S754_infinity s
           else S754_finite s (Z.to_pos (2 ^ 52)) (t + 1 - off)
         else if m1 <=? 0 then S754_zero s
         else if 971 <? t - off then S754_infinity s
         else S754_finite s (Z.to_pos m1) (t - off).
Proof.
  intros Ha Hd. unfold round_rat.
  replace (a <=? 0) with false by lia.
  set (off := Z.min 1074 (Z.max 0 (54 + Z.log2 d - Z.log2 a))).
  set (n := a * 2 ^ off).
  set (t := Z.max (Z.log2 (n / d) - 52) 0).
  set (m1 := rdiv_even n (d * 2 ^ t)).
  assert (Hoff : 0 <= off <= 1074) by (unfold off; lia).
  assert (Ht : 0 <= t) by (unfold t; lia).
  assert (Hn : 0 < n) by (unfold n; pose proof (pow2_pos off); nia).
  exists off, t, m1. split; [exact Hoff|]. split; [exact Ht|]. split; [reflexivity|].
  pose proof (pow2_pos t Ht) as Hpt.
  assert (Hdt : 0 < d * 2 ^ t) by nia.
  (* the quotient *)
  pose proof (Z.div_mod n d ltac:(lia)) as Ediv.
  pose proof (Z.mod_pos_bound n d Hd) as Bmod.
  assert (HQ0 : 0 <= n / d) by (apply Z.div_pos; lia).
  assert (Hbig : off < 1074 -> 2 ^ 53 * d <= n).
  { intros Hlt. unfold n.
    assert (Ho : 54 + Z.log2 d - Z.log2 a <= off) by (unfold off; lia).
    pose proof (Z.log2_spec a Ha) as [La _].
    pose proof (Z.log2_spec d Hd) as [_ Ld].
    pose proof (Z.log2_nonneg a). pose proof (Z.log2_nonneg d).
    assert (E1 : 2 ^ (Z.log2 a + off) = 2 ^ Z.log2 a * 2 ^ off) by (apply Z.pow_add_r; lia).
    assert (E2 : 2 ^ (54 + Z.log2 d) <= 2 ^ (Z.log2 a + off)) by (apply Z.pow_le_mono_r; lia).
    assert (E3 : 2 ^ (54 + Z.log2 d) = 2 ^ 53 * 2 ^ Z.succ (Z.log2 d)).
    { rewrite <- Z.pow_add_r by lia. f_equal. lia. }
    pose proof (pow2_pos off ltac:(lia)).
    assert (0 < 2 ^ 53) by (apply pow2_pos; lia).
    nia. }
  assert (Hcases : (2 ^ 52 <= n / d /\ t = Z.log2 (n / d) - 52) \/ (n / d < 2 ^ 52 /\ t = 0)).
  { destruct (Z_lt_le_dec (n / d) (2 ^ 52)) as [Hlt|Hge].
    - right. split; [exact Hlt|]. unfold t.
      destruct (Z.eq_dec (n / d) 0) as [E0|E0].
      + rewrite E0. simpl. reflexivity.
      + assert (Z.log2 (n / d) < 52) by (apply Z.log2_lt_pow2; lia). lia.
    - left. split; [exact Hge|]. unfold t.
      assert (52 <= Z.log2 (n / d)) by (apply Z.log2_le_pow2; lia). lia. }
  split.
  - destruct Hcases as [[Hge Et]|[Hlt Et]].
    + left.
      assert (HQpos : 0 < n / d) by (pose proof (pow2_pos 52); lia).
      pose proof (Z.log2_spec (n / d) HQpos) as [L1 L2].
      replace (Z.log2 (n / d)) with (52 + t) in L1 by lia.
      replace (Z.succ (Z.log2 (n / d))) with (53 + t) in L2 by lia.
      assert (A1 : 2 ^ (52 + t) * d <= n) by nia.
      assert (A2 : n < 2 ^ (53 + t) * d) by nia.
      split; [split; assumption|].
      assert (P52 : 2 ^ (52 + t) = 2 ^ 52 * 2 ^ t) by (apply Z.pow_add_r; lia).
      assert (P53 : 2 ^ (53 + t) = 2 ^ 53 * 2 ^ t) by (apply Z.pow_add_r; lia).
      split.
      * apply rdiv_even_ge; [exact Hdt | nia].
      * apply rdiv_even_le; [exact Hdt | nia].
    + right.
      assert (Hoff1074 : off = 1074).
      { destruct (Z.eq_dec off 1074) as [E|E]; [exact E|].
        assert (2 ^ 53 * d <= n) by (apply Hbig; lia).
        assert (2 ^ 53 <= n / d) by (apply Z.div_le_lower_bound; lia).
        assert (2 ^ 52 < 2 ^ 53) by (apply Z.pow_lt_mono_r; lia). lia. }
      assert (A3 : n < 2 ^ 52 * d) by nia.
      repeat split; try assumption.
      * apply rdiv_even_ge; [exact Hdt | lia].
      * apply rdiv_even_le; [exact Hdt |]. rewrite Et. simpl (2 ^ 0). nia.
  - fold m1. destruct (m1 =? 2 ^ 53) eqn:E53.
    + replace (2 ^ 52 <=? 0) with false by reflexivity. reflexivity.
    + reflexivity.
Qed.

Lemma canonical_bounds (m : positive) (e : Z) :
  canonical m e ->
  -1074 <= e <= 971 /\ Z.pos m < 2 ^ 53 /\ (2 ^ 52 <= Z.pos m \/ e = -1074).
Proof.
  intros [H1 H2].
  assert (HL : Z.log2 (Z.pos m) <= 52) by lia.
  assert (Z.pos m < 2 ^ 53).
  { apply Z.log2_lt_pow2; lia. }
  split; [lia|]. split; [assumption|].
  destruct (Z.eq_dec e (-1074)) as [E|E]; [right; exact E|left].
  assert (Z.log2 (Z.pos m) = 52) by lia.
  apply Z.log2_le_pow2; lia.
Qed.

Lemma canonical_intro (m : positive) (e : Z) :
  -1074 <= e <= 971 -> Z.pos m < 2 ^ 53 -> (2 ^ 52 <= Z.pos m \/ e = -1074) ->
  canonical m e.
Proof.
  intros He Hm Hn. unfold canonical.
  assert (HL : Z.log2 (Z.pos m) < 53) by (apply Z.log2_lt_pow2; lia).
  split; [|lia]. destruct Hn as [Hn|Hn].
  - assert (52 <= Z.log2 (Z.pos m)) by (apply Z.log2_le_pow2; lia). lia.
  - lia.
Qed.

Lemma round_rat_wf (s : bool) (a d : Z) : 0 < d -> wf (round_rat s a d).
Proof.
  intros Hd. destruct (Z_le_gt_dec a 0) as [Ha|Ha].
  { unfold round_rat. replace (a <=? 0) with true by lia. reflexivity. }
  destruct (round_rat_shape s a d ltac:(lia) Hd)
    as (off & t & m1 & Hoff & Ht & Em1 & Hc & ->).
  destruct (m1 =? 2 ^ 53) eqn:E53.
  - destruct (971 <? t + 1 - off) eqn:Eov; [reflexivity|].
    apply wf_finite, canonical_intro; [lia | reflexivity | left; reflexivity].
  - destruct (m1 <=? 0) eqn:E0; [reflexivity|].
    destruct (971 <? t - off) eqn:Eov; [reflexivity|].
    apply wf_finite. rewrite Z.eqb_neq in E53. rewrite Z.leb_gt in E0.
    rewrite Z.ltb_ge in Eov.
    destruct Hc as [[_ Hm]|(-> & -> & _ & Hm)].
    + apply canonical_intro; rewrite ?Z2Pos.id by lia; [lia | lia | left; lia].
    + apply canonical_intro; rewrite ?Z2Pos.id by lia; [lia | | right; lia].
      assert (2 ^ 52 < 2 ^ 53) by reflexivity. lia.
Qed.

Lemma finite_le (m m' : positive) (e e' : Z) :
  e < e' \/ (e = e' /\ (m <= m')%positive) ->
  num_le (S754_finite false m e) (S754_finite false m' e') = true.
Proof.
  unfold num_le, SFleb, SFcompare. intros [H|[-> H]].
  - rewrite (proj2 (Z.compare_lt_iff e e') H). reflexivity.
  - rewrite Z.compare_refl.
    change (Pos.compare_cont Eq m m') with (m ?= m')%positive.
    destruct (m ?= m')%positive eqn:E; try reflexivity.
    apply Pos.compare_gt_iff in E. lia.
Qed.

Lemma units_scale (a off : Z) :
  0 <= off <= 1074 -> a * 2 ^ 1074 = a * 2 ^ off * 2 ^ (1074 - off).
Proof.
  intros H. rewrite <- Z.mul_assoc, <- Z.pow_add_r by lia. do 2 f_equal. lia.
Qed.

(** A subnormal magnitude below [2^52] units has the least exponent. *)
Lemma canonical_small (m : positive) (e : Z) :
  canonical m e -> units m e < 2 ^ 52 -> e = -1074.
Proof.
  intros Hc Hu. destruct (canonical_bounds m e Hc) as (He & Hm & [Hn|Hn]); [|exact Hn].
  unfold units in Hu.
  assert (1 <= 2 ^ (e + 1074)) by (pose proof (pow2_pos (e + 1074)); lia).
  nia.
Qed.

Lemma num_le_finite_inf (m : positive) (e : Z) :
  num_le (S754_finite false m e) (S754_infinity false) = true.
Proof. reflexivity. Qed.

(** Rounding is above every datum that the exact value is above. *)
Lemma round_rat_ge (m : positive) (e a d : Z) :
  canonical m e -> 0 < d -> units m e * d <= a * 2 ^ 1074 ->
  num_le (S754_finite false m e) (round_rat false a d) = true.
Proof.
  intros Hc Hd Hle.
  assert (Hu : 0 < units m e) by (unfold units; pose proof (pow2_pos (e + 1074)); destruct (canonical_bounds m e Hc); nia).
  assert (Ha : 0 < a) by (pose proof (pow2_pos 1074); nia).
  destruct (round_rat_shape false a d Ha Hd)
    as (off & t & m1 & Hoff & Ht & Em1 & Hcase & ->).
  destruct (canonical_bounds m e Hc) as (He & Hm & Hn).
  rewrite (units_scale a off Hoff) in Hle.
  set (n := a * 2 ^ off) in *.
  pose proof (pow2_pos (1074 - off) ltac:(lia)) as HP.
  pose proof (pow2_pos t Ht) as HPt.
  destruct Hcase as [[[H1 H2] Hm1]|(Eoff & Et & H2 & Hm1)].
  - (* a normal result *)
    assert (Hexp : e <= t - off).
    { destruct (Z_le_gt_dec e (t - off)) as [H|H]; [exact H|exfalso].
      assert (Ex : 2 ^ (e + 1074) = 2 ^ (e + off) * 2 ^ (1074 - off)).
      { rewrite <- Z.pow_add_r by lia. f_equal. lia. }
      unfold units in Hle. rewrite Ex in Hle.
      assert (Hle' : Z.pos m * 2 ^ (e + off) * d <= n).
      { apply (Z.mul_le_mono_pos_r _ _ (2 ^ (1074 - off)) HP). nia. }
      assert (Hpw : 2 ^ (53 + t) <= 2 ^ (52 + (e + off))) by (apply Z.pow_le_mono_r; lia).
      assert (Ey : 2 ^ (52 + (e + off)) = 2 ^ 52 * 2 ^ (e + off)) by (apply Z.pow_add_r; lia).
      pose proof (pow2_pos (e + off) ltac:(lia)) as HPx.
      assert (Hlt : n < 2 ^ 52 * (2 ^ (e + off) * d)).
      { apply Z.lt_le_trans with (2 ^ (53 + t) * d); [apply H2|].
        rewrite Z.mul_assoc, <- Ey. apply Z.mul_le_mono_nonneg_r; lia. }
      assert (Z.pos m < 2 ^ 52).
      { apply (Z.mul_lt_mono_pos_r (2 ^ (e + off) * d)); [nia|]. lia. }
      destruct Hn as [Hn|Hn]; lia. }
    assert (Hmant : e = t - off -> Z.pos m <= m1).
    { intros E. rewrite Em1. apply rdiv_even_ge; [nia|].
      assert (Ex : 2 ^ (e + 1074) = 2 ^ t * 2 ^ (1074 - off)).
      { rewrite <- Z.pow_add_r by lia. f_equal. lia. }
      unfold units in Hle. rewrite Ex in Hle.
      apply (Z.mul_le_mono_pos_r _ _ (2 ^ (1074 - off)) HP). fold n. nia. }
    destruct (m1 =? 2 ^ 53) eqn:E53.
    + destruct (971 <? t + 1 - off); [reflexivity|]. apply finite_le. left. lia.
    + apply Z.eqb_neq in E53. replace (m1 <=? 0) with false by lia.
      destruct (971 <? t - off); [reflexivity|]. apply finite_le.
      destruct (Z.eq_dec e (t - off)) as [E|E]; [right|left; lia].
      split; [exact E|]. specialize (Hmant E).
      lia.
  - (* a subnormal result *)
    subst off t. replace (1074 - 1074) with 0 in * by lia.
    change (2 ^ 0) with 1 in *.
    assert (Hsmall : units m e < 2 ^ 52) by nia.
    pose proof (canonical_small m e Hc Hsmall) as ->.
    unfold units in Hle. replace (-1074 + 1074) with 0 in Hle by lia.
    change (2 ^ 0) with 1 in Hle.
    assert (Hmant : Z.pos m <= m1).
    { rewrite Em1. apply rdiv_even_ge; [lia|]. fold n. nia. }
    assert (E53 : (m1 =? 2 ^ 53) = false).
    { apply Z.eqb_neq. assert (2 ^ 52 < 2 ^ 53) by reflexivity. lia. }
    rewrite E53. replace (m1 <=? 0) with false by lia.
    replace (971 <? 0 - 1074) with false by reflexivity.
    apply finite_le. right. split; [reflexivity|].
    lia.
Qed.

(** A value that is a datum rounds to itself. *)
Lemma round_rat_exact (s : bool) (m : positive) (e a d : Z) :
  canonical m e -> 0 < d -> a * 2 ^ 1074 = units m e * d ->
  round_rat s a d = S754_finite s m e.
Proof.
  intros Hc Hd Heq.
  destruct (canonical_bounds m e Hc) as (He & Hm & Hn).
  assert (Hu : 0 < units m e) by (unfold units; pose proof (pow2_pos (e + 1074)); nia).
  assert (Ha : 0 < a) by (pose proof (pow2_pos 1074); nia).
  destruct (round_rat_shape s a d Ha Hd)
    as (off & t & m1 & Hoff & Ht & Em1 & Hcase & ->).
  rewrite (units_scale a off Hoff) in Heq.
  set (n := a * 2 ^ off) in *.
  pose proof (pow2_pos (1074 - off) ltac:(lia)) as HP.
  pose proof (pow2_pos t Ht) as HPt.
  assert (Hgoal : t - off = e /\ m1 = Z.pos m).
  { destruct Hcase as [[[H1 H2] Hm1]|(Eoff & Et & H2 & Hm1)].
    - assert (P52 : 2 ^ (52 + t) = 2 ^ 52 * 2 ^ t) by (apply Z.pow_add_r; lia).
      assert (Hx : 0 <= e + off).
      { destruct (Z_le_gt_dec 0 (e + off)) as [H|H]; [exact H|exfalso].
        assert (Ex : 2 ^ (1074 - off) = 2 ^ (e + 1074) * 2 ^ (- (e + off))).
        { rewrite <- Z.pow_add_r by lia. f_equal. lia. }
        unfold units in Heq. rewrite Ex in Heq.
        pose proof (pow2_pos (e + 1074) ltac:(lia)) as HPe.
        assert (Heq' : n * 2 ^ (- (e + off)) = Z.pos m * d).
        { apply (Z.mul_cancel_r _ _ (2 ^ (e + 1074))); [lia|]. nia. }
        assert (2 <= 2 ^ (- (e + off))).
        { change 2 with (2 ^ 1) at 1. apply Z.pow_le_mono_r; lia. }
        assert (2 * n <= Z.pos m * d) by nia.
        assert (2 ^ 53 = 2 * 2 ^ 52) by reflexivity.
        assert (2 ^ 52 * d <= n) by nia. nia. }
      assert (Ex : 2 ^ (e + 1074) = 2 ^ (e + off) * 2 ^ (1074 - off)).
      { rewrite <- Z.pow_add_r by lia. f_equal. lia. }
      unfold units in Heq. rewrite Ex in Heq.
      assert (Hn' : n = Z.pos m * 2 ^ (e + off) * d).
      { apply (Z.mul_cancel_r _ _ (2 ^ (1074 - off))); [lia|]. nia. }
      pose proof (pow2_pos (e + off) Hx) as HPx.
      assert (B1 : 2 ^ (52 + t) <= Z.pos m * 2 ^ (e + off)).
      { apply (Z.mul_le_mono_pos_r _ _ d Hd). lia. }
      assert (B2 : Z.pos m * 2 ^ (e + off) < 2 ^ (53 + t)).
      { apply (Z.mul_lt_mono_pos_r d); [exact Hd | lia]. }
      assert (T1 : t <= e + off).
      { assert (2 ^ (52 + t) < 2 ^ (53 + (e + off))).
        { apply Z.le_lt_trans with (Z.pos m * 2 ^ (e + off)); [exact B1|].
          rewrite (Z.pow_add_r 2 53 (e + off)) by lia.
          apply Z.mul_lt_mono_pos_r; [exact HPx | exact Hm]. }
        assert (52 + t < 53 + (e + off)) by (apply (Z.pow_lt_mono_r_iff 2); lia). lia. }
      assert (T2 : e + off <= t).
      { destruct Hn as [Hn|Hn]; [|lia].
        assert (2 ^ (52 + (e + off)) < 2 ^ (53 + t)).
        { apply Z.le_lt_trans with (Z.pos m * 2 ^ (e + off)); [|exact B2].
          rewrite (Z.pow_add_r 2 52 (e + off)) by lia.
          apply Z.mul_le_mono_nonneg_r; lia. }
        assert (52 + (e + off) < 53 + t) by (apply (Z.pow_lt_mono_r_iff 2); lia). lia. }
      assert (Et : t = e + off) by lia.
      split; [lia|]. rewrite Em1. fold n. rewrite Hn', <- Et.
      replace (Z.pos m * 2 ^ t * d) with (Z.pos m * (d * 2 ^ t)) by ring.
      apply rdiv_even_exact. nia.
    - subst off t. replace (1074 - 1074) with 0 in * by lia.
      change (2 ^ 0) with 1 in *.
      assert (Hsmall : units m e < 2 ^ 52) by nia.
      pose proof (canonical_small m e Hc Hsmall) as ->.
      split; [reflexivity|].
      unfold units in Heq. replace (-1074 + 1074) with 0 in Heq by lia.
      change (2 ^ 0) with 1 in Heq.
      rewrite Em1. fold n. replace n with (Z.pos m * (d * 1)) by lia.
      apply rdiv_even_exact. lia. }
  destruct Hgoal as [Ee Emm]. rewrite Emm.
  replace (Z.pos m =? 2 ^ 53) with false by lia.
  replace (Z.pos m <=? 0) with false by lia.
  replace (971 <? t - off) with false by lia.
  rewrite Ee. reflexivity.
Qed.

(* ===================================================================== *)
(** * 10. The text of numbers                                             *)
(* ===================================================================== *)

Lemma sapp_nil_r (s : string) : s ++ "" = s.
Proof. induction s as [|c s IH]; cbn [String.append]; [reflexivity | rewrite IH; reflexivity]. Qed.

Lemma sapp_assoc (a b c : string) : (a ++ b) ++ c = a ++ (b ++ c).
Proof. induction a as [|x a IH]; cbn [String.append]; [reflexivity | rewrite IH; reflexivity]. Qed.

Lemma slength_app (a b : string) :
  String.length (a ++ b) = (String.length a + String.length b)%nat.
Proof.
  induction a as [|x a IH]; cbn [String.append String.length]; [reflexivity|].
  rewrite IH. reflexivity.
Qed.

Lemma slength_zeros (n : nat) : String.length (zeros n) = n.
Proof. induction n as [|n IH]; simpl; [reflexivity | rewrite IH; reflexivity]. Qed.

Lemma take_drop (n : nat) (s : string) : take n s ++ drop n s = s.
Proof.
  revert s; induction n as [|n IH]; intros [|c s]; cbn [take drop String.append]; try reflexivity.
  rewrite IH. reflexivity.
Qed.

Lemma slength_drop (n : nat) (s : string) :
  String.length (drop n s) = (String.length s - n)%nat.
Proof.
  revert s; induction n as [|n IH]; intros [|c s]; simpl; try reflexivity.
  apply IH.
Qed.

(** ** Runs of digits *)

Lemma all_digits_app (a b : string) :
  all_digits (a ++ b) = all_digits a && all_digits b.
Proof.
  induction a as [|c a IH]; cbn [String.append all_digits]; [reflexivity|].
  rewrite IH, andb_assoc. reflexivity.
Qed.

Lemma all_digits_zeros (n : nat) : all_digits (zeros n) = true.
Proof. induction n as [|n IH]; simpl; [reflexivity | exact IH]. Qed.

Lemma all_digits_take (n : nat) (s : string) :
  all_digits s = true -> all_digits (take n s) = true.
Proof.
  revert s; induction n as [|n IH]; intros [|c s]; simpl; try reflexivity.
  rewrite !andb_true_iff. intros [H1 H2]. split; [exact H1 | apply IH; exact H2].
Qed.

Lemma all_digits_drop (n : nat) (s : string) :
  all_digits s = true -> all_digits (drop n s) = true.
Proof.
  revert s; induction n as [|n IH]; intros [|c s]; simpl; try reflexivity; try (intros H; exact H).
  rewrite andb_true_iff. intros [H1 H2]. apply IH; exact H2.
Qed.

Lemma digits_val_app (a b : string) (acc : Z) :
  digits_val (a ++ b) acc = digits_val b (digits_val a acc).
Proof.
  revert acc; induction a as [|c a IH]; intros acc; cbn [String.append digits_val];
    [reflexivity | apply IH].
Qed.

Lemma digits_val_zeros (n : nat) (acc : Z) :
  digits_val (zeros n) acc = acc * 10 ^ Z.of_nat n.
Proof.
  revert acc; induction n as [|n IH]; intros acc.
  - simpl. lia.
  - cbn [zeros digits_val]. rewrite IH. change (digit_val "0") with 0.
    rewrite Nat2Z.inj_succ, Z.pow_succ_r by lia. ring.
Qed.

Lemma digits_val_shift (s : string) (acc : Z) :
  digits_val s acc = acc * 10 ^ Z.of_nat (String.length s) + digits_val s 0.
Proof.
  revert acc; induction s as [|c s IH]; intros acc.
  - simpl. lia.
  - cbn [digits_val String.length]. rewrite IH, (IH (10 * 0 + digit_val c)).
    rewrite Nat2Z.inj_succ, Z.pow_succ_r by lia. ring.
Qed.

Lemma read_digits_app (a b : string) (acc cnt : Z) :
  all_digits a = true -> stops b ->
  read_digits (a ++ b) acc cnt
  = (digits_val a acc, cnt + Z.of_nat (String.length a), b).
Proof.
  revert acc cnt; induction a as [|c a IH]; intros acc cnt Ha Hb.
  - cbn [String.append digits_val String.length]. replace (cnt + Z.of_nat 0) with cnt by lia.
    destruct b as [|c b]; cbn [read_digits]; [reflexivity|]. simpl in Hb.
    rewrite Hb. reflexivity.
  - simpl in Ha. apply andb_true_iff in Ha as [Hc Ha].
    cbn [String.append read_digits digits_val String.length]. rewrite Hc, IH by assumption.
    f_equal. f_equal. lia.
Qed.

Lemma digit_char_digit (d : Z) :
  0 <= d <= 9 -> is_digit (digit_char d) = true /\ digit_val (digit_char d) = d.
Proof.
  intros H.
  assert (E : d = 0 \/ d = 1 \/ d = 2 \/ d = 3 \/ d = 4 \/ d = 5 \/ d = 6 \/ d = 7
              \/ d = 8 \/ d = 9) by lia.
  repeat (destruct E as [-> | E]; [split; reflexivity|]). subst d. split; reflexivity.
Qed.

Lemma dec_digits_all (fuel : nat) (n : Z) (acc : string) :
  0 <= n -> all_digits acc = true -> all_digits (dec_digits fuel n acc) = true.
Proof.
  revert n acc; induction fuel as [|fuel IH]; intros n acc Hn Hacc; simpl; [exact Hacc|].
  assert (Hd : is_digit (digit_char (n mod 10)) = true).
  { apply digit_char_digit. pose proof (Z.mod_pos_bound n 10). lia. }
  destruct (n <? 10).
  - simpl. rewrite Hd, Hacc. reflexivity.
  - apply IH; [apply Z.div_pos; lia|]. simpl. rewrite Hd, Hacc. reflexivity.
Qed.

Lemma dec_digits_val (fuel : nat) (n : Z) (acc : string) :
  0 <= n < 2 ^ Z.of_nat fuel ->
  digits_val (dec_digits fuel n acc) 0
  = n * 10 ^ Z.of_nat (String.length acc) + digits_val acc 0.
Proof.
  revert n acc; induction fuel as [|fuel IH]; intros n acc Hn.
  - simpl in *. assert (n = 0) by lia. subst. lia.
  - cbn [dec_digits].
    assert (Hd : digit_val (digit_char (n mod 10)) = n mod 10).
    { apply digit_char_digit. pose proof (Z.mod_pos_bound n 10). lia. }
    pose proof (Z.div_mod n 10 ltac:(lia)) as E.
    destruct (n <? 10) eqn:Hlt.
    + apply Z.ltb_lt in Hlt. cbn [digits_val]. rewrite digits_val_shift, Hd.
      rewrite Z.mod_small by lia. lia.
    + apply Z.ltb_ge in Hlt. rewrite IH.
      * cbn [String.length digits_val]. rewrite (digits_val_shift acc), Hd.
        rewrite Nat2Z.inj_succ, Z.pow_succ_r by lia. lia.
      * rewrite Nat2Z.inj_succ, Z.pow_succ_r in Hn by lia.
        split; [apply Z.div_pos; lia|]. apply Z.div_lt_upper_bound; lia.
Qed.

Lemma dec_string_fuel (n : Z) : 0 <= n -> n < 2 ^ Z.of_nat (S (Z.to_nat (Z.log2 n))).
Proof.
  intros Hn. rewrite Nat2Z.inj_succ, Z2Nat.id by apply Z.log2_nonneg.
  destruct (Z.eq_dec n 0) as [->|Hz]; [reflexivity|].
  apply Z.log2_spec. lia.
Qed.

Lemma dec_string_digits (n : Z) : 0 <= n -> all_digits (dec_string n) = true.
Proof. intros Hn. apply dec_digits_all; [exact Hn | reflexivity]. Qed.

Lemma dec_string_val (n : Z) : 0 <= n -> digits_val (dec_string n) 0 = n.
Proof.
  intros Hn. unfold dec_string. rewrite dec_digits_val.
  - simpl. lia.
  - split; [exact Hn | apply dec_string_fuel; exact Hn].
Qed.

Lemma dec_digits_nonempty (fuel : nat) (n : Z) (acc : string) :
  (0 < String.length (dec_digits (S fuel) n acc))%nat.
Proof.
  revert n acc; induction fuel as [|fuel IH]; intros n acc.
  - simpl. destruct (n <? 10); simpl; lia.
  - cbn [dec_digits]. destruct (n <? 10); [simpl; lia|]. apply IH.
Qed.

Lemma dec_string_nonempty (n : Z) : (0 < String.length (dec_string n))%nat.
Proof. apply dec_digits_nonempty. Qed.

(** ** Texts made of digits, ".", "e", "+" and "-" *)

Lemma numchar_cases (c : ascii) :
  is_numchar c = true ->
  is_digit c = true \/ c = "."%char \/ c = "e"%char \/ c = "+"%char \/ c = "-"%char.
Proof.
  unfold is_numchar. rewrite !orb_true_iff, !Ascii.eqb_eq. tauto.
Qed.

Lemma digit_not_ws (c : ascii) : is_digit c = true -> is_ws c = false.
Proof.
  unfold is_digit, is_ws. intros H. apply andb_true_iff in H as [H1 H2].
  apply Z.leb_le in H1, H2.
  apply orb_false_iff; split; [apply orb_false_iff; split|].
  - apply andb_false_iff. right. apply Z.leb_gt. lia.
  - apply Z.eqb_neq. lia.
  - apply Z.eqb_neq. lia.
Qed.

Lemma numchar_not_ws (c : ascii) : is_numchar c = true -> is_ws c = false.
Proof.
  intros H. destruct (numchar_cases c H) as [Hd | [-> | [-> | [-> | ->]]]];
    [apply digit_not_ws; exact Hd | reflexivity..].
Qed.

Lemma all_num_app (a b : string) : all_num (a ++ b) = all_num a && all_num b.
Proof.
  induction a as [|c a IH]; simpl; [reflexivity|].
  rewrite IH, andb_assoc. reflexivity.
Qed.

Lemma all_digits_num (s : string) : all_digits s = true -> all_num s = true.
Proof.
  induction s as [|c s IH]; simpl; [reflexivity|].
  rewrite andb_true_iff. intros [H1 H2]. unfold is_numchar. rewrite H1, IH by exact H2.
  reflexivity.
Qed.

Lemma trim_end_num (s : string) : all_num s = true -> trim_end s = s.
Proof.
  induction s as [|c s IH]; simpl; [reflexivity|].
  rewrite andb_true_iff. intros [H1 H2]. rewrite IH by exact H2.
  destruct s; [rewrite (numchar_not_ws c H1)|]; reflexivity.
Qed.

Lemma trim_num (s : string) : all_num s = true -> trim s = s.
Proof.
  intros H. unfold trim. destruct s as [|c s]; [reflexivity|].
  simpl in H. apply andb_true_iff in H as [H1 H2].
  cbn [trim_start]. rewrite (numchar_not_ws c H1).
  apply trim_end_num. simpl. rewrite H1, H2. reflexivity.
Qed.

Lemma numchar_not_radix (c : ascii) :
  is_numchar c = true ->
  (Ascii.eqb c "x" || Ascii.eqb c "X") = false
  /\ (Ascii.eqb c "o" || Ascii.eqb c "O") = false
  /\ (Ascii.eqb c "b" || Ascii.eqb c "B") = false.
Proof.
  intros H. destruct (numchar_cases c H) as [Hd | [-> | [-> | [-> | ->]]]];
    [|repeat split; reflexivity..].
  repeat split; apply orb_false_iff; split; apply Ascii.eqb_neq; intros ->; discriminate.
Qed.

Lemma NonDecimal_num (s : string) :
  all_num s = true -> NonDecimalIntegerLiteral s = None.
Proof.
  destruct s as [|a s']; [reflexivity|]. intros H.
  destruct a as [a0 a1 a2 a3 a4 a5 a6 a7].
  destruct a0, a1, a2, a3, a4, a5, a6, a7; try reflexivity.
  destruct s' as [|c [|d r]]; try reflexivity.
  cbn [all_num] in H. rewrite !andb_true_iff in H. destruct H as (_ & Hc & _).
  destruct (numchar_not_radix c Hc) as (H1 & H2 & H3).
  unfold NonDecimalIntegerLiteral. rewrite H1, H2, H3. reflexivity.
Qed.

(** The value of a numeric text that starts with a digit. *)
Lemma Number_numeric (c : ascii) (s : string) :
  is_digit c = true -> all_num s = true ->
  Number (String c s)
  = match parse_unsigned_decimal (String c s) with
    | Some (m, q) => round_dec false m q
    | None => NaN
    end.
Proof.
  intros Hc Hs. unfold Number.
  assert (Hn : all_num (String c s) = true).
  { simpl. unfold is_numchar. rewrite Hc, Hs. reflexivity. }
  rewrite (trim_num _ Hn), (NonDecimal_num _ Hn).
  unfold StrDecimalLiteral.
  assert (Hplus : c <> "+"%char) by (intros ->; discriminate).
  assert (Hminus : c <> "-"%char) by (intros ->; discriminate).
  assert (HI : c <> "I"%char) by (intros ->; discriminate).
  assert (E : (let '(neg, u) :=
                 match String c s with
                 | String "+" u => (false, u)
                 | String "-" u => (true, u)
                 | _ => (false, String c s)
                 end in
               if String.eqb u "Infinity" then S754_infinity neg
               else match parse_unsigned_decimal u with
                    | Some (m, q) => round_dec neg m q
                    | None => NaN
                    end)
              = match parse_unsigned_decimal (String c s) with
                | Some (m, q) => round_dec false m q
                | None => NaN
                end).
  { destruct c as [a0 a1 a2 a3 a4 a5 a6 a7].
    destruct a0, a1, a2, a3, a4, a5, a6, a7; try discriminate;
      try (exfalso; apply Hplus; reflexivity);
      try (exfalso; apply Hminus; reflexivity);
      cbn [String.eqb Ascii.eqb Bool.eqb]; reflexivity. }
  exact E.
Qed.

(** ** Reading back the layouts of [String(x)] *)

Lemma digits_val_lead (j : nat) (a : string) :
  digits_val (zeros j ++ a) 0 = digits_val a 0.
Proof. rewrite digits_val_app, digits_val_zeros. reflexivity. Qed.

Lemma parse_integer (a : string) :
  all_digits a = true -> (0 < String.length a)%nat ->
  parse_unsigned_decimal a = Some (digits_val a 0, 0).
Proof.
  intros Ha Hl. unfold parse_unsigned_decimal.
  rewrite <- (sapp_nil_r a) at 1. rewrite read_digits_app by (try exact Ha; exact I).
  replace (0 + Z.of_nat (String.length a) =? 0) with false by lia. reflexivity.
Qed.

Lemma parse_exponent (a rest : string) (x : Z) :
  all_digits a = true -> (0 < String.length a)%nat ->
  read_exponent (String "e" rest) = Some x ->
  parse_unsigned_decimal (a ++ String "e" rest) = Some (digits_val a 0, x).
Proof.
  intros Ha Hl Hx. unfold parse_unsigned_decimal.
  rewrite read_digits_app by (try exact Ha; reflexivity).
  replace (0 + Z.of_nat (String.length a) =? 0) with false by lia.
  rewrite Hx. reflexivity.
Qed.

Lemma parse_fraction (a b rest : string) (x : Z) :
  all_digits a = true -> (0 < String.length a)%nat ->
  all_digits b = true -> stops rest ->
  read_exponent rest = Some x ->
  parse_unsigned_decimal (a ++ String "." (b ++ rest))
  = Some (digits_val b (digits_val a 0), x - Z.of_nat (String.length b)).
Proof.
  intros Ha Hl Hb Hr Hx. unfold parse_unsigned_decimal.
  rewrite read_digits_app by (try exact Ha; reflexivity).
  rewrite read_digits_app by assumption.
  replace (0 + Z.of_nat (String.length a) =? 0) with false by lia.
  cbn [andb]. rewrite Hx. repeat f_equal; lia.
Qed.

Lemma read_exponent_text (x : Z) :
  read_exponent ("e" ++ (if x <? 0 then "-" else "+") ++ dec_string (Z.abs x)) = Some x.
Proof.
  assert (Hd : all_digits (dec_string (Z.abs x)) = true) by (apply dec_string_digits; lia).
  assert (Hv : digits_val (dec_string (Z.abs x)) 0 = Z.abs x) by (apply dec_string_val; lia).
  pose proof (dec_string_nonempty (Z.abs x)) as Hl.
  destruct (x <? 0) eqn:E; cbn [String.append read_exponent Ascii.eqb Bool.eqb orb];
    rewrite <- (sapp_nil_r (dec_string (Z.abs x)));
    rewrite read_digits_app by (try exact Hd; exact I);
    rewrite Hv;
    replace (0 <? 0 + Z.of_nat (String.length (dec_string (Z.abs x)))) with true by lia;
    f_equal; lia.
Qed.

Lemma round_dec_trailing (s q : Z) :
  0 <= q -> round_dec false (s * 10 ^ q) 0 = round_dec false s q.
Proof.
  intros Hq. unfold round_dec. replace (0 <=? 0) with true by reflexivity.
  replace (0 <=? q) with true by lia. rewrite Z.pow_0_r, Z.mul_1_r. reflexivity.
Qed.

(** Whatever zeros are put in front, the layout of [s * 10^q] reads back as
    a decimal with the same value. *)
Lemma parse_layout (j : nat) (s q : Z) :
  0 < s ->
  exists m' q',
    parse_unsigned_decimal (zeros j ++ layout s q) = Some (m', q')
    /\ round_dec false m' q' = round_dec false s q.
Proof.
  intros Hs. unfold layout.
  set (ds := dec_string s).
  assert (Hd : all_digits ds = true) by (apply dec_string_digits; lia).
  assert (Hv : digits_val ds 0 = s) by (apply dec_string_val; lia).
  pose proof (dec_string_nonempty s) as Hl. fold ds in Hl.
  set (k := Z.of_nat (String.length ds)).
  assert (Hk : 0 < k) by (unfold k; lia).
  destruct ((-5 <=? k + q) && (k + q <=? 21)) eqn:Hrange.
  - destruct (k <=? k + q) eqn:H1.
    + (* digits and zeros *)
      apply Z.leb_le in H1. rewrite <- sapp_assoc.
      exists (s * 10 ^ q), 0. split; [|apply round_dec_trailing; lia].
      rewrite parse_integer.
      * rewrite !digits_val_app, !digits_val_zeros, digits_val_shift, Hv.
        replace (k + q - k) with q by lia. rewrite Z2Nat.id by lia.
        repeat f_equal; lia.
      * rewrite !all_digits_app, !all_digits_zeros, Hd. reflexivity.
      * rewrite !slength_app. lia.
    + apply Z.leb_gt in H1. destruct (0 <? k + q) eqn:H2.
      * (* a point among the digits *)
        apply Z.ltb_lt in H2. exists s, q. split; [|reflexivity].
        rewrite <- sapp_assoc.
        rewrite <- (sapp_nil_r (drop (Z.to_nat (k + q)) ds)).
        change ("." ++ drop (Z.to_nat (k + q)) ds ++ "")
          with (String "." (drop (Z.to_nat (k + q)) ds ++ "")).
        assert (Hlen : (0 < String.length (take (Z.to_nat (k + q)) ds))%nat).
        { destruct ds as [|c ds']; [simpl in Hl; lia|].
          destruct (Z.to_nat (k + q)) eqn:E; [lia|]. simpl. lia. }
        rewrite (parse_fraction _ _ "" 0).
        -- rewrite digits_val_lead, <- digits_val_app, take_drop, Hv.
           rewrite slength_drop. unfold k; repeat f_equal; lia.
        -- rewrite all_digits_app, all_digits_zeros. apply all_digits_take. exact Hd.
        -- rewrite slength_app. lia.
        -- apply all_digits_drop. exact Hd.
        -- exact I.
        -- reflexivity.
      * (* zeros after the point *)
        apply Z.ltb_ge in H2. exists s, q. split; [|reflexivity].
        change ("0." ++ zeros (Z.to_nat (- (k + q))) ++ ds)
          with ("0" ++ String "." (zeros (Z.to_nat (- (k + q))) ++ ds)).
        rewrite <- sapp_assoc.
        rewrite <- (sapp_nil_r (zeros (Z.to_nat (- (k + q))) ++ ds)).
        rewrite (parse_fraction _ _ "" 0).
        -- rewrite digits_val_lead. change (digits_val "0" 0) with 0.
           rewrite digits_val_lead, Hv, slength_app, slength_zeros.
           unfold k; repeat f_equal; lia.
        -- rewrite all_digits_app, all_digits_zeros. reflexivity.
        -- rewrite slength_app. simpl. lia.
        -- rewrite all_digits_app, all_digits_zeros. exact Hd.
        -- exact I.
        -- reflexivity.
  - (* scientific notation *)
    exists s, q. split; [|reflexivity].
    set (x := k + q - 1).
    pose proof (read_exponent_text x) as Hx.
    change ("e" ++ (if x <? 0 then "-" else "+") ++ dec_string (Z.abs x))
      with (String "e" ((if x <? 0 then "-" else "+") ++ dec_string (Z.abs x))) in *.
    destruct (k =? 1) eqn:Hk1.
    + apply Z.eqb_eq in Hk1. rewrite <- sapp_assoc.
      rewrite (parse_exponent _ _ x).
      * rewrite digits_val_lead, Hv. unfold x; repeat f_equal; lia.
      * rewrite all_digits_app, all_digits_zeros. exact Hd.
      * rewrite slength_app. lia.
      * exact Hx.
    + apply Z.eqb_neq in Hk1.
      set (ex := String "e" ((if x <? 0 then "-" else "+") ++ dec_string (Z.abs x))) in *.
      rewrite (sapp_assoc (take 1 ds) ("." ++ drop 1 ds) ex).
      change (("." ++ drop 1 ds) ++ ex) with (String "." (drop 1 ds ++ ex)).
      rewrite <- (sapp_assoc (zeros j) (take 1 ds)).
      assert (Hlen : (0 < String.length (take 1 ds))%nat).
      { destruct ds as [|c ds']; [simpl in Hl; lia|]. simpl. lia. }
      rewrite (parse_fraction _ _ _ x).
      * rewrite digits_val_lead, <- digits_val_app, take_drop, Hv.
        rewrite slength_drop. unfold x, k; repeat f_equal; lia.
      * rewrite all_digits_app, all_digits_zeros. apply all_digits_take. exact Hd.
      * rewrite slength_app. lia.
      * apply all_digits_drop. exact Hd.
      * reflexivity.
      * exact Hx.
Qed.

Lemma head_digit_app (a b : string) : head_digit a = true -> head_digit (a ++ b) = true.
Proof. destruct a; simpl; [discriminate | trivial]. Qed.

Lemma head_digit_zeros (j : nat) (a : string) :
  head_digit a = true -> head_digit (zeros j ++ a) = true.
Proof. destruct j; simpl; [trivial | reflexivity]. Qed.

Lemma head_digit_digits (a : string) :
  all_digits a = true -> (0 < String.length a)%nat -> head_digit a = true.
Proof.
  destruct a; simpl; [lia|]. rewrite andb_true_iff. intros [H _] _. exact H.
Qed.

Lemma head_digit_take (n : nat) (a : string) :
  (0 < n)%nat -> head_digit a = true -> head_digit (take n a) = true.
Proof. destruct n; [lia|]. destruct a; simpl; trivial. Qed.

Lemma all_num_take (n : nat) (s : string) :
  all_num s = true -> all_num (take n s) = true.
Proof.
  revert s; induction n as [|n IH]; intros [|c s]; simpl; try reflexivity.
  rewrite !andb_true_iff. intros [H1 H2]. split; [exact H1 | apply IH; exact H2].
Qed.

Lemma all_num_drop (n : nat) (s : string) :
  all_num s = true -> all_num (drop n s) = true.
Proof.
  revert s; induction n as [|n IH]; intros [|c s]; simpl; try reflexivity; try (intros H; exact H).
  rewrite andb_true_iff. intros [H1 H2]. apply IH; exact H2.
Qed.

Lemma layout_numeric (s q : Z) :
  0 <= s -> all_num (layout s q) = true /\ head_digit (layout s q) = true.
Proof.
  intros Hs. unfold layout.
  set (ds := dec_string s).
  assert (Hd : all_digits ds = true) by (apply dec_string_digits; lia).
  pose proof (dec_string_nonempty s) as Hl. fold ds in Hl.
  pose proof (all_digits_num ds Hd) as Hn.
  pose proof (head_digit_digits ds Hd Hl) as Hh.
  set (k := Z.of_nat (String.length ds)).
  assert (Hz : forall n, all_num (zeros n) = true)
    by (intros n; apply all_digits_num, all_digits_zeros).
  assert (He : forall x, all_num (dec_string (Z.abs x)) = true)
    by (intros x; apply all_digits_num, dec_string_digits; lia).
  destruct ((-5 <=? k + q) && (k + q <=? 21)).
  - destruct (k <=? k + q).
    + rewrite all_num_app, Hn, Hz. split; [reflexivity | apply head_digit_app; exact Hh].
    + destruct (0 <? k + q) eqn:H2.
      * apply Z.ltb_lt in H2. rewrite !all_num_app, all_num_take, all_num_drop by exact Hn.
        split; [reflexivity|]. apply head_digit_app, head_digit_take; [lia | exact Hh].
      * rewrite !all_num_app, Hz, Hn. split; reflexivity.
  - destruct (k =? 1).
    + rewrite !all_num_app, Hn, He. split; [destruct (_ <? 0); reflexivity|].
      apply head_digit_app; exact Hh.
    + rewrite !all_num_app, all_num_take, all_num_drop, He by exact Hn.
      split; [destruct (_ <? 0); reflexivity|].
      apply head_digit_app, head_digit_app, head_digit_take; [lia | exact Hh].
Qed.

(** [Number] undoes the layout, behind any run of zeros. *)
Lemma Number_layout (j : nat) (s q : Z) :
  0 < s -> Number (zeros j ++ layout s q) = round_dec false s q.
Proof.
  intros Hs.
  destruct (layout_numeric s q ltac:(lia)) as [Hn Hh].
  assert (Hn' : all_num (zeros j ++ layout s q) = true).
  { rewrite all_num_app, Hn. rewrite all_digits_num by apply all_digits_zeros. reflexivity. }
  pose proof (head_digit_zeros j _ Hh) as Hh'.
  destruct (parse_layout j s q Hs) as (m' & q' & Hp & Hr).
  destruct (zeros j ++ layout s q) as [|c rest] eqn:E; [discriminate|].
  simpl in Hh', Hn'. apply andb_true_iff in Hn' as [_ Hn'].
  rewrite Number_numeric by assumption. rewrite Hp. exact Hr.
Qed.

(** ** The digits of a datum convert back to it *)

Lemma num_same_eq (x y : number) : num_same x y = true -> x = y.
Proof.
  destruct x as [s|s| |s m e], y as [t|t| |t n f]; simpl; try discriminate; try reflexivity.
  - intros H. apply Bool.eqb_prop in H. subst. reflexivity.
  - intros H. apply Bool.eqb_prop in H. subst. reflexivity.
  - rewrite !andb_true_iff. intros [[H1 H2] H3].
    apply Bool.eqb_prop in H1. apply Pos.eqb_eq in H2. apply Z.eqb_eq in H3.
    subst. reflexivity.
Qed.

Lemma converts_to_spec (x : number) (c : Z * Z) :
  converts_to x c = true -> 0 < fst c /\ round_dec false (fst c) (snd c) = x.
Proof.
  unfold converts_to. rewrite andb_true_iff. intros [H1 H2].
  split; [lia | apply num_same_eq; exact H2].
Qed.

Lemma candidate_ok (x : number) (num den p k : Z) (c : Z * Z) :
  candidate x num den p k = Some c -> converts_to x c = true.
Proof.
  unfold candidate.
  destruct (match _ ?= _ with Lt => true | Gt => false | Eq => _ end);
    cbv zeta; cbn [fst snd];
    repeat match goal with
           | |- context [if converts_to x ?c then _ else _] =>
               destruct (converts_to x c) eqn:?
           end;
    intros H; try discriminate; injection H as <-; assumption.
Qed.

Lemma shortest_ok (fuel : nat) (x : number) (num den p k : Z) (c : Z * Z) :
  shortest fuel x num den p k = Some c -> converts_to x c = true.
Proof.
  revert k; induction fuel as [|fuel IH]; intros k; simpl; [discriminate|].
  destruct (candidate x num den p k) as [c'|] eqn:E.
  - intros H. injection H as <-. eapply candidate_ok. exact E.
  - apply IH.
Qed.

Lemma strip10_inv (fuel : nat) (s q : Z) :
  0 < s ->
  0 < fst (strip10 fuel s q)
  /\ q <= snd (strip10 fuel s q)
  /\ fst (strip10 fuel s q) * 10 ^ (snd (strip10 fuel s q) - q) = s.
Proof.
  revert s q; induction fuel as [|fuel IH]; intros s q Hs; simpl.
  - rewrite Z.sub_diag. simpl. lia.
  - destruct ((0 <? s) && (s mod 10 =? 0)) eqn:E.
    + apply andb_true_iff in E as [_ E]. apply Z.eqb_eq in E.
      pose proof (Z.div_mod s 10 ltac:(lia)) as Ed. rewrite E in Ed.
      assert (Hs' : 0 < s / 10) by lia.
      destruct (IH (s / 10) (q + 1) Hs') as (H1 & H2 & H3).
      split; [exact H1|]. split; [lia|].
      replace (snd (strip10 fuel (s / 10) (q + 1)) - q)
        with (Z.succ (snd (strip10 fuel (s / 10) (q + 1)) - (q + 1))) by lia.
      rewrite Z.pow_succ_r by lia. lia.
    + simpl. rewrite Z.sub_diag. simpl. lia.
Qed.

(** The exact decimal expansion of a datum converts back to it. *)
Lemma exact_decimal (m : positive) (e : Z) :
  canonical m e ->
  let c := normalise (Z.pos m * 2 ^ Z.max 0 e * 5 ^ Z.max 0 (- e)) (Z.min 0 e) in
  0 < fst c /\ round_dec false (fst c) (snd c) = S754_finite false m e.
Proof.
  intros Hc. unfold normalise.
  set (s0 := Z.pos m * 2 ^ Z.max 0 e * 5 ^ Z.max 0 (- e)).
  set (q0 := Z.min 0 e).
  assert (Hs0 : 0 < s0).
  { unfold s0. pose proof (pow2_pos (Z.max 0 e) ltac:(lia)).
    assert (0 < 5 ^ Z.max 0 (- e)) by (apply Z.pow_pos_nonneg; lia). nia. }
  destruct (strip10_inv (S (Z.to_nat (Z.log2 s0))) s0 q0 Hs0) as (H1 & H2 & H3).
  set (s' := fst (strip10 (S (Z.to_nat (Z.log2 s0))) s0 q0)) in *.
  set (q' := snd (strip10 (S (Z.to_nat (Z.log2 s0))) s0 q0)) in *.
  cbv zeta. split; [exact H1|].
  destruct (canonical_bounds m e Hc) as (He & _).
  unfold round_dec. destruct (0 <=? q') eqn:Hq'.
  - apply Z.leb_le in Hq'. apply round_rat_exact; [exact Hc | lia|].
    unfold units. rewrite Z.mul_1_r.
    destruct (Z_le_gt_dec 0 e) as [Hpos|Hneg].
    + (* an integer *)
      assert (q0 = 0) by (unfold q0; lia).
      assert (Es : s0 = Z.pos m * 2 ^ e).
      { unfold s0. replace (Z.max 0 e) with e by lia.
        replace (Z.max 0 (- e)) with 0 by lia. simpl (5 ^ 0). lia. }
      replace (q' - q0) with q' in H3 by lia. rewrite H3, Es.
      rewrite <- Z.mul_assoc, <- Z.pow_add_r by lia. reflexivity.
    + assert (Eq0 : q0 = e) by (unfold q0; lia).
      assert (Es : s0 = Z.pos m * 5 ^ (- e)).
      { unfold s0. replace (Z.max 0 e) with 0 by lia.
        replace (Z.max 0 (- e)) with (- e) by lia. simpl (2 ^ 0). lia. }
      rewrite Eq0, Es in H3.
      assert (E10 : 10 ^ (q' - e) = 10 ^ q' * (2 ^ (- e) * 5 ^ (- e))).
      { replace (q' - e) with (q' + - e) by lia. rewrite Z.pow_add_r by lia.
        rewrite <- Z.pow_mul_l. reflexivity. }
      rewrite E10 in H3.
      assert (H5 : 0 < 5 ^ (- e)) by (apply Z.pow_pos_nonneg; lia).
      assert (E1 : s' * 10 ^ q' * 2 ^ (- e) = Z.pos m).
      { apply (Z.mul_cancel_r _ _ (5 ^ (- e))); [lia|]. lia. }
      replace (2 ^ 1074) with (2 ^ (- e) * 2 ^ (e + 1074))
        by (rewrite <- Z.pow_add_r by lia; f_equal; lia).
      rewrite Z.mul_assoc, E1. reflexivity.
  - apply Z.leb_gt in Hq'.
    assert (Pq : 0 < 10 ^ (- q')) by (apply Z.pow_pos_nonneg; lia).
    apply round_rat_exact; [exact Hc | exact Pq|].
    unfold units.
    assert (Eq0 : q0 = e) by (unfold q0; lia).
    assert (Hneg : e < 0) by lia.
    assert (Es : s0 = Z.pos m * 5 ^ (- e)).
    { unfold s0. replace (Z.max 0 e) with 0 by lia.
      replace (Z.max 0 (- e)) with (- e) by lia. simpl (2 ^ 0). lia. }
    rewrite Eq0, Es in H3.
    assert (H5 : 0 < 5 ^ (- e)) by (apply Z.pow_pos_nonneg; lia).
    assert (E10 : 10 ^ (q' - e) * 10 ^ (- q') = 2 ^ (- e) * 5 ^ (- e)).
    { rewrite <- Z.pow_add_r by lia. replace (q' - e + - q') with (- e) by lia.
      rewrite <- Z.pow_mul_l. reflexivity. }
    assert (E1 : s' * 2 ^ (- e) = Z.pos m * 10 ^ (- q')).
    { apply (Z.mul_cancel_r _ _ (5 ^ (- e))); [lia|].
      replace (s' * 2 ^ (- e) * 5 ^ (- e)) with (s' * (2 ^ (- e) * 5 ^ (- e))) by ring.
      rewrite <- E10. rewrite Z.mul_assoc, H3. ring. }
    replace (2 ^ 1074) with (2 ^ (- e) * 2 ^ (e + 1074))
      by (rewrite <- Z.pow_add_r by lia; f_equal; lia).
    rewrite Z.mul_assoc, E1. ring.
Qed.

Lemma digits_of_ok (m : positive) (e : Z) :
  canonical m e ->
  0 < fst (digits_of m e)
  /\ round_dec false (fst (digits_of m e)) (snd (digits_of m e)) = S754_finite false m e.
Proof.
  intros Hc. unfold digits_of.
  destruct (shortest 17 _ _ _ _ 1) as [c|] eqn:E.
  - apply converts_to_spec. eapply shortest_ok. exact E.
  - apply exact_decimal. exact Hc.
Qed.

(** Reading back the text of a positive datum, padded to sixteen
    characters, gives the datum. *)
Lemma Number_pad_ToString (m : positive) (e : Z) :
  canonical m e ->
  Number (padStart0 16 (ToString (S754_finite false m e))) = S754_finite false m e.
Proof.
  intros Hc. destruct (digits_of_ok m e Hc) as [H1 H2].
  unfold ToString. destruct (digits_of m e) as [d q]. cbn [fst snd] in *.
  change ("" ++ layout d q) with (layout d q).
  unfold padStart0. rewrite Number_layout by exact H1. exact H2.
Qed.

(** ** The sum of two data *)

Lemma rdiv_even_scale (n d c : Z) :
  0 < d -> 0 < c -> rdiv_even (n * c) (d * c) = rdiv_even n d.
Proof.
  intros Hd Hc. unfold rdiv_even.
  rewrite Z.div_mul_cancel_r by lia.
  rewrite Z.mul_mod_distr_r by lia.
  replace (2 * (n mod d * c)) with (2 * (n mod d) * c) by ring.
  assert (E : (2 * (n mod d) * c ?= d * c) = (2 * (n mod d) ?= d)).
  { destruct (Z.compare_spec (2 * (n mod d)) d);
      [apply Z.compare_eq_iff | apply Z.compare_lt_iff | apply Z.compare_gt_iff]; nia. }
  rewrite E. reflexivity.
Qed.

(** [round_rat] at a known exponent: when [a / d] lies in the binade of
    exponent [e], or below the least binade with [e = -1074], the result is
    the quotient by [2^e], rounded. *)
Lemma round_rat_at (s : bool) (a d e : Z) :
  0 < a -> 0 < d -> -1074 <= e ->
  (2 ^ (52 + (e + 1074)) * d <= a * 2 ^ 1074 < 2 ^ (53 + (e + 1074)) * d
   \/ (e = -1074 /\ a * 2 ^ 1074 < 2 ^ 52 * d)) ->
  round_rat s a d = finish s (rdiv_even (a * 2 ^ 1074) (d * 2 ^ (e + 1074))) e.
Proof.
  intros Ha Hd He Hb.
  destruct (round_rat_shape s a d Ha Hd)
    as (off & t & m1 & Hoff & Ht & Em1 & Hcase & ->).
  pose proof (pow2_pos (1074 - off) ltac:(lia)) as HP.
  pose proof (pow2_pos t Ht) as HPt.
  assert (Hn : a * 2 ^ 1074 = a * 2 ^ off * 2 ^ (1074 - off)) by (apply units_scale; lia).
  set (n := a * 2 ^ off) in *.
  assert (Et : t - off = e).
  { destruct Hcase as [[[H1 H2] _]|(Eoff & Et & H2 & _)].
    - (* bounds on n in terms of units *)
      assert (U1 : 2 ^ (52 + t + (1074 - off)) * d <= a * 2 ^ 1074).
      { rewrite Hn, Z.pow_add_r by lia. nia. }
      assert (U2 : a * 2 ^ 1074 < 2 ^ (53 + t + (1074 - off)) * d).
      { rewrite Hn, Z.pow_add_r by lia. nia. }
      destruct Hb as [[B1 B2]|[-> B2]].
      + assert (2 ^ (52 + t + (1074 - off)) < 2 ^ (53 + (e + 1074))).
        { apply (Z.mul_lt_mono_pos_r d); [exact Hd | lia]. }
        assert (2 ^ (52 + (e + 1074)) < 2 ^ (53 + t + (1074 - off))).
        { apply (Z.mul_lt_mono_pos_r d); [exact Hd | lia]. }
        assert (52 + t + (1074 - off) < 53 + (e + 1074)) by (apply (Z.pow_lt_mono_r_iff 2); lia).
        assert (52 + (e + 1074) < 53 + t + (1074 - off)) by (apply (Z.pow_lt_mono_r_iff 2); lia).
        lia.
      + exfalso.
        assert (2 ^ (52 + t + (1074 - off)) < 2 ^ 52).
        { apply (Z.mul_lt_mono_pos_r d); [exact Hd | lia]. }
        assert (52 + t + (1074 - off) < 52) by (apply (Z.pow_lt_mono_r_iff 2); lia).
        lia.
    - subst off t. replace (1074 - 1074) with 0 in * by lia. change (2 ^ 0) with 1 in *.
      destruct Hb as [[B1 B2]|[-> B2]]; [exfalso|reflexivity].
      assert (2 ^ (52 + (e + 1074)) < 2 ^ 52).
      { apply (Z.mul_lt_mono_pos_r d); [exact Hd | lia]. }
      assert (52 + (e + 1074) < 52) by (apply (Z.pow_lt_mono_r_iff 2); lia).
      lia. }
  assert (Em : rdiv_even (a * 2 ^ 1074) (d * 2 ^ (e + 1074)) = m1).
  { rewrite Em1, Hn.
    replace (e + 1074) with (t + (1074 - off)) by lia.
    rewrite Z.pow_add_r, Z.mul_assoc by lia.
    apply rdiv_even_scale; [nia | exact HP]. }
  unfold finish. rewrite Em, <- Et.
  replace (t - off + 1) with (t + 1 - off) by lia. reflexivity.
Qed.

(** *** The shifts of [SpecFloat] *)

Lemma iter_pos_nat {A : Type} (f : A -> A) (n : positive) (x : A) :
  SpecFloat.iter_pos f n x = Nat.iter (Pos.to_nat n) f x.
Proof.
  revert x; induction n as [n IH|n IH|]; intros x; cbn [SpecFloat.iter_pos].
  - rewrite !IH, Pos2Nat.inj_xI.
    replace (S (2 * Pos.to_nat n)) with (Pos.to_nat n + (Pos.to_nat n + 1))%nat by lia.
    rewrite !Nat.iter_add. reflexivity.
  - rewrite !IH, Pos2Nat.inj_xO.
    replace (2 * Pos.to_nat n)%nat with (Pos.to_nat n + Pos.to_nat n)%nat by lia.
    rewrite Nat.iter_add. reflexivity.
  - reflexivity.
Qed.

Lemma odd_mod2 (q : Z) : Z.odd q = (q mod 2 =? 1).
Proof. rewrite Zmod_odd. destruct (Z.odd q); reflexivity. Qed.

Lemma shr_1_spec (m : Z) (r s : bool) :
  0 <= m -> shr_1 (Build_shr_record m r s) = Build_shr_record (m / 2) (Z.odd m) (r || s).
Proof.
  intros Hm. rewrite <- Z.div2_div.
  destruct m as [|[p|p|]|]; try reflexivity. lia.
Qed.

(** After [k] shifts the mantissa is the quotient by [2^k], the round bit
    is the bit below it and the sticky bit tells whether a lower bit is
    set. *)
Lemma shr_iter (m : Z) (k : nat) :
  0 <= m ->
  Nat.iter (S k) shr_1 (Build_shr_record m false false)
  = Build_shr_record (m / 2 ^ Z.of_nat (S k))
      (Z.odd (m / 2 ^ Z.of_nat k))
      (negb (m mod 2 ^ Z.of_nat k =? 0)).
Proof.
  intros Hm. induction k as [|k IH].
  - cbn [Nat.iter]. rewrite shr_1_spec by exact Hm.
    change (2 ^ Z.of_nat 1) with 2. change (2 ^ Z.of_nat 0) with 1.
    rewrite Z.div_1_r, Z.mod_1_r. reflexivity.
  - rewrite Nat.iter_succ, IH.
    assert (P : 0 < 2 ^ Z.of_nat k) by (apply pow2_pos; lia).
    assert (E1 : 2 ^ Z.of_nat (S k) = 2 ^ Z.of_nat k * 2).
    { rewrite Nat2Z.inj_succ, Z.pow_succ_r by lia. ring. }
    assert (E2 : 2 ^ Z.of_nat (S (S k)) = 2 ^ Z.of_nat (S k) * 2).
    { rewrite (Nat2Z.inj_succ (S k)), Z.pow_succ_r by lia. ring. }
    rewrite shr_1_spec by (apply Z.div_pos; lia).
    f_equal.
    + rewrite E2, Z.div_div by lia. reflexivity.
    + (* the sticky bit *)
      pose proof (Z.div_mod m (2 ^ Z.of_nat k) ltac:(lia)) as Dk.
      pose proof (Z.mod_pos_bound m (2 ^ Z.of_nat k) P) as Bk.
      set (q := m / 2 ^ Z.of_nat k) in *. set (lo := m mod 2 ^ Z.of_nat k) in *.
      pose proof (Z.div_mod q 2 ltac:(lia)) as Dq.
      pose proof (Z.mod_pos_bound q 2 ltac:(lia)) as Bq.
      assert (Em : m mod 2 ^ Z.of_nat (S k) = lo + 2 ^ Z.of_nat k * (q mod 2)).
      { rewrite E1. symmetry. apply Z.mod_unique with (q := q / 2); [left; nia | nia]. }
      rewrite Em. rewrite odd_mod2.
      destruct (Z.eq_dec (q mod 2) 0) as [Eb|Eb].
      * rewrite Eb. replace (lo + 2 ^ Z.of_nat k * 0) with lo by lia. reflexivity.
      * assert (Eb1 : q mod 2 = 1) by lia. rewrite Eb1.
        replace (1 =? 1) with true by reflexivity.
        replace (lo + 2 ^ Z.of_nat k * 1 =? 0) with false by lia. reflexivity.
Qed.

Lemma round_shifted (m : Z) (k : nat) :
  0 <= m ->
  round_nearest_even (m / 2 ^ Z.of_nat (S k))
    (loc_of_shr_record (Nat.iter (S k) shr_1 (Build_shr_record m false false)))
  = rdiv_even m (2 ^ Z.of_nat (S k)).
Proof.
  intros Hm. rewrite shr_iter by exact Hm.
  assert (P : 0 < 2 ^ Z.of_nat k) by (apply pow2_pos; lia).
  assert (E1 : 2 ^ Z.of_nat (S k) = 2 ^ Z.of_nat k * 2).
  { rewrite Nat2Z.inj_succ, Z.pow_succ_r by lia. ring. }
  pose proof (Z.div_mod m (2 ^ Z.of_nat k) ltac:(lia)) as Dk.
  pose proof (Z.mod_pos_bound m (2 ^ Z.of_nat k) P) as Bk.
  set (q := m / 2 ^ Z.of_nat k) in *. set (lo := m mod 2 ^ Z.of_nat k) in *.
  pose proof (Z.div_mod q 2 ltac:(lia)) as Dq.
  pose proof (Z.mod_pos_bound q 2 ltac:(lia)) as Bq.
  assert (Em : m mod 2 ^ Z.of_nat (S k) = lo + 2 ^ Z.of_nat k * (q mod 2)).
  { rewrite E1. symmetry. apply Z.mod_unique with (q := q / 2); [left; nia | nia]. }
  assert (Hq2 : m / 2 ^ Z.of_nat (S k) = q / 2).
  { rewrite E1. unfold q. rewrite Z.div_div by lia. reflexivity. }
  unfold rdiv_even. rewrite Em, Hq2, E1. rewrite odd_mod2.
  destruct (Z.eq_dec (q mod 2) 0) as [Eb|Eb].
  - rewrite Eb. replace (0 =? 1) with false by reflexivity.
    replace (2 * (lo + 2 ^ Z.of_nat k * 0) ?= 2 ^ Z.of_nat k * 2) with Lt
      by (symmetry; apply Z.compare_lt_iff; lia).
    destruct (negb (lo =? 0)); reflexivity.
  - assert (Eb1 : q mod 2 = 1) by lia. rewrite Eb1.
    replace (1 =? 1) with true by reflexivity.
    destruct (Z.eq_dec lo 0) as [El|El].
    + rewrite El. replace (0 =? 0) with true by reflexivity.
      replace (2 * (0 + 2 ^ Z.of_nat k * 1) ?= 2 ^ Z.of_nat k * 2) with Eq
        by (symmetry; apply Z.compare_eq_iff; lia).
      reflexivity.
    + replace (lo =? 0) with false by lia.
      replace (2 * (lo + 2 ^ Z.of_nat k * 1) ?= 2 ^ Z.of_nat k * 2) with Gt
        by (symmetry; apply Z.compare_gt_iff; lia).
      reflexivity.
Qed.

Lemma iter_xO (p d : positive) : Z.pos (Pos.iter xO p d) = Z.pos p * 2 ^ Z.pos d.
Proof.
  rewrite <- Z.shiftl_mul_pow2 by lia. unfold Z.shiftl.
  apply (Pos.iter_swap_gen positive Z Z.pos xO (Z.mul 2)). reflexivity.
Qed.

Lemma rdiv_even_1 (m : Z) : rdiv_even m 1 = m.
Proof. rewrite <- (Z.mul_1_r m) at 1. apply rdiv_even_exact. lia. Qed.

(** The first shift of [binary_round_aux], then the rounding. *)
Lemma first_stage (m e n : Z) :
  0 <= m ->
  snd (shr (Build_shr_record m false false) e n) = e + Z.max 0 n
  /\ round_nearest_even (shr_m (fst (shr (Build_shr_record m false false) e n)))
       (loc_of_shr_record (fst (shr (Build_shr_record m false false) e n)))
     = rdiv_even m (2 ^ Z.max 0 n).
Proof.
  intros Hm. destruct n as [|p|p]; cbn [shr fst snd shr_m loc_of_shr_record round_nearest_even].
  - rewrite rdiv_even_1. split; [lia | reflexivity].
  - rewrite iter_pos_nat. destruct (Pos2Nat.is_succ p) as [k Hk]. rewrite Hk.
    replace (Z.max 0 (Z.pos p)) with (Z.of_nat (S k)) by lia.
    split; [lia|]. rewrite <- round_shifted by exact Hm.
    rewrite shr_iter by exact Hm. reflexivity.
  - rewrite rdiv_even_1. split; [lia | reflexivity].
Qed.

Lemma Zdigits2_log2 (m : Z) : 0 < m -> Zdigits2 m = Z.log2 m + 1.
Proof. destruct m as [|p|p]; try lia. intros _. apply digits2_log2. Qed.

(** The second shift of [binary_round_aux], for a mantissa that rounding
    has carried to [2^53], and the test of the exponent. *)
Lemma second_stage (s : bool) (m1 e : Z) :
  0 <= m1 <= 2 ^ 53 -> -1074 <= e ->
  (let '(mrs, e2) := shr_fexp prec emax m1 e loc_Exact in
   match shr_m mrs with
   | Z0 => S754_zero s
   | Z.pos m => if e2 <=? emax - prec then S754_finite s m e2 else S754_infinity s
   | Z.neg _ => S754_nan
   end) = finish s m1 e.
Proof.
  intros Hm He. unfold shr_fexp, fexp, SpecFloat.emin, prec, emax, finish.
  cbn [shr_record_of_loc].
  destruct (Z.eq_dec m1 0) as [->|Hz].
  { cbn [Zdigits2]. replace (Z.max (0 + e - 53) (3 - 1024 - 53) - e) with (Z.max (e - 53) (-1074) - e) by lia.
    destruct (Z.max (e - 53) (-1074) - e) eqn:E; try lia; reflexivity. }
  rewrite Zdigits2_log2 by lia.
  destruct (Z.eq_dec m1 (2 ^ 53)) as [->|H53].
  - change (Z.log2 (2 ^ 53)) with 53.
    replace (Z.max (53 + 1 + e - 53) (3 - 1024 - 53) - e) with 1 by lia.
    cbn [shr SpecFloat.iter_pos shr_1 shr_m]. replace (2 ^ 53 =? 2 ^ 53) with true by reflexivity.
    change (1024 - 53) with 971.
    destruct (e + 1 <=? 971) eqn:E1; destruct (971 <? e + 1) eqn:E2; try lia; reflexivity.
  - assert (HL : Z.log2 m1 < 53) by (apply Z.log2_lt_pow2; lia).
    replace (m1 =? 2 ^ 53) with false by lia. replace (m1 <=? 0) with false by lia.
    destruct (Z.max (Z.log2 m1 + 1 + e - 53) (3 - 1024 - 53) - e) eqn:E; try lia.
    + cbn [shr shr_m]. destruct m1 as [|p|p]; try lia. change (1024 - 53) with 971.
      rewrite Pos2Z.id.
      destruct (e <=? 971) eqn:E1; destruct (971 <? e) eqn:E2; try lia; reflexivity.
    + cbn [shr shr_m]. destruct m1 as [|q|q]; try lia. change (1024 - 53) with 971.
      rewrite Pos2Z.id.
      destruct (e <=? 971) eqn:E1; destruct (971 <? e) eqn:E2; try lia; reflexivity.
Qed.

Lemma binary_round_aux_closed (s : bool) (m e : Z) :
  0 < m ->
  let n := Z.max 0 (fexp prec emax (Zdigits2 m + e) - e) in
  rdiv_even m (2 ^ n) <= 2 ^ 53 -> -1074 <= e + n ->
  binary_round_aux prec emax s m e loc_Exact = finish s (rdiv_even m (2 ^ n)) (e + n).
Proof.
  intros Hm n Hb He. unfold binary_round_aux.
  unfold shr_fexp at 1. cbn [shr_record_of_loc].
  destruct (first_stage m e (fexp prec emax (Zdigits2 m + e) - e) ltac:(lia)) as [H1 H2].
  fold n in H1, H2.
  destruct (shr (Build_shr_record m false false) e (fexp prec emax (Zdigits2 m + e) - e))
    as [mrs' e'] eqn:E.
  cbn [fst snd] in H1, H2. rewrite H2, H1.
  apply second_stage; [|exact He].
  split; [|exact Hb]. apply rdiv_even_ge; [apply pow2_pos; lia | lia].
Qed.

(** [binary_round] in closed form: the mantissa [p] at exponent [e] is
    brought to the exponent [fx] of its binade. *)
Lemma binary_round_closed (s : bool) (p : positive) (e : Z) :
  let fx := Z.max (Z.log2 (Z.pos p) + e - 52) (-1074) in
  binary_round prec emax s p e
  = finish s (rdiv_even (Z.pos p * 2 ^ Z.max 0 (e - fx)) (2 ^ Z.max 0 (fx - e))) fx.
Proof.
  intros fx. unfold binary_round.
  assert (Efx : fexp prec emax (Z.pos (digits2_pos p) + e) = fx).
  { unfold fexp, SpecFloat.emin, prec, emax, fx. rewrite digits2_log2. lia. }
  rewrite Efx.
  pose proof (Z.log2_spec (Z.pos p) ltac:(lia)) as [L1 L2].
  pose proof (Z.log2_nonneg (Z.pos p)) as L0.
  unfold shl_align. destruct (fx - e) as [|d|d] eqn:E.
  - (* the exponent is already the right one *)
    replace (Z.max 0 (e - fx)) with 0 by lia. replace (Z.max 0 (fx - e)) with 0 by lia.
    change (2 ^ 0) with 1. rewrite Z.mul_1_r.
    assert (En : Z.max 0 (fexp prec emax (Zdigits2 (Z.pos p) + e) - e) = 0).
    { rewrite Zdigits2_log2 by lia. unfold fexp, SpecFloat.emin, prec, emax. lia. }
    rewrite binary_round_aux_closed; cbn zeta; rewrite ?En.
    + change (2 ^ 0) with 1. replace (e + 0) with fx by lia. reflexivity.
    + lia.
    + change (2 ^ 0) with 1. rewrite rdiv_even_1.
      assert (Z.log2 (Z.pos p) <= 52) by lia.
      assert (2 ^ Z.succ (Z.log2 (Z.pos p)) <= 2 ^ 53) by (apply Z.pow_le_mono_r; lia).
      lia.
    + lia.
  - (* a shift to the right *)
    replace (Z.max 0 (e - fx)) with 0 by lia. replace (Z.max 0 (fx - e)) with (Z.pos d) by lia.
    change (2 ^ 0) with 1. rewrite Z.mul_1_r.
    assert (En : Z.max 0 (fexp prec emax (Zdigits2 (Z.pos p) + e) - e) = Z.pos d).
    { rewrite Zdigits2_log2 by lia. unfold fexp, SpecFloat.emin, prec, emax. lia. }
    rewrite binary_round_aux_closed; cbn zeta; rewrite ?En.
    + replace (e + Z.pos d) with fx by lia. reflexivity.
    + lia.
    + apply rdiv_even_le; [apply pow2_pos; lia|].
      rewrite <- Z.pow_add_r by lia.
      assert (2 ^ Z.succ (Z.log2 (Z.pos p)) <= 2 ^ (53 + Z.pos d)) by (apply Z.pow_le_mono_r; lia).
      lia.
    + lia.
  - (* a shift to the left *)
    replace (Z.max 0 (e - fx)) with (Z.pos d) by lia. replace (Z.max 0 (fx - e)) with 0 by lia.
    change (2 ^ 0) with 1.
    assert (Hm : Z.pos (Pos.iter xO p d) = Z.pos p * 2 ^ Z.pos d) by apply iter_xO.
    assert (HP : 0 < 2 ^ Z.pos d) by (apply pow2_pos; lia).
    assert (HL : Z.log2 (Z.pos p * 2 ^ Z.pos d) = Z.log2 (Z.pos p) + Z.pos d).
    { rewrite <- Z.shiftl_mul_pow2 by lia. apply Z.log2_shiftl; lia. }
    assert (En : Z.max 0 (fexp prec emax (Zdigits2 (Z.pos (Pos.iter xO p d)) + fx) - fx) = 0).
    { rewrite Zdigits2_log2 by lia. rewrite Hm, HL.
      unfold fexp, SpecFloat.emin, prec, emax. lia. }
    rewrite binary_round_aux_closed; cbn zeta; rewrite ?En.
    + change (2 ^ 0) with 1. rewrite Hm, Z.add_0_r. reflexivity.
    + lia.
    + change (2 ^ 0) with 1. rewrite rdiv_even_1, Hm.
      assert (Z.pos p * 2 ^ Z.pos d < 2 ^ 53); [|lia].
      apply Z.log2_lt_pow2; [nia|]. rewrite HL. lia.
    + lia.
Qed.

(** [binary_round] of the Standard Library rounds as [round_rat] does. *)
Lemma binary_round_round_rat (s : bool) (p : positive) (e : Z) :
  binary_round prec emax s p e
  = round_rat s (Z.pos p * 2 ^ Z.max 0 e) (2 ^ Z.max 0 (- e)).
Proof.
  rewrite binary_round_closed. cbv zeta.
  set (fx := Z.max (Z.log2 (Z.pos p) + e - 52) (-1074)).
  pose proof (Z.log2_spec (Z.pos p) ltac:(lia)) as [L1 L2].
  pose proof (Z.log2_nonneg (Z.pos p)) as L0.
  pose proof (pow2_pos (Z.max 0 e) ltac:(lia)) as P1.
  pose proof (pow2_pos (Z.max 0 (- e)) ltac:(lia)) as P2.
  symmetry. rewrite (round_rat_at s _ _ fx); [| nia | exact P2 | unfold fx; lia |].
  - f_equal.
    set (g := Z.max 0 e + 1074 - Z.max 0 (e - fx)).
    assert (Hg : 0 <= g) by (unfold g, fx; lia).
    replace (Z.pos p * 2 ^ Z.max 0 e * 2 ^ 1074)
      with (Z.pos p * 2 ^ Z.max 0 (e - fx) * 2 ^ g).
    2:{ rewrite <- !Z.mul_assoc, <- !Z.pow_add_r by lia. do 2 f_equal. unfold g. lia. }
    replace (2 ^ Z.max 0 (- e) * 2 ^ (fx + 1074)) with (2 ^ Z.max 0 (fx - e) * 2 ^ g).
    2:{ rewrite <- !Z.pow_add_r by (unfold fx; lia). f_equal. unfold g. lia. }
    apply rdiv_even_scale; apply pow2_pos; lia.
  - destruct (Z_le_gt_dec (-1074) (Z.log2 (Z.pos p) + e - 52)) as [Hn|Hs].
    + left. assert (Efx : fx = Z.log2 (Z.pos p) + e - 52) by (unfold fx; lia).
      rewrite <- !Z.mul_assoc, <- !Z.pow_add_r by lia.
      replace (52 + (fx + 1074) + Z.max 0 (- e))
        with (Z.log2 (Z.pos p) + (Z.max 0 e + 1074)) by lia.
      replace (53 + (fx + 1074) + Z.max 0 (- e))
        with (Z.succ (Z.log2 (Z.pos p)) + (Z.max 0 e + 1074)) by lia.
      rewrite !Z.pow_add_r by lia.
      pose proof (pow2_pos (Z.max 0 e) ltac:(lia)).
      pose proof (pow2_pos 1074 ltac:(lia)).
      split; [apply Z.mul_le_mono_nonneg_r; [nia | lia]
             | apply Z.mul_lt_mono_pos_r; [nia | lia]].
    + right. split; [unfold fx; lia|].
      rewrite <- !Z.mul_assoc, <- !Z.pow_add_r by lia.
      apply Z.lt_le_trans with (2 ^ Z.succ (Z.log2 (Z.pos p)) * 2 ^ (Z.max 0 e + 1074)).
      * apply Z.mul_lt_mono_pos_r; [apply pow2_pos; lia | lia].
      * rewrite <- Z.pow_add_r by lia. apply Z.pow_le_mono_r; lia.
Qed.

(** The sum of two positive finite data is the exact sum, rounded. *)
Lemma num_add_positive (m1 m2 : positive) (e1 e2 : Z) :
  let ez := Z.min e1 e2 in
  num_add (S754_finite false m1 e1) (S754_finite false m2 e2)
  = round_rat false
      ((Z.pos m1 * 2 ^ (e1 - ez) + Z.pos m2 * 2 ^ (e2 - ez)) * 2 ^ Z.max 0 ez)
      (2 ^ Z.max 0 (- ez)).
Proof.
  intros ez. unfold num_add, SFadd. fold ez. cbn [cond_Zopp].
  assert (A : forall m e, ez <= e -> Z.pos (fst (shl_align m e ez)) = Z.pos m * 2 ^ (e - ez)).
  { intros m e He. unfold shl_align. destruct (ez - e) as [|d|d] eqn:E; cbn [fst].
    - replace (e - ez) with 0 by lia. lia.
    - lia.
    - rewrite iter_xO. f_equal. f_equal. lia. }
  rewrite !A by (unfold ez; lia).
  pose proof (pow2_pos (e1 - ez) ltac:(unfold ez; lia)).
  pose proof (pow2_pos (e2 - ez) ltac:(unfold ez; lia)).
  destruct (Z.pos m1 * 2 ^ (e1 - ez) + Z.pos m2 * 2 ^ (e2 - ez)) as [|p|p] eqn:E; try nia.
  unfold binary_normalize. apply binary_round_round_rat.
Qed.

(** ** Order and integers *)

Lemma le_units (m1 m2 : positive) (e1 e2 : Z) :
  canonical m1 e1 -> canonical m2 e2 ->
  num_le (S754_finite false m1 e1) (S754_finite false m2 e2) = true ->
  units m1 e1 <= units m2 e2.
Proof.
  intros H1 H2. unfold num_le, SFleb, SFcompare, units.
  destruct (canonical_bounds m1 e1 H1) as (He1 & Hm1 & Hn1).
  destruct (canonical_bounds m2 e2 H2) as (He2 & Hm2 & Hn2).
  destruct (Z.compare_spec e1 e2) as [->|Hlt|Hgt].
  - change (Pos.compare_cont Eq m1 m2) with (m1 ?= m2)%positive.
    destruct (m1 ?= m2)%positive eqn:E; try discriminate; intros _.
    + apply Pos.compare_eq in E. subst. lia.
    + rewrite Pos.compare_lt_iff in E. pose proof (pow2_pos (e2 + 1074) ltac:(lia)).
      apply Z.mul_le_mono_nonneg_r; lia.
  - intros _.
    assert (Hn : 2 ^ 52 <= Z.pos m2) by (destruct Hn2; lia).
    pose proof (pow2_pos (e1 + 1074) ltac:(lia)) as P1.
    assert (E : 2 ^ (e2 + 1074) = 2 ^ (e1 + 1074) * 2 ^ (e2 - e1)).
    { rewrite <- Z.pow_add_r by lia. f_equal. lia. }
    assert (2 <= 2 ^ (e2 - e1)).
    { change 2 with (2 ^ 1) at 1. apply Z.pow_le_mono_r; lia. }
    rewrite E. assert (2 ^ 53 = 2 * 2 ^ 52) by reflexivity. nia.
  - discriminate.
Qed.

(** An integer datum is a whole number of times [2^1074] units. *)
Lemma integer_units (m : positive) (e : Z) :
  -1074 <= e -> is_integer (S754_finite false m e) = true ->
  exists n, 0 < n /\ units m e = n * 2 ^ 1074.
Proof.
  intros He. unfold is_integer, units. rewrite orb_true_iff, Z.leb_le, Z.eqb_eq.
  intros [H|H].
  - exists (Z.pos m * 2 ^ e). pose proof (pow2_pos e H). split; [nia|].
    rewrite Z.pow_add_r by lia. ring.
  - destruct (Z_le_gt_dec 0 e) as [Hpos|Hneg].
    + exists (Z.pos m * 2 ^ e). pose proof (pow2_pos e Hpos). split; [nia|].
      rewrite Z.pow_add_r by lia. ring.
    + pose proof (pow2_pos (- e) ltac:(lia)) as P.
      pose proof (Z.div_mod (Z.pos m) (2 ^ (- e)) ltac:(lia)) as D. rewrite H in D.
      exists (Z.pos m / 2 ^ (- e)). split; [nia|].
      replace (2 ^ 1074) with (2 ^ (- e) * 2 ^ (e + 1074))
        by (rewrite <- Z.pow_add_r by lia; f_equal; lia).
      nia.
Qed.

Lemma num_of_Z_nonneg (n : Z) : 0 <= n -> num_of_Z n = round_rat false n 1.
Proof.
  intros H. unfold num_of_Z, round_dec. replace (n <? 0) with false by lia.
  replace (0 <=? 0) with true by reflexivity. rewrite Z.pow_0_r, Z.mul_1_r. reflexivity.
Qed.

(** [Math.round] does not go below an integer that its argument is above. *)
Lemma Math_round_ge (mc my : positive) (ec ey : Z) :
  canonical mc ec -> canonical my ey ->
  is_integer (S754_finite false mc ec) = true ->
  num_le (S754_finite false mc ec) (S754_finite false my ey) = true ->
  num_le (S754_finite false mc ec) (Math_round (S754_finite false my ey)) = true.
Proof.
  intros Hc Hy Hint Hle. unfold Math_round.
  destruct (0 <=? ey) eqn:E; [exact Hle|]. apply Z.leb_gt in E.
  destruct (canonical_bounds mc ec Hc) as (Hec & _).
  destruct (canonical_bounds my ey Hy) as (Hey & _).
  destruct (integer_units mc ec ltac:(lia) Hint) as (n & Hn & Hu).
  pose proof (le_units mc my ec ey Hc Hy Hle) as Hlu. rewrite Hu in Hlu.
  unfold units in Hlu.
  pose proof (pow2_pos (- ey) ltac:(lia)) as P.
  pose proof (pow2_pos (ey + 1074) ltac:(lia)) as P'.
  assert (E1074 : 2 ^ 1074 = 2 ^ (- ey) * 2 ^ (ey + 1074)).
  { rewrite <- Z.pow_add_r by lia. f_equal. lia. }
  rewrite E1074 in Hlu.
  assert (Hn' : n * 2 ^ (- ey) <= Z.pos my).
  { apply (Z.mul_le_mono_pos_r _ _ (2 ^ (ey + 1074)) P'). lia. }
  assert (E2 : 2 ^ (1 - ey) = 2 * 2 ^ (- ey)).
  { replace (1 - ey) with (Z.succ (- ey)) by lia. rewrite Z.pow_succ_r by lia. reflexivity. }
  assert (Hq : n <= (2 * Z.pos my + 2 ^ (- ey)) / 2 ^ (1 - ey)).
  { apply Z.div_le_lower_bound; [lia|]. rewrite E2. nia. }
  set (q := (2 * Z.pos my + 2 ^ (- ey)) / 2 ^ (1 - ey)) in *.
  replace (q =? 0) with false by lia.
  rewrite num_of_Z_nonneg by lia.
  apply round_rat_ge; [exact Hc | lia|]. rewrite Hu. nia.
Qed.

(** ** The step is never negative *)

Lemma binary_round_aux_sign (m e : Z) (l : location) :
  nonneg_or_nan (binary_round_aux prec emax false m e l).
Proof.
  unfold binary_round_aux.
  destruct (shr_fexp prec emax m e l) as [mrs' e'].
  destruct (shr_fexp prec emax _ e' loc_Exact) as [mrs'' e''].
  destruct (shr_m mrs''); [exact I | | exact I].
  destruct (e'' <=? emax - prec); exact I.
Qed.

Lemma step_sign (imei : number) : nonneg_or_nan (step imei).
Proof.
  unfold step, num_mul, Math_sqrt.
  change (num_of_Z 1024) with (S754_finite false 4503599627370496 (-42)).
  destruct imei as [s|[|]| |[|] m e]; try exact I.
  unfold SFsqrt.
  destruct (SFsqrt_core_binary prec emax (Z.pos m) e) as [[mz ez] lz].
  pose proof (binary_round_aux_sign mz ez lz) as H.
  destruct (binary_round_aux prec emax false mz ez lz) as [s|[|]| |[|] m' e'];
    try exact I; try (exfalso; exact H).
  unfold SFmul. cbn [xorb]. apply binary_round_aux_sign.
Qed.

(** ** The sum of a code and the step *)

Lemma num_le_refl_finite (m : positive) (e : Z) :
  num_le (S754_finite false m e) (S754_finite false m e) = true.
Proof. apply finite_le. right. split; [reflexivity | lia]. Qed.

Lemma sum_positive (mc : positive) (ec : Z) (st : number) :
  canonical mc ec -> nonneg_or_nan st ->
  is_finite (num_add (S754_finite false mc ec) st) = true ->
  exists my ey,
    num_add (S754_finite false mc ec) st = S754_finite false my ey
    /\ canonical my ey
    /\ num_le (S754_finite false mc ec) (S754_finite false my ey) = true.
Proof.
  intros Hc Hst Hfin.
  destruct st as [s|[|]| |[|] ms es]; try (exfalso; exact Hst); try discriminate.
  - (* the step is zero *)
    exists mc, ec. split; [reflexivity|]. split; [exact Hc | apply num_le_refl_finite].
  - (* a positive step *)
    rewrite num_add_positive in *. cbv zeta in *.
    set (ez := Z.min ec es) in *.
    set (a := (Z.pos mc * 2 ^ (ec - ez) + Z.pos ms * 2 ^ (es - ez)) * 2 ^ Z.max 0 ez) in *.
    set (d := 2 ^ Z.max 0 (- ez)) in *.
    assert (Hd : 0 < d) by (apply pow2_pos; lia).
    destruct (canonical_bounds mc ec Hc) as (Hec & _).
    assert (Hge : num_le (S754_finite false mc ec) (round_rat false a d) = true).
    { apply round_rat_ge; [exact Hc | exact Hd|].
      unfold units, a, d.
      pose proof (pow2_pos (es - ez) ltac:(unfold ez; lia)).
      pose proof (pow2_pos (Z.max 0 ez) ltac:(lia)).
      pose proof (pow2_pos 1074 ltac:(lia)).
      assert (E : Z.pos mc * 2 ^ (ec + 1074) * 2 ^ Z.max 0 (- ez)
                  = Z.pos mc * 2 ^ (ec - ez) * 2 ^ Z.max 0 ez * 2 ^ 1074).
      { rewrite <- !Z.mul_assoc, <- !Z.pow_add_r by (unfold ez; lia).
        do 2 f_equal. unfold ez. lia. }
      rewrite E. nia. }
    pose proof (round_rat_wf false a d Hd) as Hwf.
    destruct (round_rat false a d) as [s|s| |[|] my ey]; try discriminate.
    exists my, ey. split; [reflexivity|]. split; [apply wf_finite in Hwf; exact Hwf | exact Hge].
Qed.

Lemma positive_cases (c : number) :
  num_lt (num_of_Z 0) c = true ->
  c = S754_infinity false \/ exists m e, c = S754_finite false m e.
Proof.
  destruct c as [s|[|]| |[|] m e]; try discriminate; intros _; [left; reflexivity | right; eauto].
Qed.

Lemma nonfinite_text (y : number) :
  is_finite y = false -> Math_round (Number (padStart0 16 (ToString y))) = NaN.
Proof. destruct y as [s|[|]| |s m e]; try discriminate; intros _; reflexivity. Qed.

Lemma infinite_sum (st : number) : is_finite (num_add (S754_infinity false) st) = false.
Proof. destruct st as [s|[|]| |s m e]; reflexivity. Qed.

(** A positive code and a finite sum: the sum is a positive datum, not
    below the code, and its padded text reads back as the sum. *)
Lemma sum_reads_back (imei : number) (m : positive) (e : Z) :
  canonical m e ->
  is_finite (num_add (S754_finite false m e) (step imei)) = true ->
  exists my ey,
    num_add (S754_finite false m e) (step imei) = S754_finite false my ey
    /\ canonical my ey
    /\ num_le (S754_finite false m e) (S754_finite false my ey) = true
    /\ Number (padStart0 16 (ToString (S754_finite false my ey))) = S754_finite false my ey.
Proof.
  intros Hc Hfin.
  destruct (sum_positive m e (step imei) Hc (step_sign imei) Hfin) as (my & ey & E & Hy & Hle).
  exists my, ey. split; [exact E|]. split; [exact Hy|]. split; [exact Hle|].
  apply Number_pad_ToString. exact Hy.
Qed.

Lemma default_code_eq : default_code = S754_finite false 8000000000000000 (-3).
Proof. vm_compute. reflexivity. Qed.

Lemma above_default_positive (c : number) :
  num_ge c default_code = true -> num_lt (num_of_Z 0) c = true.
Proof.
  rewrite default_code_eq. intros Hge.
  destruct c as [s|[|]| |[|] m e]; try discriminate Hge; reflexivity.
Qed.

(** C8, amended.  The step [sqrt(imei) * 1024] is used as it is, without
    truncation; it is added to the code first, and the zero-padding is applied
    to the decimal text of the sum, which is then read back and rounded by
    [Math.round] (to the nearest integer, ties upwards).  For a positive
    code the result is [Math.round] of the sum when the sum is finite, since
    the padding then does not change the value, and NaN when it is not. *)
Theorem nextCode_formula (imei c : number) :
  wf c -> num_lt (num_of_Z 0) c = true ->
  nextCode imei c
  = if is_finite (num_add c (step imei)) then Math_round (num_add c (step imei))
    else NaN.
Proof.
  intros Hwf Hpos. unfold nextCode.
  destruct (is_finite (num_add c (step imei))) eqn:Hfin; [|apply nonfinite_text; exact Hfin].
  destruct (positive_cases c Hpos) as [->|(m & e & ->)].
  { rewrite infinite_sum in Hfin. discriminate Hfin. }
  apply wf_finite in Hwf.
  destruct (sum_reads_back imei m e Hwf Hfin) as (my & ey & -> & _ & _ & ->).
  reflexivity.
Qed.

Lemma nextCode_formula_witness :
  wf default_code /\ num_lt (num_of_Z 0) default_code = true
  /\ nextCode sample_imei default_code
     = if is_finite (num_add default_code (step sample_imei))
       then Math_round (num_add default_code (step sample_imei)) else NaN.
Proof.
  split; [reflexivity|]. split; [reflexivity|].
  apply (nextCode_formula sample_imei default_code); reflexivity.
Defined.

(** C10, amended.  For a code of at least 1000000000000000 whose sum with
    the step is finite, the text of the sum, padded and read back, is the
    sum itself, so [nextCode] is [Math.round] of the sum. *)
Theorem padding_keeps_the_sum (imei c : number) :
  wf c -> num_ge c default_code = true ->
  is_finite (num_add c (step imei)) = true ->
  Number (padStart0 16 (ToString (num_add c (step imei)))) = num_add c (step imei)
  /\ nextCode imei c = Math_round (num_add c (step imei)).
Proof.
  intros Hwf Hge Hfin.
  assert (Hpos : num_lt (num_of_Z 0) c = true) by (apply above_default_positive; exact Hge).
  destruct (positive_cases c Hpos) as [->|(m & e & ->)].
  { rewrite infinite_sum in Hfin. discriminate Hfin. }
  apply wf_finite in Hwf. unfold nextCode.
  destruct (sum_reads_back imei m e Hwf Hfin) as (my & ey & -> & _ & _ & ->).
  split; reflexivity.
Qed.

Lemma padding_keeps_the_sum_witness :
  wf default_code /\ num_ge default_code default_code = true
  /\ is_finite (num_add default_code (step sample_imei)) = true
  /\ Number (padStart0 16 (ToString (num_add default_code (step sample_imei))))
     = num_add default_code (step sample_imei)
  /\ nextCode sample_imei default_code
     = Math_round (num_add default_code (step sample_imei)).
Proof.
  split; [reflexivity|]. split; [reflexivity|]. split; [reflexivity|].
  apply (padding_keeps_the_sum sample_imei default_code); reflexivity.
Defined.



(** ** The generator on concrete inputs *)


(** C8 as stated fails.  For the identifier 490154203237518 the step is
    22670772677.921318: [nextCode] turns 1000000000000000 into
    1000022670772678, the formula with the truncated step into
    1000022670772677. *)
Lemma nextCode_is_not_the_pinned_formula :
  ToString (step (num_of_Z 490154203237518)) = "22670772677.921318"
  /\ nextCode (num_of_Z 490154203237518) default_code = num_of_Z 1000022670772678
  /\ nextCode_spec (num_of_Z 490154203237518) default_code = num_of_Z 1000022670772677.
Proof. vm_compute. repeat split. Qed.

(** C10 as stated fails.  Infinity is a code above 1000000000000000 that a
    checkpoint file can hold; its text "Infinity" is padded to
    "00000000Infinity", which reads back as NaN, while [Math.round] of the
    sum is Infinity.  And for the code 10^21 with the identifier 1 the
    padding changes the text, "1e+21", although not the value. *)
Lemma padding_is_not_the_identity :
  num_ge Infinity default_code = true
  /\ padStart0 16 (ToString (num_add Infinity (step sample_imei))) = "00000000Infinity"
  /\ nextCode sample_imei Infinity = NaN
  /\ Math_round (num_add Infinity (step sample_imei)) = Infinity
  /\ ToString (num_add (round_dec false 1 21) (step (num_of_Z 1))) = "1e+21"
  /\ padStart0 16 (ToString (num_add (round_dec false 1 21) (step (num_of_Z 1))))
     = "000000000001e+21".
Proof. vm_compute. repeat split. Qed.

(* ===================================================================== *)
(** * 11. The checkpoint reader                                           *)
(* ===================================================================== *)

Lemma Number_dec_string (n : Z) : 0 <= n -> Number (dec_string n) = num_of_Z n.
Proof.
  intros Hn.
  pose proof (dec_string_digits n Hn) as Hd.
  pose proof (dec_string_nonempty n) as Hl.
  pose proof (dec_string_val n Hn) as Hv.
  pose proof (parse_integer (dec_string n) Hd Hl) as Hp.
  destruct (dec_string n) as [|c rest] eqn:E; [simpl in Hl; lia|].
  simpl in Hd. apply andb_true_iff in Hd as [Hc Hr].
  rewrite Number_numeric by (try exact Hc; apply all_digits_num; exact Hr).
  rewrite Hp, Hv. unfold num_of_Z. replace (n <? 0) with false by lia. reflexivity.
Qed.

Lemma num_of_Z_positive (n : Z) :
  0 < n -> num_le (num_of_Z n) (num_of_Z 0) = false.
Proof.
  intros Hn. rewrite num_of_Z_nonneg by lia.
  assert (H1 : canonical 4503599627370496 (-52)) by (split; [reflexivity | lia]).
  pose proof (round_rat_ge 4503599627370496 (-52) n 1 H1 ltac:(lia)) as H.
  assert (Hu : units 4503599627370496 (-52) * 1 <= n * 2 ^ 1074).
  { unfold units. change (4503599627370496 * 2 ^ (-52 + 1074)) with (2 ^ 1074).
    pose proof (pow2_pos 1074 ltac:(lia)). nia. }
  specialize (H Hu).
  destruct (round_rat false n 1) as [s|[|]| |[|] m e]; try discriminate; reflexivity.
Qed.


(* ===================================================================== *)
(** * 12. The search as a whole                                         *)
(* ===================================================================== *)

(** ** Rules for running the computations of the process *)

Section SearchFacts.
Local Open Scope list_scope.
Context {D : Type}.
Variable phone : device D.
Variable cfg : config.
Variable msgs : adb_messages.

Lemma wp_bind {A B : Type} (c : @M D A) (k : A -> @M D B) N E (st : machine D) :
  wp c (fun a => wp (k a) N E) E st -> wp (bind c k) N E st.
Proof.
  unfold wp, bind. destruct (c st) as [[a| | |] st']; simpl; auto.
Qed.

Lemma wp_get {B : Type} (k : Bruteforce -> @M D B) N E (st : machine D) :
  wp (k (this st)) N E st -> wp (bind get_this k) N E st.
Proof. intros H. exact H. Qed.

Lemma wp_set {B : Type} (f : Bruteforce -> Bruteforce) (k : unit -> @M D B) N E
    (st : machine D) :
  wp (k tt) N E (Machine (f (this st)) (dev st) (files st) (log st) (handlers st)
                         (interrupt st) (commands st) (unhandled st)) ->
  wp (bind (set_this f) k) N E st.
Proof. intros H. exact H. Qed.

Lemma wp_emit {B : Type} (e : event) (k : unit -> @M D B) N E (st : machine D) :
  wp (k tt) N E (Machine (this st) (dev st) (files st) (log st ++ [e]) (handlers st)
                         (interrupt st) (commands st) (unhandled st)) ->
  wp (bind (emit e) k) N E st.
Proof. intros H. exact H. Qed.

Lemma wp_ret {A : Type} (a : A) (N : A -> machine D -> Prop) E (st : machine D) :
  N a st -> wp (ret a) N E st.
Proof. intros H. exact H. Qed.

Lemma wp_throw {A : Type} (e : exception) (N : A -> machine D -> Prop) E (st : machine D) :
  E (Throw e) st -> wp (throw e) N E st.
Proof. intros H. exact H. Qed.

Lemma wp_attemptCode (code : number) N E (st : machine D) :
  handlers st = false ->
  (forall out d, oem_unlock phone (dev st) code = (out, d) ->
     let st1 := Machine (this st) d (files st) (log st ++ [EvAttempt code]) false
                        (interrupt st) in
     (forall e, unhandled st = Some e -> E (Throw e) (st1 (commands st) (Some e)))
     /\ (unhandled st = None ->
         (interrupt st = Some (commands st) -> E Killed (st1 (S (commands st)) None))
         /\ (interrupt st <> Some (commands st) ->
             match out with
             | None => E (Throw ExecError) (st1 (S (commands st)) None)
             | Some text =>
                 match classify msgs (throwOnUnknownErrors cfg)
                                (trim (toLowerCase text)) with
                 | Return b => N b (st1 (S (commands st)) None)
                 | r => E (outcome r) (st1 (S (commands st)) None)
                 end
             end))) ->
  wp (attemptCode phone cfg msgs code) N E st.
Proof.
  intros Hh H. unfold wp, attemptCode, bind, emit, await_device, throw.
  cbn [this dev files log handlers interrupt commands unhandled fst snd].
  destruct (oem_unlock phone (dev st) code) as [out d] eqn:Hd.
  specialize (H out d eq_refl). cbn zeta in H. destruct H as [HC HN].
  rewrite Hh. destruct (unhandled st) as [e|] eqn:Hu.
  { apply (HC e). reflexivity. }
  destruct (HN eq_refl) as [HK HR].
  destruct (decide _) as [e|n].
  - apply HK. exact e.
  - specialize (HR n). destruct out as [text|]; [|exact HR].
    destruct (classify _ _ _) as [b| | |]; exact HR.
Qed.

Lemma wp_rebootDevice N E (st : machine D) :
  handlers st = false ->
  (forall ok d, reboot_bootloader phone (dev st) = (ok, d) ->
     let st1 := Machine (this st) d (files st) (log st ++ [EvReboot]) false
                        (interrupt st) in
     (forall e, unhandled st = Some e -> E (Throw e) (st1 (commands st) (Some e)))
     /\ (unhandled st = None ->
         (interrupt st = Some (commands st) -> E Killed (st1 (S (commands st)) None))
         /\ (interrupt st <> Some (commands st) ->
             if ok then N tt (st1 (S (commands st)) None)
             else E (Throw ExecError) (st1 (S (commands st)) None)))) ->
  wp (rebootDevice phone cfg) N E st.
Proof.
  intros Hh H. unfold wp, rebootDevice, bind, emit, await_device, throw, ret.
  cbn [this dev files log handlers interrupt commands unhandled fst snd].
  destruct (reboot_bootloader phone (dev st)) as [ok d] eqn:Hd.
  specialize (H ok d eq_refl). cbn zeta in H. destruct H as [HC HN].
  rewrite Hh. destruct (unhandled st) as [e|] eqn:Hu.
  { apply (HC e). reflexivity. }
  destruct (HN eq_refl) as [HK HR].
  destruct (decide _) as [e|n].
  - apply HK. exact e.
  - specialize (HR n). destruct ok; exact HR.
Qed.

Lemma wp_saveLastState {B : Type} (code : number) (k : unit -> @M D B) N E
    (st : machine D) :
  wp (k tt) N E (Machine (this st) (dev st) (files st) (log st ++ [EvSaveLastState code])
                         (handlers st) (interrupt st) (commands st)
                         (unawaited (@Throw unit ERR_INVALID_ARG_TYPE) (unhandled st))) ->
  wp (bind (saveLastState cfg code) k) N E st.
Proof. intros H. exact H. Qed.

Lemma wp_saveBootloaderCode {B : Type} (code : number) (k : unit -> @M D B) N E
    (st : machine D) :
  wp (k tt) N E (Machine (this st) (dev st)
                         (<[code_file (imei cfg) := code_text cfg code]> (files st))
                         (log st ++ [EvSaveBootloaderCode code])
                         (handlers st) (interrupt st) (commands st) (unhandled st)) ->
  wp (bind (saveBootloaderCode cfg code) k) N E st.
Proof.
  intros H. unfold wp, bind, saveBootloaderCode in *.
  cbn [writeFileSync unawaited] in *. destruct (unhandled st); exact H.
Qed.

Lemma reboots_app (l1 l2 : list event) :
  reboots (l1 ++ l2) = (reboots l1 + reboots l2)%nat.
Proof. unfold reboots. rewrite List.filter_app, length_app. reflexivity. Qed.

Lemma tail_snoc {A : Type} (l : list A) (x y : A) :
  tail ((l ++ [x]) ++ [y]) = tail (l ++ [x]) ++ [y].
Proof. destruct l; reflexivity. Qed.

Lemma last_attempt (l : list number) (c : number) : last (l ++ [c]) = Some c.
Proof. apply last_snoc. Qed.


Lemma attempts_snoc (l : list event) (e : event) :
  attempts (l ++ [e])
  = attempts l ++ match e with EvAttempt c => [c] | _ => [] end.
Proof. rewrite attempts_app. destruct e; reflexivity. Qed.

Lemma saves_snoc (l : list event) (e : event) :
  saves (l ++ [e])
  = (saves l + match e with EvSaveLastState _ => 1 | _ => 0 end)%nat.
Proof. rewrite saves_app. destruct e; reflexivity. Qed.

Lemma reboots_snoc (l : list event) (e : event) :
  reboots (l ++ [e]) = (reboots l + match e with EvReboot => 1 | _ => 0 end)%nat.
Proof. rewrite reboots_app. destruct e; reflexivity. Qed.

Lemma wp_saveLastState_end (code : number) (N : unit -> machine D -> Prop) E
    (st : machine D) :
  N tt (Machine (this st) (dev st) (files st) (log st ++ [EvSaveLastState code])
                (handlers st) (interrupt st) (commands st)
                (unawaited (@Throw unit ERR_INVALID_ARG_TYPE) (unhandled st))) ->
  wp (saveLastState cfg code) N E st.
Proof. intros H. exact H. Qed.

Lemma wp_seq {A B : Type} (c : @M D A) (k : A -> @M D B) (Q : A -> machine D -> Prop)
    N E (st : machine D) :
  wp c Q E st -> (forall a st', Q a st' -> wp (k a) N E st') -> wp (bind c k) N E st.
Proof.
  unfold wp, bind. intros Hc Hk. destruct (c st) as [[a| | |] st']; simpl in *; auto.
  apply Hk. exact Hc.
Qed.

Lemma times_le (b : bool) (n m : nat) : (n <= m)%nat -> (times b n <= times b m)%nat.
Proof. destruct b; simpl; lia. Qed.

Variable fs0 : gmap string string.
Variable sig : option nat.

Lemma in_time_next (st : machine D) (d : D) (l : list event) (b : Bruteforce)
    (u : option exception) :
  interrupt st = sig -> in_time sig st -> interrupt st <> Some (commands st) ->
  in_time sig (Machine b d (files st) l false (interrupt st) (S (commands st)) u).
Proof.
  intros Hi Ht Hn n Hs. specialize (Ht n Hs). cbn.
  assert (commands st <> n) by (intros E; apply Hn; rewrite Hi, E; exact Hs). lia.
Qed.

Lemma rejection_after_none (n : nat) : rejection_after n = None -> n = 0%nat.
Proof. destruct n; [reflexivity | discriminate]. Qed.

Lemma rejection_after_some (n : nat) (e : exception) :
  rejection_after n = Some e -> e = ERR_INVALID_ARG_TYPE /\ (1 <= n)%nat.
Proof. destruct n; [discriminate|]. intros [= <-]. split; [reflexivity | lia]. Qed.

Lemma times_true (b : bool) (n : nat) : b = true -> times b n = n.
Proof. intros ->. reflexivity. Qed.

Lemma times_pos (b : bool) (n m : nat) : times b n = S m -> b = true /\ n = S m.
Proof. destruct b; cbn; [intros ->; split; reflexivity | discriminate]. Qed.

Lemma classify_throws (m : adb_messages) (t : bool) (text : string) (e : exception) :
  classify m t text = Throw e ->
  (forall x, e <> CodeNotFoundException x) /\ e <> ERR_INVALID_ARG_TYPE.
Proof.
  unfold classify. intros Hc.
  repeat match type of Hc with
         | (if ?b then _ else _) = _ => destruct b
         end; try discriminate Hc; injection Hc as <-; split; try intros x; discriminate.
Qed.

Lemma bruteforce_search (fuel : nat) (st : machine D) :
  search_head cfg fs0 sig st ->
  wp (bruteforce phone cfg msgs fuel) (search_found cfg fs0 sig false)
     (search_ended cfg fs0 sig) st.
Proof.
  revert st. induction fuel as [|fuel IH];
    intros st (Hat & Htime & [Hs Hr] & Hcur & Hone & Hu).
  - unfold wp. cbn. split; [exact Hat|]. split; [right; exact Htime|].
    split; [rewrite Hs; split; [apply times_le; lia | lia]|].
    split; [rewrite Hr; split; [|lia]; apply le_n_S, times_le; lia|].
    split; [intros m Hm; discriminate Hm|].
    right. split; [discriminate|]. split; [exact Hone|].
    intros Hd. rewrite (times_true _ _ Hd) in Hs. lia.
  - rewrite bruteforce_S. apply wp_get.
    destruct Hat as [Hh Hi Hf Ha Hsv Hrb Hbl].
    set (c := currentCode (this st)).
    assert (Hbl' : Forall below_ceiling (tail (attempts (log st) ++ [c]))).
    { destruct (attempts (log st)) as [|a l] eqn:El; [constructor|].
      cbn in *. apply Forall_app. split; [exact Hbl|].
      constructor; [apply Hcur; discriminate | constructor]. }
    set (na := List.length (attempts (log st))) in *.
    apply (wp_seq _ _ (fun (_ : bool) st1 =>
             search_at sig false fs0 st1 /\ in_time sig st1
             /\ tally cfg na st1
             /\ attempts (log st1) = attempts (log st) ++ [c]
             /\ currentCode (this st1) = c
             /\ saves (log st1) = 0%nat /\ unhandled st1 = None)).
    { apply wp_attemptCode; [exact Hh|]. intros out d Hd st1.
      assert (Hat1 : forall n u, search_at sig false fs0 (st1 n u)).
      { intros n u. subst st1. split; cbn [handlers interrupt files this log];
          try assumption; try reflexivity.
        rewrite attempts_app. exact Hbl'. }
      assert (Hatt : forall n u, attempts (log (st1 n u)) = attempts (log st) ++ [c]).
      { intros n u. subst st1. cbn [log]. rewrite attempts_app. reflexivity. }
      assert (Hlen : forall n u, List.length (attempts (log (st1 n u))) = S na).
      { intros n u. rewrite Hatt, length_app. cbn. subst na. lia. }
      assert (Ht1 : forall n u, tally cfg na (st1 n u)).
      { intros n u. subst st1.
        split; cbn [log]; [rewrite saves_app, Hs | rewrite reboots_app, Hr];
          cbn; lia. }
      split.
      { intros e He. rewrite He in Hu. symmetry in Hu.
        apply rejection_after_some in Hu. destruct Hu as [-> Hge].
        assert (Hs1 : saves (log st) = 1%nat) by lia.
        rewrite Hs1 in Hs. symmetry in Hs. apply times_pos in Hs.
        destruct Hs as [Hdue Hna].
        split; [apply Hat1|]. split.
        { right. intros n Hn. cbn [commands]. apply Htime. exact Hn. }
        destruct (Ht1 (commands st) (Some ERR_INVALID_ARG_TYPE)) as [Hs2 Hr2].
        rewrite Hlen, Hs2, Hr2, Hdue, Hna. cbn [times Nat.sub].
        split; [lia|]. split; [split; [lia | apply le_n_S, times_le; lia]|].
        split; [intros m Hm; discriminate Hm|].
        left. split; [reflexivity|]. split; reflexivity. }
      intros Hnone. rewrite Hnone in Hu. symmetry in Hu.
      apply rejection_after_none in Hu.
      set (st2 := st1 (S (commands st)) None).
      assert (Hend : forall r : completion unit,
                (forall m, r <> Throw (CodeNotFoundException m)) ->
                r <> Throw ERR_INVALID_ARG_TYPE ->
                r = Killed \/ interrupt st <> Some (commands st) ->
                search_ended cfg fs0 sig r st2).
      { intros r Hne Hne' Hk. split; [apply Hat1|]. split.
        { destruct Hk as [-> | Hk]; [left; reflexivity | right].
          subst st2 st1. apply in_time_next; assumption. }
        destruct (Ht1 (S (commands st)) None) as [Hs1 Hr1].
        unfold st2. rewrite Hlen, Hs1, Hr1.
        replace (S na - 1)%nat with na by lia.
        split; [split; [lia | apply times_le; lia]|].
        split; [split; [lia | apply le_n_S, times_le; lia]|].
        split; [intros m Hm; exfalso; exact (Hne m Hm)|].
        right. split; [exact Hne'|]. rewrite <- Hs, Hu. split; [lia|].
        intros Hdue. rewrite (times_true _ _ Hdue) in Hs. lia. }
      split.
      - intros _. apply Hend; [discriminate | discriminate | left; reflexivity].
      - intros Hn. destruct out as [text|].
        + destruct (classify _ _ _) as [b|e| |] eqn:Hc.
          * split; [apply Hat1|].
            split; [subst st1; apply in_time_next; assumption|].
            split; [apply Ht1|]. split; [apply Hatt|]. split; [reflexivity|].
            split; [|reflexivity].
            destruct (Ht1 (S (commands st)) None) as [Hs1 _].
            exact (eq_trans Hs1 (eq_trans (eq_sym Hs) Hu)).
          * apply classify_throws in Hc. destruct Hc as [Hc1 Hc2]. cbn [outcome].
            apply Hend; [|intros [= ->]; apply Hc2; reflexivity|right; exact Hn].
            intros m [= ->]. apply (Hc1 m). reflexivity.
          * apply Hend; [discriminate | discriminate | right; exact Hn].
          * apply Hend; [discriminate | discriminate | right; exact Hn].
        + apply Hend; [discriminate | discriminate | right; exact Hn]. }
    clear Hh Hi Hf Ha Hsv Hrb Hbl Htime Hs Hr Hcur Hone Hu.
    intros result st1 (Hat & Htime & Ht & Hatt & Hc & Hz & Hu).
    assert (Hlen : List.length (attempts (log st1)) = S na).
    { rewrite Hatt, length_app. cbn. subst na. lia. }
    destruct result.
    { apply wp_saveBootloaderCode, wp_ret.
      destruct Hat as [Hh Hi Hf Ha Hsv Hrb Hbl]. destruct Ht as [Hs Hr].
      split.
      { split; cbn [handlers interrupt files this log]; try assumption.
        - rewrite Hf. reflexivity.
        - rewrite attempts_snoc, app_nil_r. exact Hbl. }
      split; [exact Htime|].
      unfold tally. cbn [log this unhandled]. rewrite attempts_snoc, app_nil_r, Hlen.
      replace (S na - 1)%nat with na by lia.
      split; [split; [rewrite saves_snoc | rewrite reboots_snoc]; lia|].
      split; [exact Hc|]. split; [rewrite Hatt; apply last_snoc|].
      split; [rewrite saves_snoc; lia | exact Hu]. }
    apply (wp_seq _ _ (fun (_ : unit) st2 =>
             search_at sig false fs0 st2 /\ in_time sig st2
             /\ saves (log st2) = times (due (saveStateAfter cfg)) na
             /\ reboots (log st2) = S (times (due (autorebootAfter cfg)) (S na))
             /\ attempts (log st2) = attempts (log st) ++ [c]
             /\ currentCode (this st2) = c
             /\ saves (log st2) = 0%nat /\ unhandled st2 = None)).
    { destruct Hat as [Hh Hi Hf Ha Hsv Hrb Hbl]. destruct Ht as [Hs Hr].
      assert (Hdue : due (autorebootAfter cfg)
                     = truthy (autorebootAfter cfg)
                       && (0 >=? nullish (autorebootAfter cfg) 0 - 1)) by reflexivity.
      destruct (truthy (autorebootAfter cfg)); cbn [andb] in Hdue.
      2:{ apply wp_ret. rewrite Hdue in *.
          split; [split; assumption|]. split; [exact Htime|]. split; [exact Hs|].
          split; [exact Hr|]. split; [exact Hatt|]. split; [exact Hc|].
          split; [exact Hz | exact Hu]. }
      apply wp_get. rewrite Ha, Hrb. change (0 - 0) with 0.
      destruct (0 >=? nullish (autorebootAfter cfg) 0 - 1).
      2:{ apply wp_ret. rewrite Hdue in *.
          split; [split; assumption|]. split; [exact Htime|]. split; [exact Hs|].
          split; [exact Hr|]. split; [exact Hatt|]. split; [exact Hc|].
          split; [exact Hz | exact Hu]. }
      rewrite Hdue in *. cbn [times] in *.
      apply wp_set, wp_rebootDevice; [exact Hh|].
      intros ok d Hd st2.
      cbn [this dev files log handlers interrupt commands unhandled] in st2 |- *.
      split; [intros e He; rewrite He in Hu; discriminate Hu|]. intros _.
      set (st3 := st2 (S (commands st1)) None).
      assert (Hat2 : search_at sig false fs0 st3).
      { subst st3 st2. split; cbn [handlers interrupt files this log]; try assumption;
          try reflexivity.
        rewrite attempts_snoc, app_nil_r. exact Hbl. }
      assert (Hatt2 : attempts (log st3) = attempts (log st) ++ [c]).
      { subst st3 st2. cbn [log]. rewrite attempts_snoc, app_nil_r. exact Hatt. }
      assert (Hs2 : saves (log st3) = times (due (saveStateAfter cfg)) na).
      { subst st3 st2. cbn [log]. rewrite saves_snoc. lia. }
      assert (Hz2 : saves (log st3) = 0%nat).
      { subst st3 st2. cbn [log]. rewrite saves_snoc. lia. }
      assert (Hr2 : reboots (log st3) = S (S na)).
      { subst st3 st2. cbn [log]. rewrite reboots_snoc, Hr. lia. }
      assert (Hend : forall r : completion unit,
                (forall m, r <> Throw (CodeNotFoundException m)) ->
                r <> Throw ERR_INVALID_ARG_TYPE ->
                r = Killed \/ interrupt st1 <> Some (commands st1) ->
                search_ended cfg fs0 sig r st3).
      { intros r Hne Hne' Hk. split; [exact Hat2|]. split.
        { destruct Hk as [-> | Hk]; [left; reflexivity | right].
          subst st3 st2. apply in_time_next; assumption. }
        rewrite Hatt2, <- Hatt, Hlen, Hs2, Hr2, Hdue. cbn [times].
        replace (S na - 1)%nat with na by lia.
        split; [split; [lia | apply times_le; lia]|].
        split; [lia|].
        split; [intros m Hm; exfalso; exact (Hne m Hm)|].
        right. split; [exact Hne'|]. rewrite <- Hs2, Hz2. split; [lia|].
        intros Hd1. rewrite (times_true _ _ Hd1) in Hs2. lia. }
      split.
      - intros _. apply Hend; [discriminate | discriminate | left; reflexivity].
      - intros Hn. destruct ok.
        + split; [exact Hat2|].
          split; [subst st3 st2; apply in_time_next; assumption|].
          split; [exact Hs2|]. split; [exact Hr2|]. split; [exact Hatt2|].
          split; [exact Hc|]. split; [exact Hz2 | reflexivity].
        + apply Hend; [discriminate | discriminate | right; exact Hn]. }
    clear dependent st1. intros _ st2 (Hat & Htime & Hs & Hr & Hatt & Hc & Hz & Hu).
    apply (wp_seq _ _ (fun (_ : unit) st3 =>
             search_at sig false fs0 st3 /\ in_time sig st3
             /\ tally cfg (S na) st3
             /\ attempts (log st3) = attempts (log st) ++ [c]
             /\ currentCode (this st3) = c
             /\ (saves (log st3) <= 1)%nat
             /\ unhandled st3 = rejection_after (saves (log st3)))).
    { destruct Hat as [Hh Hi Hf Ha Hsv Hrb Hbl].
      assert (Hdue : due (saveStateAfter cfg)
                     = truthy (saveStateAfter cfg)
                       && (0 >=? nullish (saveStateAfter cfg) 0 - 1)) by reflexivity.
      assert (Hskip : due (saveStateAfter cfg) = false ->
                search_at sig false fs0 st2 /\ in_time sig st2
                /\ tally cfg (S na) st2
                /\ attempts (log st2) = attempts (log st) ++ [c]
                /\ currentCode (this st2) = c
                /\ (saves (log st2) <= 1)%nat
                /\ unhandled st2 = rejection_after (saves (log st2))).
      { intros Hd. split; [split; assumption|]. split; [exact Htime|].
        unfold tally. rewrite Hd in *. cbn [times] in *.
        split; [split; assumption|]. split; [exact Hatt|]. split; [exact Hc|].
        rewrite Hz. split; [lia | exact Hu]. }
      destruct (truthy (saveStateAfter cfg)); cbn [andb] in Hdue.
      2:{ apply wp_ret. exact (Hskip Hdue). }
      apply wp_get. rewrite Ha, Hsv. change (0 - 0) with 0.
      destruct (0 >=? nullish (saveStateAfter cfg) 0 - 1).
      2:{ apply wp_ret. exact (Hskip Hdue). }
      clear Hskip. rewrite Hdue in *. cbn [times] in *.
      apply wp_set, wp_saveLastState_end.
      cbn [this dev files log handlers interrupt commands unhandled].
      split.
      { split; cbn [handlers interrupt files this log set_lastSavedAttempt attempt
                    lastSavedAttempt lastRebootAttempt]; try assumption;
          try reflexivity.
        rewrite attempts_snoc, app_nil_r. exact Hbl. }
      split; [exact Htime|].
      split.
      { split; cbn [log]; [rewrite saves_snoc, Hs, Hdue; cbn [times]; lia |].
        rewrite reboots_snoc, Hr. lia. }
      cbn [log this set_lastSavedAttempt currentCode].
      rewrite attempts_snoc, app_nil_r. split; [exact Hatt|]. split; [exact Hc|].
      rewrite saves_snoc, Hz, Hu. cbn. split; [lia | reflexivity]. }
    clear dependent st2. intros _ st3 (Hat & Htime & Ht & Hatt & Hc & Hone & Hu).
    apply wp_set, wp_get. cbn [this set_currentCode currentCode].
    rewrite Hc.
    assert (Hlen : List.length (attempts (log st3)) = S na).
    { rewrite Hatt, length_app. cbn. subst na. lia. }
    assert (Hat4 : search_at sig false fs0
                     (Machine (set_currentCode (nextCode (imei cfg) c) (this st3))
                              (dev st3) (files st3) (log st3) (handlers st3)
                              (interrupt st3) (commands st3) (unhandled st3))).
    { destruct Hat as [Hh Hi Hf Ha Hsv Hrb Hbl]. split; assumption. }
    destruct (num_ge (nextCode (imei cfg) c) ceiling) eqn:Hceil.
    + apply wp_throw. split; [exact Hat4|]. split; [right; exact Htime|].
      destruct Ht as [Hs Hr]. cbn [log this set_currentCode currentCode].
      rewrite Hlen. replace (S na - 1)%nat with na by lia.
      split; [rewrite Hs; split; [apply times_le; lia | lia]|].
      split; [rewrite Hr; split; [apply le_n_S, times_le; lia | lia]|].
      split.
      { intros m Hm. injection Hm as <-. split; [reflexivity|].
        split; [exact Hceil|]. split; assumption. }
      right. split; [discriminate|]. split; [exact Hone|].
      intros Hd. rewrite (times_true _ _ Hd) in Hs. lia.
    + apply IH. split; [exact Hat4|]. split; [exact Htime|].
      cbn [log this set_currentCode currentCode unhandled]. rewrite Hlen.
      split; [exact Ht|]. split; [intros _; exact Hceil|].
      split; [exact Hone | exact Hu].
Qed.

Lemma times_0 (b : bool) : times b 0 = 0%nat.
Proof. destruct b; reflexivity. Qed.

End SearchFacts.

Section Runs.
Local Open Scope list_scope.
Context {D : Type}.
Variable phone : device D.
Variable cfg : config.
Variable msgs : adb_messages.

Lemma start_search (fuel : nat) (d : D) (fs : gmap string string) (sig : option nat) :
  wp (start phone cfg msgs fuel)
     (fun _ st => exists c, search_found cfg fs sig true c st)
     (search_ended cfg fs sig) (boot d fs sig).
Proof.
  unfold start, boot. apply wp_set.
  cbn [this dev files log handlers interrupt commands unhandled].
  match goal with
  | |- wp (bind ?c ?k) ?N ?E ?s => change (wp (k s) N E s)
  end.
  cbn beta. apply wp_set.
  cbn [this dev files log handlers interrupt commands unhandled].
  set (b0 := set_currentCode _ _).
  assert (Hb0 : attempt b0 = 0 /\ lastSavedAttempt b0 = 0 /\ lastRebootAttempt b0 = 0)
    by (split; [|split]; reflexivity).
  clearbody b0. destruct Hb0 as (Ha & Hsv & Hrb).
  apply (wp_seq _ _ (fun (_ : unit) st1 =>
           search_at sig false fs st1 /\ in_time sig st1
           /\ attempts (log st1) = [] /\ saves (log st1) = 0%nat
           /\ reboots (log st1) = 1%nat /\ unhandled st1 = None)).
  { apply wp_rebootDevice; [reflexivity|].
    intros ok d1 Hd st0.
    cbn [this dev files log handlers interrupt commands unhandled app] in st0 |- *.
    split; [intros e He; discriminate He|]. intros _.
    set (st1 := st0 1%nat None).
    assert (Hat1 : search_at sig false fs st1).
    { subst st1 st0. split; cbn [handlers interrupt files this log]; try assumption;
        try reflexivity. constructor. }
    assert (Hend : forall r : completion unit,
              (forall m, r <> Throw (CodeNotFoundException m)) ->
              r <> Throw ERR_INVALID_ARG_TYPE ->
              r = Killed \/ sig <> Some 0%nat ->
              search_ended cfg fs sig r st1).
    { intros r Hne Hne' Hk. split; [exact Hat1|]. split.
      { destruct Hk as [-> | Hk]; [left; reflexivity | right].
        subst st1 st0. intros n Hn. cbn [commands].
        destruct n; [exfalso; apply Hk; exact Hn | lia]. }
      subst st1 st0. cbn [log]. change (attempts [EvReboot]) with (@nil number).
      change (saves [EvReboot]) with 0%nat. change (reboots [EvReboot]) with 1%nat.
      cbn [List.length Nat.sub]. rewrite !times_0.
      split; [lia|]. split; [lia|].
      split; [intros m Hm; exfalso; exact (Hne m Hm)|].
      right. split; [exact Hne'|]. split; lia. }
    split.
    - intros _. apply Hend; [discriminate | discriminate | left; reflexivity].
    - intros Hn. destruct ok.
      + split; [exact Hat1|]. split.
        { subst st1 st0. intros n Hs. cbn [commands].
          destruct n; [exfalso; apply Hn; exact Hs | lia]. }
        subst st1 st0. cbn [log unhandled]. repeat split; reflexivity.
      + apply Hend; [discriminate | discriminate | right; exact Hn]. }
  intros _ st1 (Hat & Htime & Hatt & Hs & Hr & Hu).
  apply wp_set.
  apply (wp_seq _ _ (search_found cfg fs sig false)).
  { apply bruteforce_search.
    destruct Hat as [Hh Hi Hf Ha1 Hsv1 Hrb1 Hbl].
    split; [split; assumption|]. split; [exact Htime|].
    cbn [log this unhandled]. rewrite Hatt. cbn [List.length].
    split; [split; rewrite times_0; assumption|].
    split; [intros H; exfalso; apply H; reflexivity|].
    rewrite Hs. split; [lia | exact Hu]. }
  intros c st2 (Hat2 & Htime2 & Ht2 & Hc & Hl & Hz & Hu2).
  unfold wp, register_handlers. exists c.
  destruct Hat2 as [Hh Hi Hf Ha2 Hsv2 Hrb2 Hbl].
  split.
  { split; cbn [handlers interrupt files this log]; try assumption; try reflexivity.
    rewrite attempts_snoc, app_nil_r. exact Hbl. }
  split; [exact Htime2|].
  unfold tally. cbn [log this unhandled].
  rewrite attempts_snoc, app_nil_r, saves_snoc, reboots_snoc.
  destruct Ht2 as [Hs2 Hr2]. rewrite Hs2, Hr2.
  split; [split; lia|]. split; [exact Hc|]. split; [exact Hl|].
  split; [rewrite <- Hs2, Hz; reflexivity | exact Hu2].
Qed.

(** What a run of [start] leaves, by the way it ends. *)
Lemma start_run (fuel : nat) (d : D) (fs : gmap string string) (sig : option nat) :
  let r := start phone cfg msgs fuel (boot d fs sig) in
  match fst r with
  | Return _ => exists c, search_found cfg fs sig true c (snd r)
  | Throw e => search_ended cfg fs sig (Throw e) (snd r)
  | Killed => search_ended cfg fs sig Killed (snd r)
  | OutOfFuel => search_ended cfg fs sig OutOfFuel (snd r)
  end.
Proof.
  intros r. pose proof (start_search fuel d fs sig) as H. unfold wp in H.
  fold r in H. destruct r as [[[]|e| |] st]; exact H.
Qed.


Lemma outcome_killed {A : Type} (r : completion A) : outcome r = Killed -> r = Killed.
Proof. destruct r; intros H; try discriminate H; reflexivity. Qed.

Lemma code_file_other (x : number) : code_file x <> saved_state_file x.
Proof. unfold code_file, saved_state_file. cbn. discriminate. Qed.

(** X1.  A signal that arrives while any device command of a run of [start]
    is awaited ends the process: no listener is registered during the
    search, none runs, and the files are as they were before the run. *)
Theorem signal_ends_search_unsaved (fuel : nat) (d : D) (fs : gmap string string)
    (n : nat) :
  let r := start phone cfg msgs fuel (boot d fs (Some n)) in
  (n < commands (snd r))%nat ->
  fst r = Killed
  /\ handlers (snd r) = false
  /\ ~ In EvSignalHandler (log (snd r))
  /\ files (snd r) = fs.
Proof.
  intros r Hn. pose proof (start_run fuel d fs (Some n)) as H. cbn zeta in H.
  pose proof (start_never_runs_listener phone cfg msgs fuel d fs (Some n)) as Hq.
  fold r in H, Hq. destruct r as [o st]. cbn [fst snd] in *.
  assert (G : forall o', search_ended cfg fs (Some n) o' st ->
              o' = Killed /\ handlers st = false /\ files st = fs).
  { intros o' (Hat & [Hk | Ht] & _).
    - split; [exact Hk|]. destruct Hat. split; assumption.
    - specialize (Ht n eq_refl). lia. }
  destruct o as [[]|e| |].
  - destruct H as (c & _ & Ht & _). specialize (Ht n eq_refl). lia.
  - apply G in H. destruct H as (H & _). discriminate H.
  - apply G in H. destruct H as (_ & H1 & H2). repeat split; assumption.
  - apply G in H. destruct H as (H & _). discriminate H.
Qed.

(** X2.  The listener for SIGINT and SIGTERM is registered exactly in the runs
    of [start] in which the search has returned a code. *)
Theorem listener_registered_after_success (fuel : nat) (d : D)
    (fs : gmap string string) (sig : option nat) :
  let r := start phone cfg msgs fuel (boot d fs sig) in
  handlers (snd r) = true <-> fst r = Return tt.
Proof.
  intros r. pose proof (start_run fuel d fs sig) as H. cbn zeta in H.
  fold r in H. destruct r as [o st]. cbn [fst snd] in *.
  assert (G : forall o', search_ended cfg fs sig o' st -> handlers st = false).
  { intros o' (Hat & _). destruct Hat. assumption. }
  destruct o as [[]|e| |].
  - destruct H as (c & Hat & _). destruct Hat. split; intros _; [reflexivity | assumption].
  - apply G in H. rewrite H. split; intros K; discriminate K.
  - apply G in H. rewrite H. split; intros K; discriminate K.
  - apply G in H. rewrite H. split; intros K; discriminate K.
Qed.

(** X3.  No run of [start] changes the checkpoint file, however it ends; a
    run that does not return leaves every file as it was. *)
Theorem search_keeps_checkpoint_file (fuel : nat) (d : D) (fs : gmap string string)
    (sig : option nat) :
  let r := start phone cfg msgs fuel (boot d fs sig) in
  files (snd r) !! saved_state_file (imei cfg) = fs !! saved_state_file (imei cfg)
  /\ (fst r = Return tt \/ files (snd r) = fs).
Proof.
  intros r. pose proof (start_run fuel d fs sig) as H. cbn zeta in H.
  fold r in H. destruct r as [o st]. cbn [fst snd] in *.
  assert (G : forall o', search_ended cfg fs sig o' st -> files st = fs).
  { intros o' (Hat & _). destruct Hat. assumption. }
  destruct o as [[]|e| |].
  - destruct H as (c & Hat & _). destruct Hat as [_ _ Hf _ _ _ _]. rewrite Hf.
    split; [|left; reflexivity].
    apply lookup_insert_ne, code_file_other.
  - apply G in H. rewrite H. split; [reflexivity | right; reflexivity].
  - apply G in H. rewrite H. split; [reflexivity | right; reflexivity].
  - apply G in H. rewrite H. split; [reflexivity | right; reflexivity].
Qed.

(** X4.  When a run of [start] returns, the device has accepted the last code
    submitted: that code is the current code, and the code file holds the
    sentence that names it; no other file has changed. *)
Theorem found_code_is_recorded (fuel : nat) (d : D) (fs : gmap string string)
    (sig : option nat) :
  let r := start phone cfg msgs fuel (boot d fs sig) in
  fst r = Return tt ->
  exists c,
    last (attempts (log (snd r))) = Some c
    /\ currentCode (this (snd r)) = c
    /\ files (snd r)
       = <[code_file (imei cfg) :=
             ("The bootloader code for the device with IMEI " ++ ToString (imei cfg)
              ++ " is: " ++ ToString c)%string]> fs.
Proof.
  intros r Hr. pose proof (start_run fuel d fs sig) as H. cbn zeta in H.
  fold r in H. destruct r as [o st]. cbn [fst snd] in *. subst o.
  destruct H as (c & Hat & _ & _ & Hc & Hl & _). exists c.
  destruct Hat as [_ _ Hf _ _ _ _]. repeat split; assumption.
Qed.

(** X5.  Every code that a run of [start] submits after the first one is
    below the ceiling 10000000000000000; and a run that ends with
    [CodeNotFoundException] carries the message of the source and ends at
    a current code that has reached the ceiling. *)
Theorem later_attempts_below_ceiling (fuel : nat) (d : D) (fs : gmap string string)
    (sig : option nat) :
  let r := start phone cfg msgs fuel (boot d fs sig) in
  Forall (fun c => num_ge c ceiling = false) (tail (attempts (log (snd r))))
  /\ match fst r with
     | Throw (CodeNotFoundException m) =>
         m = "No combination found"
         /\ num_ge (currentCode (this (snd r))) ceiling = true
     | _ => True
     end.
Proof.
  intros r. pose proof (start_run fuel d fs sig) as H. cbn zeta in H.
  fold r in H. destruct r as [o st]. cbn [fst snd] in *.
  assert (G : forall o', search_ended cfg fs sig o' st ->
              Forall below_ceiling (tail (attempts (log st)))).
  { intros o' (Hat & _). destruct Hat. assumption. }
  destruct o as [[]|e| |].
  - destruct H as (c & Hat & _). destruct Hat. split; [assumption | exact I].
  - split; [exact (G _ H)|]. destruct e; try exact I.
    destruct H as (_ & _ & _ & _ & He & _).
    destruct (He message eq_refl) as (Hm & Hc & _). split; assumption.
  - split; [exact (G _ H) | exact I].
  - split; [exact (G _ H) | exact I].
Qed.

(** X6.  The three counters of the object are never moved: after every run
    of [start], however it ends, [attempt], [lastSavedAttempt] and
    [lastRebootAttempt] are 0. *)
Theorem counters_stay_zero (fuel : nat) (d : D) (fs : gmap string string)
    (sig : option nat) :
  let r := start phone cfg msgs fuel (boot d fs sig) in
  attempt (this (snd r)) = 0
  /\ lastSavedAttempt (this (snd r)) = 0
  /\ lastRebootAttempt (this (snd r)) = 0.
Proof.
  intros r. pose proof (start_run fuel d fs sig) as H. cbn zeta in H.
  fold r in H. destruct r as [o st]. cbn [fst snd] in *.
  assert (G : forall o', search_ended cfg fs sig o' st ->
              attempt (this st) = 0 /\ lastSavedAttempt (this st) = 0
              /\ lastRebootAttempt (this st) = 0).
  { intros o' (Hat & _). destruct Hat. repeat split; assumption. }
  destruct o as [[]|e| |]; try exact (G _ H).
  destruct H as (c & Hat & _). destruct Hat. repeat split; assumption.
Qed.

Lemma due_never (k : Z) : 2 <= k -> due (Some k) = false.
Proof.
  intros Hk. unfold due. cbn [truthy nullish].
  replace (0 >=? k - 1) with false by lia. apply andb_false_r.
Qed.

Lemma due_one : due (Some 1) = true.
Proof. reflexivity. Qed.

(** X7.  With a checkpoint interval of two or more, no run of [start] ever
    calls [saveLastState], whatever the device answers and however long
    the search goes on. *)
Theorem no_checkpoint_with_interval_above_one (fuel : nat) (d : D)
    (fs : gmap string string) (sig : option nat) (k : Z) :
  saveStateAfter cfg = Some k -> 2 <= k ->
  saves (log (snd (start phone cfg msgs fuel (boot d fs sig)))) = 0%nat.
Proof.
  intros Hk Hk2. pose proof (start_run fuel d fs sig) as H. cbn zeta in H.
  destruct (start phone cfg msgs fuel (boot d fs sig)) as [o st].
  cbn [fst snd] in *.
  assert (G : forall o', search_ended cfg fs sig o' st -> saves (log st) = 0%nat).
  { intros o' (_ & _ & Hs & _). rewrite Hk, due_never in Hs by exact Hk2.
    cbn [times] in Hs. lia. }
  destruct o as [[]|e| |]; try exact (G _ H).
  destruct H as (c & _ & _ & [Hs _] & _). rewrite Hk, due_never in Hs by exact Hk2.
  exact Hs.
Qed.


(** X9.  With a reboot interval of two or more, the device is rebooted once,
    by [start] before the search, and never by the search. *)
Theorem no_reboot_with_interval_above_one (fuel : nat) (d : D)
    (fs : gmap string string) (sig : option nat) (k : Z) :
  autorebootAfter cfg = Some k -> 2 <= k ->
  reboots (log (snd (start phone cfg msgs fuel (boot d fs sig)))) = 1%nat.
Proof.
  intros Hk Hk2. pose proof (start_run fuel d fs sig) as H. cbn zeta in H.
  destruct (start phone cfg msgs fuel (boot d fs sig)) as [o st].
  cbn [fst snd] in *.
  assert (G : forall o', search_ended cfg fs sig o' st -> reboots (log st) = 1%nat).
  { intros o' (_ & _ & _ & Hr & _). rewrite Hk, due_never in Hr by exact Hk2.
    cbn [times] in Hr. lia. }
  destruct o as [[]|e| |]; try exact (G _ H).
  destruct H as (c & _ & _ & [_ Hr] & _). rewrite Hk, due_never in Hr by exact Hk2.
  exact Hr.
Qed.

(** X10.  With the reboot interval 1, the device is rebooted by [start] and
    then after every rejected attempt. *)
Theorem reboot_after_every_rejection (fuel : nat) (d : D)
    (fs : gmap string string) (sig : option nat) :
  let r := start phone cfg msgs fuel (boot d fs sig) in
  let submitted := List.length (attempts (log (snd r))) in
  autorebootAfter cfg = Some 1 ->
  match fst r with
  | Return _ => reboots (log (snd r)) = submitted
  | Throw (CodeNotFoundException _) => reboots (log (snd r)) = S submitted
  | _ => (submitted <= reboots (log (snd r)) <= S submitted)%nat
  end.
Proof.
  intros r submitted Hk. pose proof (start_run fuel d fs sig) as H. cbn zeta in H.
  subst submitted. fold r in H. destruct r as [o st]. cbn [fst snd] in *.
  assert (G : forall o', search_ended cfg fs sig o' st ->
              (List.length (attempts (log st)) <= reboots (log st)
               <= S (List.length (attempts (log st))))%nat).
  { intros o' (_ & _ & _ & Hr & _). rewrite Hk, due_one in Hr. cbn [times] in Hr. lia. }
  destruct o as [[]|e| |]; try exact (G _ H).
  - destruct H as (c & _ & _ & [_ Hr] & _ & Hl & _). rewrite Hk, due_one in Hr.
    cbn [times] in Hr. rewrite Hr.
    destruct (attempts (log st)); [discriminate Hl | cbn; lia].
  - destruct e; try exact (G _ H).
    destruct H as (_ & _ & _ & _ & He & _).
    destruct (He message eq_refl) as (_ & _ & [_ Hr]).
    rewrite Hk, due_one in Hr. exact Hr.
Qed.

End Runs.

Lemma signal_ends_search_unsaved_witness :
  let r := start rejecting_device (sample_config None) sample_messages 20
                 (boot tt (checkpoint_of "9999900000000000") (Some 2%nat)) in
  (2 < commands (snd r))%nat
  /\ fst r = Killed
  /\ handlers (snd r) = false
  /\ ~ In EvSignalHandler (log (snd r))
  /\ files (snd r) = checkpoint_of "9999900000000000".
Proof.
  intros r. split; [vm_compute; lia|].
  apply (signal_ends_search_unsaved rejecting_device (sample_config None) sample_messages
           20 tt (checkpoint_of "9999900000000000") 2).
  vm_compute. lia.
Defined.

Lemma listener_registered_after_success_witness :
  let r := start patient_device (sample_config None) sample_messages 20
                 (boot 0%nat (checkpoint_of "9999900000000000") None) in
  fst r = Return tt /\ handlers (snd r) = true.
Proof.
  intros r. split; [vm_compute; reflexivity|].
  apply (proj2 (listener_registered_after_success patient_device (sample_config None)
                  sample_messages 20 0%nat (checkpoint_of "9999900000000000") None)).
  vm_compute. reflexivity.
Defined.

Lemma found_code_is_recorded_witness :
  let r := start patient_device (sample_config None) sample_messages 20
                 (boot 0%nat (checkpoint_of "9999900000000000") None) in
  fst r = Return tt
  /\ exists c,
       last (attempts (log (snd r))) = Some c
       /\ currentCode (this (snd r)) = c
       /\ files (snd r)
          = <[code_file (imei (sample_config None)) :=
                "The bootloader code for the device with IMEI "
                ++ ToString (imei (sample_config None)) ++ " is: " ++ ToString c]>
              (checkpoint_of "9999900000000000").
Proof.
  intros r. split; [vm_compute; reflexivity|].
  apply (found_code_is_recorded patient_device (sample_config None) sample_messages
           20 0%nat (checkpoint_of "9999900000000000") None).
  vm_compute. reflexivity.
Defined.

Lemma no_checkpoint_with_interval_above_one_witness :
  saveStateAfter (sample_config (Some 2)) = Some 2 /\ 2 <= 2
  /\ saves (log (snd (start rejecting_device (sample_config (Some 2)) sample_messages 20
                        (boot tt (checkpoint_of "9999870000000000") None)))) = 0%nat.
Proof.
  split; [reflexivity|]. split; [lia|].
  apply (no_checkpoint_with_interval_above_one rejecting_device (sample_config (Some 2))
           sample_messages 20 tt (checkpoint_of "9999870000000000") None 2);
    [reflexivity | lia].
Defined.


Lemma no_reboot_with_interval_above_one_witness :
  autorebootAfter (reboot_config (Some 5)) = Some 5 /\ 2 <= 5
  /\ reboots (log (snd (start rejecting_device (reboot_config (Some 5)) sample_messages 20
                          (boot tt (checkpoint_of "9999870000000000") None)))) = 1%nat.
Proof.
  split; [reflexivity|]. split; [lia|].
  apply (no_reboot_with_interval_above_one rejecting_device (reboot_config (Some 5))
           sample_messages 20 tt (checkpoint_of "9999870000000000") None 5);
    [reflexivity | lia].
Defined.

Lemma reboot_after_every_rejection_witness :
  let r := start rejecting_device (reboot_config (Some 1)) sample_messages 20
                 (boot tt (checkpoint_of "9999870000000000") None) in
  let submitted := List.length (attempts (log (snd r))) in
  autorebootAfter (reboot_config (Some 1)) = Some 1
  /\ match fst r with
     | Return _ => reboots (log (snd r)) = submitted
     | Throw (CodeNotFoundException _) => reboots (log (snd r)) = S submitted
     | _ => (submitted <= reboots (log (snd r)) <= S submitted)%nat
     end.
Proof.
  intros r submitted. split; [reflexivity|].
  apply (reboot_after_every_rejection rejecting_device (reboot_config (Some 1))
           sample_messages 20 tt (checkpoint_of "9999870000000000") None).
  reflexivity.
Defined.

(* ===================================================================== *)
(** * 13. Texts and whole numbers                                       *)
(* ===================================================================== *)

(** ** Upper-case letters in the message fragments *)

Lemma lower_unit_not_upper (c : ascii) : is_upper (lower_unit c) = false.
Proof.
  destruct c as [b0 b1 b2 b3 b4 b5 b6 b7].
  destruct b0, b1, b2, b3, b4, b5, b6, b7; reflexivity.
Qed.

Lemma toLowerCase_no_upper (s : string) : has_upper (toLowerCase s) = false.
Proof.
  induction s as [|c s IH]; [reflexivity|].
  cbn [toLowerCase has_upper]. rewrite lower_unit_not_upper, IH. reflexivity.
Qed.

Lemma has_upper_app (a b : string) : has_upper (a ++ b) = has_upper a || has_upper b.
Proof.
  induction a as [|c a IH]; [reflexivity|].
  cbn [String.append has_upper]. rewrite IH, orb_assoc. reflexivity.
Qed.

Lemma trim_start_no_upper (s : string) :
  has_upper s = false -> has_upper (trim_start s) = false.
Proof.
  induction s as [|c s IH]; [reflexivity|]. cbn [trim_start has_upper].
  intros H. apply orb_false_iff in H as [Hc Hs].
  destruct (is_ws c); [apply IH; exact Hs|]. cbn [has_upper]. rewrite Hc, Hs. reflexivity.
Qed.

Lemma trim_end_no_upper (s : string) :
  has_upper s = false -> has_upper (trim_end s) = false.
Proof.
  induction s as [|c s IH]; [reflexivity|]. cbn [trim_end has_upper].
  intros H. apply orb_false_iff in H as [Hc Hs]. specialize (IH Hs).
  destruct (trim_end s) as [|c' t].
  - destruct (is_ws c); [reflexivity|]. cbn [has_upper]. rewrite Hc. reflexivity.
  - cbn [has_upper] in *. rewrite Hc, IH. reflexivity.
Qed.

Lemma includes_no_upper (p s : string) :
  has_upper s = false -> includes p s = true -> has_upper p = false.
Proof.
  intros Hs Hi. apply includes_spec in Hi. destruct Hi as (pre & post & ->).
  rewrite !has_upper_app in Hs.
  apply orb_false_iff in Hs as [_ Hs]. apply orb_false_iff in Hs as [Hp _]. exact Hp.
Qed.

Lemma upper_fragment_not_found (p text : string) :
  has_upper p = true -> includes p (trim (toLowerCase text)) = false.
Proof.
  intros Hp. destruct (includes p (trim (toLowerCase text))) eqn:Hi; [|reflexivity].
  apply includes_no_upper in Hi.
  - rewrite Hi in Hp. discriminate Hp.
  - unfold trim. apply trim_end_no_upper, trim_start_no_upper, toLowerCase_no_upper.
Qed.

Section Upper.
Context {D : Type}.
Variable phone : device D.
Variable cfg : config.
Variable msgs : adb_messages.

(** X11.  [attemptCode] compares the message fragments with the lower-cased
    output.  A success fragment that contains an upper-case letter is
    therefore never found: [attemptCode] does not return [true], whatever
    the device prints. *)
Theorem upper_case_success_fragment_never_matches (code : number) (st : machine D) :
  has_upper (oemUnlockSuccess msgs) = true ->
  fst (attemptCode phone cfg msgs code st) <> Return true.
Proof.
  intros Hup. unfold attemptCode, bind, emit, await_device, throw.
  cbn [this dev files log handlers interrupt commands unhandled fst snd].
  destruct (oem_unlock phone (dev st) code) as [out d1].
  destruct (unhandled st) as [u|]; [discriminate|].
  destruct (decide _) as [e|n].
  - destruct (handlers st); [|discriminate].
    unfold signal_handler, bind, emit, get_this, saveLastState, ret.
    cbn [this dev files log handlers interrupt commands unhandled fst snd
         writeFileSync].
    destruct out as [text|]; [|discriminate].
    cbn [fst]. unfold classify. rewrite (upper_fragment_not_found _ text Hup).
    destruct (includes (commandInvalid msgs) _); [discriminate|].
    destruct (includes (oemUnlockFail msgs) _); [discriminate|].
    destruct (throwOnUnknownErrors cfg); discriminate.
  - destruct out as [text|]; [|discriminate].
    cbn [fst]. unfold classify. rewrite (upper_fragment_not_found _ text Hup).
    destruct (includes (commandInvalid msgs) _); [discriminate|].
    destruct (includes (oemUnlockFail msgs) _); [discriminate|].
    destruct (throwOnUnknownErrors cfg); discriminate.
Qed.
End Upper.

Lemma upper_case_success_fragment_never_matches_witness :
  has_upper (oemUnlockSuccess (AdbMessages "unknown command" "check password failed" "OKAY"))
  = true
  /\ fst (attemptCode patient_device (sample_config None)
            (AdbMessages "unknown command" "check password failed" "OKAY")
            default_code (boot 2%nat ∅ None)) <> Return true.
Proof.
  split; [reflexivity|].
  apply (upper_case_success_fragment_never_matches patient_device (sample_config None)
           (AdbMessages "unknown command" "check password failed" "OKAY")
           default_code (boot 2%nat ∅ None)).
  reflexivity.
Defined.

(** ** What the checkpoint reader returns *)

Lemma trim_end_head (c : ascii) (s : string) :
  is_ws c = false -> exists t, trim_end (String c s) = String c t.
Proof.
  intros Hc. cbn [trim_end]. destruct (trim_end s) as [|c' t].
  - rewrite Hc. exists EmptyString. reflexivity.
  - exists (String c' t). reflexivity.
Qed.

Lemma trim_end_idem (s : string) : trim_end (trim_end s) = trim_end s.
Proof.
  induction s as [|c s IH]; [reflexivity|]. cbn [trim_end].
  destruct (trim_end s) as [|c' t] eqn:E.
  - destruct (is_ws c) eqn:Hc; [reflexivity|]. cbn [trim_end]. rewrite Hc. reflexivity.
  - change (trim_end (String c (String c' t))) with
      (match trim_end (String c' t) with
       | EmptyString => if is_ws c then EmptyString else String c EmptyString
       | t' => String c t'
       end).
    rewrite IH. reflexivity.
Qed.

Lemma trim_start_head (s : string) :
  trim_start s = EmptyString
  \/ exists c t, trim_start s = String c t /\ is_ws c = false.
Proof.
  induction s as [|c s IH]; [left; reflexivity|]. cbn [trim_start].
  destruct (is_ws c) eqn:Hc; [exact IH|]. right. exists c, s. split; [reflexivity | exact Hc].
Qed.

Lemma trim_idem (s : string) : trim (trim s) = trim s.
Proof.
  unfold trim. destruct (trim_start_head s) as [-> | (c & t & -> & Hc)]; [reflexivity|].
  destruct (trim_end_head c t Hc) as [t' Ht']. rewrite Ht'.
  cbn [trim_start]. rewrite Hc, <- Ht'. apply trim_end_idem.
Qed.

Lemma Number_trim (s : string) : Number (trim s) = Number s.
Proof. unfold Number. rewrite trim_idem. reflexivity. Qed.

Lemma num_of_Z_0 : num_of_Z 0 = S754_zero false.
Proof. reflexivity. Qed.

(** X12.  Whatever the checkpoint file holds, a value that [getLastSavedState]
    returns is above zero or NaN: the test [content.trim() <= 0] has
    excluded zero and the negative numbers. *)
Theorem getLastSavedState_above_zero (cfg : config) (fs : gmap string string)
    (x : number) :
  getLastSavedState cfg fs = Some x -> x = NaN \/ num_lt (num_of_Z 0) x = true.
Proof.
  unfold getLastSavedState. destruct (readFileSync fs _) as [content| | |]; try discriminate.
  rewrite Number_trim.
  destruct (String.eqb content ""); [discriminate|]. cbn [orb].
  destruct (num_le (Number content) (num_of_Z 0)) eqn:E; [discriminate|].
  intros H. injection H as <-. rewrite num_of_Z_0 in *.
  destruct (Number content) as [s|[|]| |[|] m e]; try discriminate E;
    [right; reflexivity | left; reflexivity | right; reflexivity].
Qed.

Lemma getLastSavedState_above_zero_witness :
  getLastSavedState (sample_config None) (checkpoint_of "9999900000000000")
  = Some (num_of_Z 9999900000000000)
  /\ (num_of_Z 9999900000000000 = NaN
      \/ num_lt (num_of_Z 0) (num_of_Z 9999900000000000) = true).
Proof.
  split; [vm_compute; reflexivity|].
  apply (getLastSavedState_above_zero (sample_config None)
           (checkpoint_of "9999900000000000")).
  vm_compute. reflexivity.
Defined.

(** ** White space around a checkpoint *)

Lemma trim_start_ws (w t : string) : all_ws w = true -> trim_start (w ++ t) = trim_start t.
Proof.
  induction w as [|c w IH]; [reflexivity|]. cbn [all_ws String.append trim_start].
  intros H. apply andb_true_iff in H as [Hc Hw]. rewrite Hc. apply IH. exact Hw.
Qed.

Lemma trim_end_ws (w : string) : all_ws w = true -> trim_end w = EmptyString.
Proof.
  induction w as [|c w IH]; [reflexivity|]. cbn [all_ws trim_end].
  intros H. apply andb_true_iff in H as [Hc Hw]. rewrite (IH Hw), Hc. reflexivity.
Qed.

Lemma trim_end_app_ws (a w : string) : all_ws w = true -> trim_end (a ++ w) = trim_end a.
Proof.
  intros Hw. induction a as [|c a IH]; [apply trim_end_ws; exact Hw|].
  cbn [String.append trim_end]. rewrite IH. reflexivity.
Qed.

Lemma trim_padded (w1 w2 a : string) :
  all_ws w1 = true -> all_ws w2 = true -> all_num a = true ->
  trim (w1 ++ a ++ w2) = a.
Proof.
  intros H1 H2 Ha. unfold trim. rewrite (trim_start_ws _ _ H1).
  destruct a as [|c a]; [cbn [String.append]|].
  - rewrite <- (sapp_nil_r w2), (trim_start_ws _ _ H2). reflexivity.
  - cbn [all_num] in Ha. apply andb_true_iff in Ha as [Hc Ha'].
    cbn [String.append trim_start]. rewrite (numchar_not_ws c Hc).
    change (String c (a ++ w2)) with (String c a ++ w2).
    rewrite (trim_end_app_ws _ _ H2). apply trim_end_num.
    cbn [all_num]. rewrite Hc, Ha'. reflexivity.
Qed.

(** X13.  White space around the number in the checkpoint file does not
    matter: a file that holds the decimal text of a whole number above
    zero, with blanks or line ends before and after it, gives that
    number. *)
Theorem getLastSavedState_ignores_white_space (cfg : config) (fs : gmap string string)
    (n : Z) (before after : string) :
  0 < n -> all_ws before = true -> all_ws after = true ->
  fs !! saved_state_file (imei cfg) = Some (before ++ dec_string n ++ after) ->
  getLastSavedState cfg fs = Some (num_of_Z n).
Proof.
  intros Hn H1 H2 Hf. unfold getLastSavedState, readFileSync. rewrite Hf.
  assert (Hnum : all_num (dec_string n) = true)
    by (apply all_digits_num, dec_string_digits; lia).
  rewrite <- (Number_trim (before ++ dec_string n ++ after)).
  rewrite (trim_padded _ _ _ H1 H2 Hnum), Number_dec_string by lia.
  rewrite num_of_Z_positive by exact Hn. rewrite orb_false_r.
  destruct (String.eqb_spec (before ++ dec_string n ++ after) "") as [E|E]; [|reflexivity].
  exfalso. pose proof (dec_string_nonempty n) as Hl.
  assert (L : String.length (before ++ dec_string n ++ after) = 0%nat) by (rewrite E; reflexivity).
  rewrite !slength_app in L. lia.
Qed.

Lemma getLastSavedState_ignores_white_space_witness :
  0 < 9999900000000000
  /\ all_ws " " = true
  /\ all_ws (String (ascii_of_nat 10) EmptyString) = true
  /\ getLastSavedState (sample_config None)
       (checkpoint_of (" " ++ dec_string 9999900000000000
                       ++ String (ascii_of_nat 10) EmptyString))
     = Some (num_of_Z 9999900000000000).
Proof.
  split; [lia|]. split; [reflexivity|]. split; [reflexivity|].
  apply (getLastSavedState_ignores_white_space (sample_config None) _
           9999900000000000 " " (String (ascii_of_nat 10) EmptyString));
    [lia | reflexivity | reflexivity | apply lookup_singleton_eq].
Defined.

(** ** The generator gives whole numbers *)

Lemma round_rat_integer (s : bool) (a : Z) :
  is_integer (round_rat s a 1) = is_finite (round_rat s a 1).
Proof.
  destruct (Z_le_gt_dec a 0) as [Ha|Ha].
  { unfold round_rat. replace (a <=? 0) with true by lia. reflexivity. }
  destruct (round_rat_shape s a 1 ltac:(lia) ltac:(lia))
    as (off & t & m1 & Hoff & Ht & Hm1 & Hcase & ->).
  rewrite Z.mul_1_l in Hm1.
  assert (P : 0 < 2 ^ off) by (apply pow2_pos; lia).
  assert (Q : 0 < 2 ^ t) by (apply pow2_pos; lia).
  destruct (m1 =? 2 ^ 53) eqn:E53.
  { destruct (971 <? t + 1 - off); [reflexivity|]. cbn [is_integer is_finite].
    apply Z.eqb_eq in E53.
    destruct (Z_le_gt_dec 0 (t + 1 - off)) as [Hp|Hn].
    - replace (0 <=? t + 1 - off) with true by lia. reflexivity.
    - exfalso. (* the quotient is exact, hence below 2^53 *)
      assert (Hex : a * 2 ^ off = (a * 2 ^ (off - t)) * 2 ^ t).
      { rewrite <- Z.mul_assoc, <- Z.pow_add_r by lia. f_equal. f_equal. lia. }
      rewrite Hex, rdiv_even_exact in Hm1 by lia.
      destruct Hcase as [[[_ Hlt] _] | (_ & -> & Hlt & _)].
      + rewrite Z.mul_1_r in Hlt. rewrite Hex in Hlt.
        replace (2 ^ (53 + t)) with (2 ^ 53 * 2 ^ t) in Hlt
          by (rewrite <- Z.pow_add_r by lia; reflexivity).
        apply Z.mul_lt_mono_pos_r in Hlt; lia.
      + lia. }
  destruct (m1 <=? 0) eqn:E0; [reflexivity|].
  destruct (971 <? t - off); [reflexivity|]. cbn [is_integer is_finite].
  destruct (Z_le_gt_dec 0 (t - off)) as [Hp|Hn].
  - replace (0 <=? t - off) with true by lia. reflexivity.
  - replace (0 <=? t - off) with false by lia. cbn [orb].
    assert (Hex : a * 2 ^ off = (a * 2 ^ (off - t)) * 2 ^ t).
    { rewrite <- Z.mul_assoc, <- Z.pow_add_r by lia. f_equal. f_equal. lia. }
    rewrite Hex, rdiv_even_exact in Hm1 by lia.
    assert (0 < m1) by lia. rewrite Z2Pos.id by lia.
    replace (- (t - off)) with (off - t) by lia.
    rewrite Hm1, Z.mod_mul by lia. reflexivity.
Qed.

Lemma num_of_Z_integer (n : Z) : is_integer (num_of_Z n) = is_finite (num_of_Z n).
Proof.
  unfold num_of_Z, round_dec. cbn [Z.leb Z.compare Z.pow].
  destruct (n <? 0); rewrite Z.mul_1_r; apply round_rat_integer.
Qed.

Lemma Math_round_integer (x : number) :
  is_integer (Math_round x) = is_finite (Math_round x).
Proof.
  destruct x as [s|s| |s m e]; try reflexivity. cbn [Math_round].
  destruct (0 <=? e) eqn:He; [cbn [is_integer is_finite]; rewrite He; reflexivity|].
  destruct (_ =? 0); [reflexivity|]. apply num_of_Z_integer.
Qed.

(** X14.  [nextCode] never gives a number with a fractional part: its result
    is a whole number whenever it is finite (it can be NaN or an infinity
    otherwise). *)
Theorem nextCode_is_whole (imei c : number) :
  is_integer (nextCode imei c) = is_finite (nextCode imei c).
Proof. unfold nextCode. apply Math_round_integer. Qed.

(* ===================================================================== *)
(** * 14. The checkpoint reader and the first candidate                 *)
(* ===================================================================== *)

(** ** Every value that the reader returns *)












(** ** The first candidate of a run *)





(* ===================================================================== *)
(** * 15. A search that never ends                                      *)
(* ===================================================================== *)

(** A code that is no finite number makes [nextCode] give NaN. *)
Lemma nextCode_nonfinite (imei x : number) :
  is_finite x = false -> nextCode imei x = NaN.
Proof.
  intros Hx. unfold nextCode. apply nonfinite_text.
  destruct x as [s|s| |s m e]; try discriminate Hx;
    destruct (step imei) as [t|t| |t n f]; try reflexivity;
    destruct s, t; reflexivity.
Qed.

(** The checkpoint is not due when the interval is absent, 0, or 2 or more. *)
Lemma due_absent (k : option Z) :
  (forall n, k = Some n -> n = 0 \/ 2 <= n) -> due k = false.
Proof.
  intros H. destruct k as [n|]; [|reflexivity].
  destruct (H n eq_refl) as [-> | Hn]; [reflexivity|].
  unfold due. cbn [nullish]. replace (0 >=? n - 1) with false by lia.
  apply andb_false_r.
Qed.

Section Endless.
Local Open Scope list_scope.
Context {D : Type}.
Variable phone : device D.
Variable cfg : config.
Variable msgs : adb_messages.
Hypothesis Hrej : rejects_all phone cfg msgs.
Hypothesis Hreb : reboots_well phone.
Hypothesis Hnever : forall k, saveStateAfter cfg = Some k -> k = 0 \/ 2 <= k.

Lemma bruteforce_on_NaN (fuel : nat) (st : machine D) :
  handlers st = false -> interrupt st = None -> unhandled st = None ->
  attempt (this st) = 0 -> lastSavedAttempt (this st) = 0 ->
  currentCode (this st) = NaN ->
  wp (bruteforce phone cfg msgs fuel) (fun _ _ => False)
     (fun r st' => r = OutOfFuel
                   /\ attempts (log st') = attempts (log st) ++ repeat NaN fuel) st.
Proof.
  revert st. induction fuel as [|fuel IH]; intros st Hh Hi Hu Ha Hsv Hc.
  - unfold wp. cbn. split; [reflexivity|]. rewrite app_nil_r. reflexivity.
  - rewrite bruteforce_S. apply wp_get. rewrite Hc.
    apply (wp_seq _ _ (fun (b : bool) st1 =>
             b = false /\ handlers st1 = false /\ interrupt st1 = None
             /\ unhandled st1 = None
             /\ attempt (this st1) = 0 /\ lastSavedAttempt (this st1) = 0
             /\ currentCode (this st1) = NaN
             /\ attempts (log st1) = attempts (log st) ++ [NaN])).
    { apply wp_attemptCode; [exact Hh|]. intros out d Hd st1.
      split; [intros e He; rewrite He in Hu; discriminate Hu|]. intros _. split.
      - rewrite Hi. intros K. discriminate K.
      - intros _. destruct (Hrej (dev st) NaN) as (text & Ht & Hcl).
        rewrite Hd in Ht. cbn [fst] in Ht. subst out. rewrite Hcl.
        subst st1. cbn [handlers interrupt unhandled this log]. rewrite attempts_snoc.
        repeat split; assumption. }
    intros b st1 (-> & Hh1 & Hi1 & Hu1 & Ha1 & Hsv1 & Hc1 & Hl1).
    apply (wp_seq _ _ (fun (_ : unit) st2 =>
             handlers st2 = false /\ interrupt st2 = None
             /\ unhandled st2 = None
             /\ attempt (this st2) = 0 /\ lastSavedAttempt (this st2) = 0
             /\ currentCode (this st2) = NaN
             /\ attempts (log st2) = attempts (log st) ++ [NaN])).
    { destruct (truthy (autorebootAfter cfg)); [|apply wp_ret; repeat split; assumption].
      apply wp_get. destruct (_ >=? _); [|apply wp_ret; repeat split; assumption].
      apply wp_set, wp_rebootDevice; [exact Hh1|]. intros ok d Hd st2.
      cbn [this dev files log handlers interrupt commands unhandled] in st2 |- *.
      split; [intros e He; rewrite He in Hu1; discriminate Hu1|]. intros _. split.
      - rewrite Hi1. intros K. discriminate K.
      - intros _. pose proof (Hreb (dev st1)) as Hok. cbn [dev] in Hd. rewrite Hd in Hok.
        cbn [fst] in Hok. subst ok. subst st2.
        cbn [handlers interrupt unhandled this log set_lastRebootAttempt currentCode
             attempt lastSavedAttempt].
        rewrite attempts_snoc, app_nil_r. repeat split; assumption. }
    clear dependent st1. intros _ st2 (Hh2 & Hi2 & Hu2 & Ha2 & Hsv2 & Hc2 & Hl2).
    apply (wp_seq _ _ (fun (_ : unit) st3 =>
             handlers st3 = false /\ interrupt st3 = None
             /\ unhandled st3 = None
             /\ attempt (this st3) = 0 /\ lastSavedAttempt (this st3) = 0
             /\ currentCode (this st3) = NaN
             /\ attempts (log st3) = attempts (log st) ++ [NaN])).
    { pose proof (due_absent _ Hnever) as Hdue. unfold due in Hdue.
      destruct (truthy (saveStateAfter cfg)); [|apply wp_ret; repeat split; assumption].
      apply wp_get. rewrite Ha2, Hsv2. change (0 - 0) with 0.
      cbn [andb] in Hdue. rewrite Hdue. apply wp_ret. repeat split; assumption. }
    clear dependent st2. intros _ st3 (Hh3 & Hi3 & Hu3 & Ha3 & Hsv3 & Hc3 & Hl3).
    apply wp_set, wp_get. cbn [this set_currentCode currentCode].
    rewrite Hc3, nextCode_nonfinite by reflexivity.
    change (num_ge NaN ceiling) with false. cbn iota.
    specialize (IH (Machine (set_currentCode NaN (this st3)) (dev st3) (files st3)
                            (log st3) (handlers st3) (interrupt st3) (commands st3)
                            (unhandled st3))
                   Hh3 Hi3 Hu3 Ha3 Hsv3 eq_refl).
    cbn [log] in IH. rewrite Hl3, <- app_assoc in IH. exact IH.
Qed.

(** X15.  A checkpoint that is no finite number (the file holds text that is
    no number, or "Infinity") makes the search run on NaN.  Where no
    checkpoint is written during the search (the interval is absent, 0, or
    2 or more), and the device rejects every code, NaN is submitted again
    and again and the search never ends, since NaN never reaches the
    ceiling. *)
Theorem search_on_NaN_never_ends (fuel : nat) (d : D) (fs : gmap string string)
    (x : number) :
  getLastSavedState cfg fs = Some x -> is_finite x = false ->
  let r := start phone cfg msgs fuel (boot d fs None) in
  fst r = OutOfFuel /\ attempts (log (snd r)) = repeat NaN fuel.
Proof.
  intros Hx Hfin r. subst r. unfold start, boot.
  assert (G : wp (start phone cfg msgs fuel) (fun _ _ => False)
                 (fun r st' => r = OutOfFuel /\ attempts (log st') = repeat NaN fuel)
                 (boot d fs None)).
  { unfold start, boot. apply wp_set.
    cbn [this dev files log handlers interrupt commands unhandled].
    match goal with
    | |- wp (bind ?c ?k) ?N ?E ?s => change (wp (k s) N E s)
    end.
    cbn beta. apply wp_set.
    cbn [this dev files log handlers interrupt commands unhandled].
    rewrite Hx. cbn [nullish].
    apply (wp_seq _ _ (fun (_ : unit) st1 =>
             handlers st1 = false /\ interrupt st1 = None /\ unhandled st1 = None
             /\ attempt (this st1) = 0 /\ lastSavedAttempt (this st1) = 0
             /\ currentCode (this st1) = x /\ attempts (log st1) = [])).
    { apply wp_rebootDevice; [reflexivity|]. intros ok d1 Hd st1.
      cbn [this dev files log handlers interrupt commands unhandled] in st1 |- *.
      split; [intros e He; discriminate He|]. intros _. split.
      - intros K. discriminate K.
      - intros _. pose proof (Hreb d) as Hok. cbn [dev] in Hd. rewrite Hd in Hok.
        cbn [fst] in Hok. subst ok. subst st1. repeat split; reflexivity. }
    intros _ st1 (Hh & Hi & Hu & Ha & Hsv & Hc & Hl). apply wp_set.
    apply (wp_seq _ _ (fun _ _ => False)); [|intros _ _ []].
    pose proof (bruteforce_on_NaN fuel
                  (Machine (set_currentCode (nextCode (imei cfg) (currentCode (this st1)))
                                            (this st1))
                           (dev st1) (files st1) (log st1) (handlers st1)
                           (interrupt st1) (commands st1) (unhandled st1))
                  Hh Hi Hu Ha Hsv) as H.
    cbn [this log set_currentCode currentCode] in H.
    rewrite Hc, nextCode_nonfinite, Hl in H by exact Hfin.
    rewrite Hc, nextCode_nonfinite by exact Hfin. apply H. reflexivity. }
  unfold wp in G. unfold start, boot in G.
  destruct (bind _ _ _) as [[[]|e| |] st']; cbn [fst snd]; try exact G; destruct G.
Qed.
End Endless.

Lemma search_on_NaN_never_ends_witness :
  rejects_all rejecting_device (sample_config (Some 2)) sample_messages
  /\ reboots_well rejecting_device
  /\ (forall k, saveStateAfter (sample_config (Some 2)) = Some k -> k = 0 \/ 2 <= k)
  /\ getLastSavedState (sample_config (Some 2)) (checkpoint_of "abc") = Some NaN
  /\ is_finite NaN = false
  /\ let r := start rejecting_device (sample_config (Some 2)) sample_messages 5
                    (boot tt (checkpoint_of "abc") None) in
     fst r = OutOfFuel /\ attempts (log (snd r)) = repeat NaN 5.
Proof.
  assert (H1 : rejects_all rejecting_device (sample_config (Some 2)) sample_messages).
  { intros d c. eexists. split; reflexivity. }
  assert (H2 : reboots_well rejecting_device) by (intros d; reflexivity).
  assert (H0 : forall k, saveStateAfter (sample_config (Some 2)) = Some k
                         -> k = 0 \/ 2 <= k).
  { intros k Hk. injection Hk as <-. right. lia. }
  assert (H3 : getLastSavedState (sample_config (Some 2)) (checkpoint_of "abc") = Some NaN)
    by (vm_compute; reflexivity).
  split; [exact H1|]. split; [exact H2|]. split; [exact H0|]. split; [exact H3|].
  split; [reflexivity|].
  exact (search_on_NaN_never_ends rejecting_device (sample_config (Some 2)) sample_messages
           H1 H2 H0 5 tt (checkpoint_of "abc") NaN H3 eq_refl).
Defined.

(* ===================================================================== *)
(** * 16. A search that ends                                            *)
(* ===================================================================== *)

(** ** The step is a well-formed datum *)

(** A mantissa that needs no shift to the left is rounded by
    [binary_round_aux] as by [binary_round]. *)
Lemma binary_round_aux_binary_round (s : bool) (p : positive) (e : Z) :
  e <= Z.max (Z.log2 (Z.pos p) + e - 52) (-1074) ->
  binary_round_aux prec emax s (Z.pos p) e loc_Exact = binary_round prec emax s p e.
Proof.
  intros H. unfold binary_round.
  assert (Efx : fexp prec emax (Z.pos (digits2_pos p) + e)
                = Z.max (Z.log2 (Z.pos p) + e - 52) (-1074)).
  { unfold fexp, SpecFloat.emin, prec, emax. rewrite digits2_log2. lia. }
  rewrite Efx. unfold shl_align.
  destruct (Z.max (Z.log2 (Z.pos p) + e - 52) (-1074) - e) as [|d|d] eqn:E;
    [reflexivity | reflexivity | lia].
Qed.

(** The product with 1024 has a mantissa of 53 bits or more: it is rounded
    to a well-formed datum. *)
Lemma step_wf (imei : number) : wf (step imei).
Proof.
  unfold step, num_mul.
  change (num_of_Z 1024) with (S754_finite false 4503599627370496 (-42)).
  destruct (Math_sqrt imei) as [s|s| |s mx ex]; try reflexivity.
  unfold SFmul.
  rewrite binary_round_aux_binary_round.
  - rewrite binary_round_round_rat. apply round_rat_wf, pow2_pos. lia.
  - assert (52 <= Z.log2 (Z.pos (mx * 4503599627370496))).
    { rewrite Pos2Z.inj_mul. change (Z.pos 4503599627370496) with (2 ^ 52).
      rewrite <- Z.shiftl_mul_pow2 by lia. rewrite Z.log2_shiftl by lia.
      pose proof (Z.log2_nonneg (Z.pos mx)). lia. }
    lia.
Qed.

(** ** Order, bounds and exponents *)

Lemma num_le_total (m1 m2 : positive) (e1 e2 : Z) :
  num_le (S754_finite false m1 e1) (S754_finite false m2 e2) = false ->
  num_le (S754_finite false m2 e2) (S754_finite false m1 e1) = true.
Proof.
  unfold num_le, SFleb, SFcompare.
  rewrite (Z.compare_antisym e1 e2).
  destruct (e1 ?= e2); cbn [CompOpp]; try discriminate; try reflexivity.
  change (Pos.compare_cont Eq m1 m2) with (m1 ?= m2)%positive.
  change (Pos.compare_cont Eq m2 m1) with (m2 ?= m1)%positive.
  rewrite (Pos.compare_antisym m1 m2).
  destruct (m1 ?= m2)%positive; cbn [CompOpp]; try discriminate; reflexivity.
Qed.

Lemma ceiling_eq : ceiling = S754_finite false 5000000000000000 1.
Proof. vm_compute. reflexivity. Qed.

Lemma two_eq : num_of_Z 2 = S754_finite false 4503599627370496 (-51).
Proof. vm_compute. reflexivity. Qed.

Lemma ceiling_canonical : canonical 5000000000000000 1.
Proof. split; [reflexivity | lia]. Qed.

Lemma ceiling_units : units 5000000000000000 1 = 10000000000000000 * 2 ^ 1074.
Proof. unfold units. change (1 + 1074) with (Z.succ 1074). rewrite Z.pow_succ_r by lia. ring. Qed.

Lemma step_bounds (imei : number) :
  num_le (num_of_Z 2) (step imei) = true -> num_le (step imei) ceiling = true ->
  exists ms es,
    step imei = S754_finite false ms es /\ canonical ms es
    /\ 2 * 2 ^ 1074 <= units ms es <= 10000000000000000 * 2 ^ 1074.
Proof.
  rewrite ceiling_eq, two_eq. intros H2 HB. pose proof (step_wf imei) as Hwf.
  destruct (step imei) as [s|[|]| |[|] ms es]; try discriminate H2; try discriminate HB.
  apply wf_finite in Hwf. exists ms, es. split; [reflexivity|]. split; [exact Hwf|].
  assert (C2 : canonical 4503599627370496 (-51)) by (split; [reflexivity | lia]).
  pose proof (le_units _ _ _ _ C2 Hwf H2) as L.
  pose proof (le_units _ _ _ _ Hwf ceiling_canonical HB) as U.
  rewrite ceiling_units in U.
  unfold units at 1 in L. change (4503599627370496 * 2 ^ (-51 + 1074)) with (2 * 2 ^ 1074) in L.
  split; assumption.
Qed.

(** The sum of two positive data is the rounded sum of their units. *)
Lemma add_units (mc ms : positive) (ec es : Z) :
  -1074 <= ec -> -1074 <= es ->
  exists a d,
    0 < a /\ 0 < d
    /\ num_add (S754_finite false mc ec) (S754_finite false ms es) = round_rat false a d
    /\ a * 2 ^ 1074 = (units mc ec + units ms es) * d.
Proof.
  intros Hec Hes. rewrite num_add_positive. cbv zeta.
  set (ez := Z.min ec es).
  pose proof (pow2_pos (ec - ez) ltac:(unfold ez; lia)).
  pose proof (pow2_pos (es - ez) ltac:(unfold ez; lia)).
  pose proof (pow2_pos (Z.max 0 ez) ltac:(lia)).
  pose proof (pow2_pos (Z.max 0 (- ez)) ltac:(lia)).
  eexists _, _. split; [|split; [|split; [reflexivity|]]].
  - nia.
  - assumption.
  - unfold units.
    assert (E1 : Z.pos mc * 2 ^ (ec + 1074) * 2 ^ Z.max 0 (- ez)
                 = Z.pos mc * 2 ^ (ec - ez) * 2 ^ Z.max 0 ez * 2 ^ 1074).
    { rewrite <- !Z.mul_assoc, <- !Z.pow_add_r by (unfold ez; lia).
      do 2 f_equal. unfold ez. lia. }
    assert (E2 : Z.pos ms * 2 ^ (es + 1074) * 2 ^ Z.max 0 (- ez)
                 = Z.pos ms * 2 ^ (es - ez) * 2 ^ Z.max 0 ez * 2 ^ 1074).
    { rewrite <- !Z.mul_assoc, <- !Z.pow_add_r by (unfold ez; lia).
      do 2 f_equal. unfold ez. lia. }
    lia.
Qed.

(** A value below [2^K] does not overflow, and its exponent is at most
    [K - 52]. *)
Lemma round_rat_exponent (s : bool) (a d K : Z) :
  0 < a -> 0 < d -> 0 <= K <= 1023 -> a < 2 ^ K * d ->
  match round_rat s a d with
  | S754_finite _ _ e => e <= K - 52
  | S754_infinity _ => False
  | _ => True
  end.
Proof.
  intros Ha Hd HK Hlt.
  destruct (round_rat_shape s a d Ha Hd) as (off & t & m1 & Hoff & Ht & Em1 & Hcase & ->).
  assert (Hexp : t - off <= K - 53).
  { destruct Hcase as [[[H1 _] _] | (-> & -> & _)]; [|lia].
    pose proof (pow2_pos off ltac:(lia)) as P.
    assert (2 ^ (52 + t) * d < 2 ^ (K + off) * d).
    { apply Z.le_lt_trans with (a * 2 ^ off); [exact H1|].
      rewrite Z.pow_add_r by lia. nia. }
    assert (2 ^ (52 + t) < 2 ^ (K + off)) by nia.
    assert (52 + t < K + off) by (apply (Z.pow_lt_mono_r_iff 2); lia). lia. }
  destruct (m1 =? 2 ^ 53).
  - replace (971 <? t + 1 - off) with false by lia. lia.
  - destruct (m1 <=? 0); [exact I|].
    replace (971 <? t - off) with false by lia. lia.
Qed.

(** ** [Math.round] and the next whole number *)

Lemma Math_round_shape (my : positive) (ey : Z) :
  canonical my ey ->
  Math_round (S754_finite false my ey) = S754_zero false
  \/ exists m e,
       Math_round (S754_finite false my ey) = S754_finite false m e
       /\ canonical m e /\ e <= Z.max ey 2.
Proof.
  intros Hy. unfold Math_round.
  destruct (0 <=? ey) eqn:E.
  { right. exists my, ey. split; [reflexivity|]. split; [exact Hy | lia]. }
  apply Z.leb_gt in E.
  destruct (canonical_bounds my ey Hy) as (Hey & Hm & _).
  pose proof (pow2_pos (- ey) ltac:(lia)) as P.
  assert (E2 : 2 ^ (1 - ey) = 2 * 2 ^ (- ey)).
  { replace (1 - ey) with (Z.succ (- ey)) by lia. rewrite Z.pow_succ_r by lia. reflexivity. }
  set (q := (2 * Z.pos my + 2 ^ (- ey)) / 2 ^ (1 - ey)).
  assert (Hq0 : 0 <= q) by (apply Z.div_pos; lia).
  assert (Hq1 : q <= Z.pos my + 1).
  { apply Z.div_le_upper_bound; [lia|]. rewrite E2. nia. }
  destruct (q =? 0) eqn:Eq; [left; reflexivity | right]. apply Z.eqb_neq in Eq.
  rewrite num_of_Z_nonneg by lia.
  pose proof (round_rat_wf false q 1 ltac:(lia)) as Hwf.
  pose proof (round_rat_exponent false q 1 54 ltac:(lia) ltac:(lia) ltac:(lia)) as Hx.
  assert (P54 : 2 ^ 54 = 2 * 2 ^ 53) by reflexivity.
  specialize (Hx ltac:(lia)).
  assert (Hge : num_le (S754_finite false 4503599627370496 (-52)) (round_rat false q 1) = true).
  { apply round_rat_ge; [split; [reflexivity | lia] | lia |].
    unfold units. change (4503599627370496 * 2 ^ (-52 + 1074)) with (2 ^ 1074).
    pose proof (pow2_pos 1074 ltac:(lia)). nia. }
  destruct (round_rat false q 1) as [s|s| |[|] m e]; try discriminate Hge; try contradiction.
  exists m, e. split; [reflexivity|]. split; [apply wf_finite in Hwf; exact Hwf | lia].
Qed.

(** Above a whole number with an exponent of at most 1 there is a whole
    number at most 2 away: in the same binade, or the first one of the
    next. *)
Lemma next_integer (mc : positive) (ec : Z) :
  canonical mc ec -> is_integer (S754_finite false mc ec) = true -> ec <= 1 ->
  exists mp ep,
    canonical mp ep /\ is_integer (S754_finite false mp ep) = true
    /\ units mp ep = units mc ec + 2 ^ (Z.max ec 0 + 1074).
Proof.
  intros Hc Hint Hec1.
  destruct (canonical_bounds mc ec Hc) as (Hec & Hm & Hn).
  unfold is_integer in Hint. rewrite orb_true_iff, Z.leb_le, Z.eqb_eq in Hint.
  set (k := Z.max 0 (- ec)).
  pose proof (pow2_pos k ltac:(unfold k; lia)) as Pk.
  assert (Hdiv : Z.pos mc mod 2 ^ k = 0).
  { destruct (Z_le_gt_dec 0 ec) as [H|H].
    - replace k with 0 by (unfold k; lia). apply Z.mod_1_r.
    - replace k with (- ec) by (unfold k; lia). destruct Hint as [Hint|Hint]; [lia | exact Hint]. }
  pose proof (Z.div_mod (Z.pos mc) (2 ^ k) ltac:(lia)) as D. rewrite Hdiv, Z.add_0_r in D.
  set (q := Z.pos mc / 2 ^ k) in *.
  assert (Hq : 0 < q) by nia.
  assert (Hk : k <= 52).
  { destruct (Z_le_gt_dec k 52) as [H|H]; [exact H|exfalso].
    assert (2 ^ 53 <= 2 ^ k) by (apply Z.pow_le_mono_r; lia). nia. }
  assert (P53 : 2 ^ 53 = 2 ^ (53 - k) * 2 ^ k).
  { rewrite <- Z.pow_add_r by lia. f_equal. lia. }
  assert (Hq53 : q < 2 ^ (53 - k)) by nia.
  assert (Hnormal : 2 ^ 52 <= Z.pos mc).
  { destruct Hn as [Hn|Hn]; [exact Hn|]. exfalso. unfold k in Hk. lia. }
  assert (Hu : units mc ec + 2 ^ (Z.max ec 0 + 1074) = (Z.pos mc + 2 ^ k) * 2 ^ (ec + 1074)).
  { unfold units. rewrite Z.mul_add_distr_r, <- Z.pow_add_r by (unfold k; lia).
    do 2 f_equal. unfold k. lia. }
  destruct (Z.eq_dec (q + 1) (2 ^ (53 - k))) as [Ecarry|Ecarry].
  - (* the mantissa is full: the next binade *)
    exists 4503599627370496%positive, (ec + 1). split; [|split].
    + apply canonical_intro; [lia | reflexivity | left; reflexivity].
    + unfold is_integer. apply orb_true_iff.
      destruct (Z_le_gt_dec 0 (ec + 1)) as [H|H]; [left; apply Z.leb_le; exact H | right].
      apply Z.eqb_eq. change (Z.pos 4503599627370496) with (2 ^ 52).
      replace (2 ^ 52) with (2 ^ (52 - (- (ec + 1))) * 2 ^ (- (ec + 1)))
        by (rewrite <- Z.pow_add_r by (unfold k in Hk; lia); f_equal; lia).
      apply Z.mod_mul. pose proof (pow2_pos (- (ec + 1)) ltac:(lia)). lia.
    + rewrite Hu. unfold units. change (Z.pos 4503599627370496) with (2 ^ 52).
      replace (Z.pos mc + 2 ^ k) with (2 ^ 53) by nia.
      rewrite <- !Z.pow_add_r by lia. f_equal. lia.
  - (* the same binade *)
    assert (Hlt : Z.pos mc + 2 ^ k < 2 ^ 53) by nia.
    exists (Z.to_pos (Z.pos mc + 2 ^ k)), ec.
    assert (Epos : Z.pos (Z.to_pos (Z.pos mc + 2 ^ k)) = Z.pos mc + 2 ^ k)
      by (apply Z2Pos.id; lia).
    split; [|split].
    + apply canonical_intro; [lia | rewrite Epos; exact Hlt | left; rewrite Epos; lia].
    + unfold is_integer. rewrite Epos. apply orb_true_iff.
      destruct (Z_le_gt_dec 0 ec) as [H|H]; [left; apply Z.leb_le; exact H | right].
      apply Z.eqb_eq. replace (- ec) with k by (unfold k; lia).
      rewrite D. replace (2 ^ k * q + 2 ^ k) with ((q + 1) * 2 ^ k) by ring.
      apply Z.mod_mul. lia.
    + rewrite Hu. unfold units. rewrite Epos. reflexivity.
Qed.

(** A sum of a mantissa of 53 bits at a bounded exponent and of a step that
    is not above the ceiling is below the matching power of two. *)
Lemma below_power (m p s B T X a d : Z) :
  0 < X -> 0 < d -> 1 <= B -> 0 < p ->
  0 < m < 2 ^ 53 -> p <= B * X -> s <= 10000000000000000 * X ->
  T = 2 ^ 55 * B ->
  a * X = (m * p + s) * d ->
  a < T * d.
Proof.
  intros HX Hd HB Hp Hm Hpb Hs -> Hu.
  apply (Z.mul_lt_mono_pos_r X); [exact HX|]. rewrite Hu.
  assert (H1 : m * p < 2 ^ 53 * (B * X)) by nia.
  assert (H2 : s <= 2 ^ 54 * (B * X)).
  { assert (10000000000000000 * X <= 2 ^ 54 * (B * X)); [|lia].
    assert (10000000000000000 <= 2 ^ 54) by lia.
    nia. }
  assert (H3 : m * p + s < 2 ^ 55 * B * X).
  { change (2 ^ 55) with (4 * 2 ^ 53). change (2 ^ 54) with (2 * 2 ^ 53) in H2. lia. }
  nia.
Qed.

Lemma sum_below (mc ms : positive) (ec es a d K : Z) :
  canonical mc ec -> 0 < d -> ec <= K - 55 -> 55 <= K ->
  units ms es <= 10000000000000000 * 2 ^ 1074 ->
  a * 2 ^ 1074 = (units mc ec + units ms es) * d ->
  a < 2 ^ K * d.
Proof.
  intros Hc Hd Hec HK.
  destruct (canonical_bounds mc ec Hc) as (Hec0 & Hmc & _).
  pose proof (pow2_pos 1074 ltac:(lia)) as PX.
  pose proof (pow2_pos (K - 55) ltac:(lia)) as PB.
  pose proof (pow2_pos (ec + 1074) ltac:(lia)) as Pp.
  assert (E1 : 2 ^ (ec + 1074) <= 2 ^ (K - 55) * 2 ^ 1074).
  { rewrite <- Z.pow_add_r by lia. apply Z.pow_le_mono_r; lia. }
  assert (E2 : 2 ^ K = 2 ^ 55 * 2 ^ (K - 55)).
  { rewrite <- Z.pow_add_r by lia. f_equal. lia. }
  assert (HB : 1 <= 2 ^ (K - 55)) by lia.
  assert (Hm : 0 < Z.pos mc < 2 ^ 53) by lia.
  intros Us Hu.
  exact (below_power (Z.pos mc) (2 ^ (ec + 1074)) (units ms es) (2 ^ (K - 55))
                     (2 ^ K) (2 ^ 1074) a d PX Hd HB Pp Hm E1 Us E2 Hu).
Qed.

(** ** One call of the generator *)

(** From a whole code below [2^953] and with a step between 2 and the
    ceiling, [nextCode] gives a whole code again; from a code of at most
    [2^54] it gives one that is at least 1 larger, and from a code that has
    reached the ceiling one that has reached it too. *)
Lemma nextCode_step (imei : number) (mc : positive) (ec : Z) :
  canonical mc ec -> is_integer (S754_finite false mc ec) = true -> ec <= 900 ->
  num_le (num_of_Z 2) (step imei) = true -> num_le (step imei) ceiling = true ->
  exists m' e',
    nextCode imei (S754_finite false mc ec) = S754_finite false m' e'
    /\ canonical m' e' /\ is_integer (S754_finite false m' e') = true
    /\ (ec <= 1 -> e' <= 900)
    /\ (ec <= 1 -> units mc ec + 2 ^ 1074 <= units m' e')
    /\ (units 5000000000000000 1 <= units mc ec ->
        num_ge (S754_finite false m' e') ceiling = true).
Proof.
  intros Hc Hint Hec H2 HB.
  destruct (step_bounds imei H2 HB) as (ms & es & Es & Cs & Ls & Us).
  destruct (canonical_bounds mc ec Hc) as (Hec0 & Hmc & _).
  destruct (canonical_bounds ms es Cs) as (Hes0 & _ & _).
  destruct (add_units mc ms ec es ltac:(lia) ltac:(lia)) as (a & d & Ha & Hd & Esum & Hu).
  pose proof (sum_below mc ms ec es a d 955 Hc Hd ltac:(lia) ltac:(lia) Us Hu) as Hbig.
  pose proof (round_rat_exponent false a d 955 Ha Hd ltac:(lia) Hbig) as Hx.
  assert (Hx1 : ec <= 1 ->
                match round_rat false a d with
                | S754_finite _ _ e => e <= 56 - 52
                | S754_infinity _ => False
                | _ => True
                end).
  { intros H1. apply (round_rat_exponent false a d 56 Ha Hd); [lia|].
    apply (sum_below mc ms ec es a d 56 Hc Hd); [lia | lia | exact Us | exact Hu]. }
  clear Hbig.
  assert (Uc0 : 0 < units mc ec).
  { unfold units. apply Z.mul_pos_pos; [reflexivity | apply pow2_pos; lia]. }
  (* what a datum below the exact sum is below *)
  assert (Hlow : forall mp ep, canonical mp ep -> units mp ep <= units mc ec + units ms es ->
                 num_le (S754_finite false mp ep) (round_rat false a d) = true).
  { intros mp ep Cp Hp. apply round_rat_ge; [exact Cp | exact Hd|]. rewrite Hu.
    apply Z.mul_le_mono_nonneg_r; [lia | exact Hp]. }
  assert (Us0 : 0 <= units ms es).
  { unfold units. apply Z.mul_nonneg_nonneg; [discriminate|]. apply Z.lt_le_incl, pow2_pos. lia. }
  assert (Hge : num_le (S754_finite false mc ec) (round_rat false a d) = true).
  { apply Hlow; [exact Hc|]. apply (Z.le_trans _ (units mc ec + 0)); [rewrite Z.add_0_r; apply Z.le_refl|].
    apply Z.add_le_mono_l. exact Us0. }
  pose proof (round_rat_wf false a d Hd) as Hwf.
  destruct (round_rat false a d) as [s|s| |[|] my ey] eqn:Ey; try discriminate Hge;
    try contradiction.
  apply wf_finite in Hwf. rename Hwf into Cy.
  assert (Enext : nextCode imei (S754_finite false mc ec)
                  = Math_round (S754_finite false my ey)).
  { unfold nextCode. rewrite Es, Esum, Number_pad_ToString by exact Cy. reflexivity. }
  pose proof (Math_round_ge mc my ec ey Hc Cy Hint Hge) as Hrge.
  pose proof (Math_round_integer (S754_finite false my ey)) as Hwhole.
  destruct (Math_round_shape my ey Cy) as [Ez | (m' & e' & Er & Cr & Hr)].
  { rewrite Ez in Hrge. discriminate Hrge. }
  rewrite Er in Hrge, Hwhole. exists m', e'.
  split; [rewrite Enext; exact Er|]. split; [exact Cr|]. split; [exact Hwhole|].
  split; [|split].
  - intros H1. specialize (Hx1 H1). cbn beta iota in Hx1. clear -Hx1 Hr. lia.
  - intros H1.
    destruct (next_integer mc ec Hc Hint H1) as (mp & ep & Cp & Ip & Up).
    assert (Hp1 : 2 ^ (Z.max ec 0 + 1074) <= 2 * 2 ^ 1074).
    { change (2 * 2 ^ 1074) with (2 ^ 1 * 2 ^ 1074). rewrite <- Z.pow_add_r by lia.
      apply Z.pow_le_mono_r; lia. }
    assert (Hp0 : 2 ^ 1074 <= 2 ^ (Z.max ec 0 + 1074)) by (apply Z.pow_le_mono_r; lia).
    assert (Hps : num_le (S754_finite false mp ep) (S754_finite false my ey) = true).
    { apply Hlow; [exact Cp|]. rewrite Up. apply Z.add_le_mono_l.
      apply (Z.le_trans _ _ _ Hp1). apply Ls. }
    pose proof (Math_round_ge mp my ep ey Cp Cy Ip Hps) as Hpr. rewrite Er in Hpr.
    pose proof (le_units mp m' ep e' Cp Cr Hpr) as L.
    apply (Z.le_trans _ (units mp ep)); [|exact L].
    rewrite Up. apply Z.add_le_mono_l. exact Hp0.
  - intros Hceil.
    assert (Hcs : num_le (S754_finite false 5000000000000000 1)
                         (S754_finite false my ey) = true).
    { apply Hlow; [exact ceiling_canonical|].
      apply (Z.le_trans _ _ _ Hceil). apply (Z.le_trans _ (units mc ec + 0));
        [rewrite Z.add_0_r; apply Z.le_refl|]. apply Z.add_le_mono_l. exact Us0. }
    pose proof (Math_round_ge _ my _ ey ceiling_canonical Cy eq_refl Hcs) as Hpr.
    rewrite Er in Hpr. rewrite ceiling_eq. exact Hpr.
Qed.

(** ** Codes below the ceiling *)

Lemma below_ceiling_exponent (m : positive) (e : Z) :
  canonical m e -> units m e <= units 5000000000000000 1 -> e <= 1.
Proof.
  intros Hc Hu. destruct (canonical_bounds m e Hc) as (He & Hm & [Hn|Hn]); [|lia].
  destruct (Z_le_gt_dec e 1) as [H|H]; [exact H|exfalso].
  rewrite ceiling_units in Hu. unfold units in Hu.
  assert (E : 2 ^ (e + 1074) = 2 ^ (e - 2) * (4 * 2 ^ 1074)).
  { change (4 * 2 ^ 1074) with (2 ^ (2 + 1074)). rewrite <- Z.pow_add_r by lia. f_equal. lia. }
  pose proof (pow2_pos (e - 2) ltac:(lia)). pose proof (pow2_pos 1074 ltac:(lia)).
  rewrite E in Hu.
  assert (10000000000000000 < 2 ^ 52 * 4) by reflexivity. nia.
Qed.

Lemma num_lt_from_units (m1 m2 : positive) (e1 e2 : Z) :
  canonical m1 e1 -> canonical m2 e2 -> units m1 e1 < units m2 e2 ->
  num_lt (S754_finite false m1 e1) (S754_finite false m2 e2) = true.
Proof.
  intros C1 C2 Hu.
  destruct (num_lt (S754_finite false m1 e1) (S754_finite false m2 e2)) eqn:E;
    [reflexivity | exfalso].
  assert (L : num_le (S754_finite false m2 e2) (S754_finite false m1 e1) = true).
  { revert E. unfold num_lt, num_le, SFltb, SFleb, SFcompare.
    rewrite (Z.compare_antisym e1 e2).
    destruct (e1 ?= e2); cbn [CompOpp]; try discriminate; try reflexivity.
    change (Pos.compare_cont Eq m1 m2) with (m1 ?= m2)%positive.
    change (Pos.compare_cont Eq m2 m1) with (m2 ?= m1)%positive.
    rewrite (Pos.compare_antisym m1 m2).
    destruct (m1 ?= m2)%positive; cbn [CompOpp]; try discriminate; reflexivity. }
  pose proof (le_units _ _ _ _ C2 C1 L). lia.
Qed.

(** X16.  On the codes of a regular search [nextCode] goes up: for a whole
    code above zero and not above the ceiling, and a step that is at least
    2 and not above the ceiling, the next code is a whole number again and
    strictly above the code, so that no code is produced twice. *)
Theorem nextCode_strictly_above (imei c : number) :
  wf c -> is_integer c = true -> num_lt (num_of_Z 0) c = true ->
  num_le c ceiling = true ->
  num_le (num_of_Z 2) (step imei) = true -> num_le (step imei) ceiling = true ->
  num_lt c (nextCode imei c) = true /\ is_integer (nextCode imei c) = true.
Proof.
  intros Hwf Hint Hpos Hle H2 HB.
  destruct (positive_cases c Hpos) as [E0 | (m0 & e0 & E0)].
  { rewrite E0, ceiling_eq in Hle. discriminate Hle. }
  subst c. apply wf_finite in Hwf. rewrite ceiling_eq in Hle.
  pose proof (le_units _ _ _ _ Hwf ceiling_canonical Hle) as Hu.
  pose proof (below_ceiling_exponent m0 e0 Hwf Hu) as He0.
  destruct (nextCode_step imei m0 e0 Hwf Hint ltac:(lia) H2 HB)
    as (m1 & e1 & En & Cn & In & _ & Hprog & _).
  specialize (Hprog He0). rewrite En. split; [|exact In].
  apply num_lt_from_units; [exact Hwf | exact Cn|].
  pose proof (pow2_pos 1074 ltac:(lia)). lia.
Qed.

(** ** The search comes to an end *)

Lemma classify_returns (msgs : adb_messages) (strict : bool) (out : string) :
  classify msgs strict out <> OutOfFuel /\ classify msgs strict out <> Killed.
Proof.
  unfold classify.
  destruct (includes _ _); [split; discriminate|].
  destruct (includes _ _); [split; discriminate|].
  destruct (includes _ _); [split; discriminate|].
  destruct strict; split; discriminate.
Qed.

Section Ends.
Local Open Scope list_scope.
Context {D : Type}.
Variable phone : device D.
Variable cfg : config.
Variable msgs : adb_messages.
Hypothesis Hstep2 : num_le (num_of_Z 2) (step (imei cfg)) = true.
Hypothesis HstepB : num_le (step (imei cfg)) ceiling = true.

Lemma bruteforce_ends (k : nat) (st : machine D) (mc : positive) (ec : Z) :
  handlers st = false ->
  currentCode (this st) = S754_finite false mc ec ->
  canonical mc ec -> is_integer (S754_finite false mc ec) = true -> ec <= 900 ->
  units 5000000000000000 1 + 2 ^ 1074 <= units mc ec + Z.of_nat k * 2 ^ 1074 ->
  wp (bruteforce phone cfg msgs (S k)) (fun _ _ => True) (fun r _ => r <> OutOfFuel) st.
Proof.
  revert st mc ec. induction k as [|k IH]; intros st mc ec Hh Hc Cc Ic Hec Hk.
  all: rewrite bruteforce_S; apply wp_get; rewrite Hc.
  all: apply (wp_seq _ _ (fun (_ : bool) st1 =>
         handlers st1 = false /\ currentCode (this st1) = S754_finite false mc ec)).
  1,3: apply wp_attemptCode; [exact Hh|]; intros out d Hd st1;
       split; [intros e _; discriminate|]; intros _; split;
       [intros _; discriminate|];
       intros _; destruct out as [text|]; [|discriminate];
       destruct (classify_returns msgs (throwOnUnknownErrors cfg) (trim (toLowerCase text)))
         as [C1 C2];
       destruct (classify _ _ _) as [b|e| |];
       [split; [reflexivity | exact Hc] | discriminate | contradiction | contradiction].
  all: intros result st1 (Hh1 & Hc1); destruct result;
       [apply wp_saveBootloaderCode, wp_ret; exact I|].
  all: apply (wp_seq _ _ (fun (_ : unit) st2 =>
         handlers st2 = false /\ currentCode (this st2) = S754_finite false mc ec)).
  1,3: destruct (truthy (autorebootAfter cfg)); [|apply wp_ret; split; assumption];
       apply wp_get; destruct (_ >=? _); [|apply wp_ret; split; assumption];
       apply wp_set, wp_rebootDevice; [exact Hh1|]; intros ok d Hd st2;
       cbn [this dev files log handlers interrupt commands unhandled] in st2 |- *;
       split; [intros e _; discriminate|]; intros _;
       split; [intros _; discriminate|];
       intros _; destruct ok; [split; [reflexivity | exact Hc1] | discriminate].
  all: clear dependent st1; intros _ st2 (Hh2 & Hc2).
  all: apply (wp_seq _ _ (fun (_ : unit) st3 =>
         handlers st3 = false /\ currentCode (this st3) = S754_finite false mc ec)).
  1,3: destruct (truthy (saveStateAfter cfg)); [|apply wp_ret; split; assumption];
       apply wp_get; destruct (_ >=? _); [|apply wp_ret; split; assumption];
       apply wp_set, wp_saveLastState_end; split; assumption.
  all: clear dependent st2; intros _ st3 (Hh3 & Hc3).
  all: apply wp_set, wp_get; cbn [this set_currentCode currentCode]; rewrite Hc3.
  all: destruct (nextCode_step (imei cfg) mc ec Cc Ic Hec Hstep2 HstepB)
         as (m' & e' & En & Cn & In & He' & Hprog & Hceil).
  all: rewrite En.
  all: destruct (num_ge (S754_finite false m' e') ceiling) eqn:Hge;
       [apply wp_throw; discriminate|].
  all: assert (Hbelow : units mc ec <= units 5000000000000000 1).
  1,3: destruct (Z.le_gt_cases (units mc ec) (units 5000000000000000 1)) as [H|H];
       [exact H | exfalso].
  1,2: exact (Bool.diff_false_true (Hceil (Z.lt_le_incl _ _ H))).
  all: pose proof (below_ceiling_exponent mc ec Cc Hbelow) as Hec1.
  all: specialize (Hprog Hec1); specialize (He' Hec1).
  - exfalso. cbn [Z.of_nat] in Hk. pose proof (pow2_pos 1074 ltac:(lia)). lia.
  - apply (IH _ m' e'); try assumption; try reflexivity.
    rewrite Nat2Z.inj_succ in Hk. lia.
Qed.

(** X17.  The search comes to an end.  When the first code is a whole
    number above zero and not above the ceiling, and the step is at least 2
    and not above the ceiling, every candidate is at least one above the
    code before it, so that the ceiling is reached after at most
    10000000000000001 candidates: with a recursion depth of
    10000000000000002 or more the model of [start] does not run out of
    fuel, whatever the device answers. *)
Theorem search_ends (d : D) (fs : gmap string string) (sig : option nat) (fuel : nat) :
  let c0 := nullish (getLastSavedState cfg fs) default_code in
  wf c0 -> is_integer c0 = true -> num_lt (num_of_Z 0) c0 = true ->
  num_le c0 ceiling = true ->
  10000000000000002 <= Z.of_nat fuel ->
  fst (start phone cfg msgs fuel (boot d fs sig)) <> OutOfFuel.
Proof.
  intros c0 Hwf Hint Hpos Hle Hfuel.
  destruct (positive_cases c0 Hpos) as [E0 | (m0 & e0 & E0)].
  { rewrite E0, ceiling_eq in Hle. discriminate Hle. }
  rewrite E0 in Hwf, Hint, Hle. apply wf_finite in Hwf. rewrite ceiling_eq in Hle.
  pose proof (le_units _ _ _ _ Hwf ceiling_canonical Hle) as Hu.
  pose proof (below_ceiling_exponent m0 e0 Hwf Hu) as He0.
  destruct (nextCode_step (imei cfg) m0 e0 Hwf Hint ltac:(lia) Hstep2 HstepB)
    as (m1 & e1 & En & Cn & In & He1 & _ & _).
  specialize (He1 He0).
  destruct fuel as [|k]; [exfalso; revert Hfuel; change (Z.of_nat 0) with 0; lia|].
  assert (Hk : 10000000000000001 <= Z.of_nat k)
    by (rewrite Nat2Z.inj_succ in Hfuel; lia).
  clear Hfuel.
  assert (G : wp (start phone cfg msgs (S k))
                 (fun _ _ => True) (fun r _ => r <> OutOfFuel) (boot d fs sig)).
  { unfold start, boot. apply wp_set.
    cbn [this dev files log handlers interrupt commands unhandled].
    match goal with
    | |- wp (bind ?c ?k) ?N ?E ?s => change (wp (k s) N E s)
    end.
    cbn beta. apply wp_set.
    cbn [this dev files log handlers interrupt commands unhandled]. fold c0. rewrite E0.
    apply (wp_seq _ _ (fun (_ : unit) st1 =>
             handlers st1 = false /\ currentCode (this st1) = S754_finite false m0 e0)).
    { apply wp_rebootDevice; [reflexivity|]. intros ok d1 Hd st1.
      split; [intros e _; discriminate|]. intros _. split.
      - intros _. discriminate.
      - intros _. destruct ok; [split; reflexivity | discriminate]. }
    intros _ st1 (Hh & Hc). apply wp_set.
    apply (wp_seq _ _ (fun _ _ => True)); [|intros _ st2 _; exact I].
    apply (bruteforce_ends _ _ m1 e1); try assumption.
    - cbn [this set_currentCode currentCode]. rewrite Hc. exact En.
    - rewrite ceiling_units.
      assert (0 < units m1 e1).
      { unfold units. destruct (canonical_bounds m1 e1 Cn) as (? & _).
        pose proof (pow2_pos (e1 + 1074) ltac:(lia)). nia. }
      pose proof (pow2_pos 1074 ltac:(lia)). nia. }
  unfold wp in G. revert G.
  generalize (start phone cfg msgs (S k) (boot d fs sig)).
  intros [[[]|e| |] st'] G; cbn [fst]; try exact G; congruence.
Qed.
End Ends.

Lemma search_ends_witness :
  let c0 := nullish (getLastSavedState (sample_config None)
                       (checkpoint_of "9999900000000000")) default_code in
  let fuel := Z.to_nat 10000000000000002 in
  num_le (num_of_Z 2) (step (imei (sample_config None))) = true
  /\ num_le (step (imei (sample_config None))) ceiling = true
  /\ wf c0 /\ is_integer c0 = true /\ num_lt (num_of_Z 0) c0 = true
  /\ num_le c0 ceiling = true
  /\ 10000000000000002 <= Z.of_nat fuel
  /\ fst (start rejecting_device (sample_config None) sample_messages fuel
            (boot tt (checkpoint_of "9999900000000000") None)) <> OutOfFuel.
Proof.
  intros c0 fuel.
  assert (H1 : num_le (num_of_Z 2) (step (imei (sample_config None))) = true)
    by (vm_compute; reflexivity).
  assert (H2 : num_le (step (imei (sample_config None))) ceiling = true)
    by (vm_compute; reflexivity).
  assert (H3 : wf c0) by (vm_compute; reflexivity).
  assert (H4 : is_integer c0 = true) by (vm_compute; reflexivity).
  assert (H5 : num_lt (num_of_Z 0) c0 = true) by (vm_compute; reflexivity).
  assert (H6 : num_le c0 ceiling = true) by (vm_compute; reflexivity).
  assert (H7 : 10000000000000002 <= Z.of_nat fuel)
    by (unfold fuel; rewrite Z2Nat.id; [apply Z.le_refl | discriminate]).
  split; [exact H1|]. split; [exact H2|]. split; [exact H3|]. split; [exact H4|].
  split; [exact H5|]. split; [exact H6|]. split; [exact H7|].
  exact (search_ends rejecting_device (sample_config None) sample_messages H1 H2
           tt (checkpoint_of "9999900000000000") None fuel H3 H4 H5 H6 H7).
Defined.

Lemma nextCode_strictly_above_witness :
  wf default_code /\ is_integer default_code = true
  /\ num_lt (num_of_Z 0) default_code = true /\ num_le default_code ceiling = true
  /\ num_le (num_of_Z 2) (step sample_imei) = true
  /\ num_le (step sample_imei) ceiling = true
  /\ num_lt default_code (nextCode sample_imei default_code) = true
  /\ is_integer (nextCode sample_imei default_code) = true.
Proof.
  assert (H1 : wf default_code) by (vm_compute; reflexivity).
  assert (H2 : is_integer default_code = true) by (vm_compute; reflexivity).
  assert (H3 : num_lt (num_of_Z 0) default_code = true) by (vm_compute; reflexivity).
  assert (H4 : num_le default_code ceiling = true) by (vm_compute; reflexivity).
  assert (H5 : num_le (num_of_Z 2) (step sample_imei) = true) by (vm_compute; reflexivity).
  assert (H6 : num_le (step sample_imei) ceiling = true) by (vm_compute; reflexivity).
  split; [exact H1|]. split; [exact H2|]. split; [exact H3|]. split; [exact H4|].
  split; [exact H5|]. split; [exact H6|].
  exact (nextCode_strictly_above sample_imei default_code H1 H2 H3 H4 H5 H6).
Defined.
